(** * TradeBOT: the post-market analytics pipeline

    A shallow embedding of the Sensex bot's pipeline
    (indicator engine, signal generator, risk engine, probability engine,
    report builder and the daily run) together with the properties its
    specification states about it.

    Numbers.  Every number of the pipeline is a Python / NumPy float.  It is
    modelled by [float] below: an exact rational, one of the two infinities,
    or NaN.  Comparisons with NaN are false, NaN spreads through arithmetic,
    and a NumPy division by zero gives an infinity or NaN instead of raising.
    In this first embedding binary rounding and overflow are left out: a
    finite value is the exact rational, and there is one kind of float.

    Binary floats.  The interpreter has two kinds of float, Python's [float]
    and NumPy's [numpy.float64], both IEEE binary64, and [round] is a
    different function on each.  Where a property depends on that (the
    order of two probabilities), the functions involved are embedded a
    second time in the module [Binary64] at the end of the definitions:
    every arithmetic operation rounds its exact result to the nearest
    binary64 number, and every number carries its run-time type.

    Library code.  The [ta] indicators (RSI, SMA, EMA, MACD) and [np.sqrt]
    are third-party functions; they are parameters of the model ([TaLib]).
    The pandas operations the repository calls (pct_change, rolling mean,
    cumsum, cumprod, cummax, std, dropna) are written out. *)

From Stdlib Require Import String.
From Stdlib Require Import QArith Qabs Qround Qpower Lqa ZArith List Lia Bool.
From Stdlib Require Import Permutation Sorted.
Import ListNotations.

Open Scope Q_scope.

(* ================================================================== *)
(** ** Floats *)

Inductive float : Type :=
| NaN
| NInf
| PInf
| Fin (q : Q).

Definition Qltb (a b : Q) : bool := negb (Qle_bool b a).

Definition is_nan (x : float) : bool :=
  match x with NaN => true | _ => false end.

Definition is_finite (x : float) : bool :=
  match x with Fin _ => true | _ => false end.

(** [x < y] on floats: false as soon as one side is NaN. *)
Definition flt (x y : float) : bool :=
  match x, y with
  | NaN, _ | _, NaN => false
  | NInf, NInf => false
  | NInf, _ => true
  | _, NInf => false
  | PInf, _ => false
  | Fin _, PInf => true
  | Fin a, Fin b => Qltb a b
  end.

(** [x <= y]. *)
Definition fle (x y : float) : bool :=
  match x, y with
  | NaN, _ | _, NaN => false
  | NInf, _ => true
  | _, NInf => false
  | _, PInf => true
  | PInf, Fin _ => false
  | Fin a, Fin b => Qle_bool a b
  end.

Definition fgt (x y : float) : bool := flt y x.
Definition fge (x y : float) : bool := fle y x.

(** [x == y]. *)
Definition feqb (x y : float) : bool :=
  match x, y with
  | NInf, NInf | PInf, PInf => true
  | Fin a, Fin b => Qeq_bool a b
  | _, _ => false
  end.

(** Equality of floats as values: the rationals up to [Qeq]; NaN is taken
    equal to NaN here (this is the meta-level relation used to state
    results, not Python's [==], which is [feqb]). *)
Definition feq (x y : float) : Prop :=
  match x, y with
  | NaN, NaN | NInf, NInf | PInf, PInf => True
  | Fin a, Fin b => a == b
  | _, _ => False
  end.

Definition fneg (x : float) : float :=
  match x with
  | NaN => NaN
  | NInf => PInf
  | PInf => NInf
  | Fin a => Fin (- a)
  end.

Definition fabs (x : float) : float :=
  match x with
  | NaN => NaN
  | NInf | PInf => PInf
  | Fin a => Fin (Qabs a)
  end.

Definition fadd (x y : float) : float :=
  match x, y with
  | NaN, _ | _, NaN => NaN
  | PInf, NInf | NInf, PInf => NaN
  | PInf, _ | _, PInf => PInf
  | NInf, _ | _, NInf => NInf
  | Fin a, Fin b => Fin (a + b)
  end.

Definition fsub (x y : float) : float := fadd x (fneg y).

(** Sign of a rational as an infinity, for products and quotients. *)
Definition inf_of_sign (positive : bool) : float :=
  if positive then PInf else NInf.

Definition fmul (x y : float) : float :=
  match x, y with
  | NaN, _ | _, NaN => NaN
  | Fin a, Fin b => Fin (a * b)
  | PInf, PInf | NInf, NInf => PInf
  | PInf, NInf | NInf, PInf => NInf
  | PInf, Fin b | Fin b, PInf =>
      if Qeq_bool b 0 then NaN else inf_of_sign (Qltb 0 b)
  | NInf, Fin b | Fin b, NInf =>
      if Qeq_bool b 0 then NaN else inf_of_sign (Qltb b 0)
  end.

(** NumPy division: [x / 0] is an infinity of the sign of [x], [0 / 0] is
    NaN; nothing raises. *)
Definition fdiv (x y : float) : float :=
  match x, y with
  | NaN, _ | _, NaN => NaN
  | Fin a, Fin b =>
      if Qeq_bool b 0
      then (if Qeq_bool a 0 then NaN else inf_of_sign (Qltb 0 a))
      else Fin (a / b)
  | Fin _, (PInf | NInf) => Fin 0
  | (PInf | NInf), (PInf | NInf) => NaN
  | PInf, Fin b => inf_of_sign (Qle_bool 0 b)
  | NInf, Fin b => inf_of_sign (Qltb b 0)
  end.

Declare Scope float_scope.
Delimit Scope float_scope with float.
Bind Scope float_scope with float.
Infix "+" := fadd : float_scope.
Infix "-" := fsub : float_scope.
Infix "*" := fmul : float_scope.
Infix "/" := fdiv : float_scope.
Infix "<?" := flt : float_scope.
Infix "<=?" := fle : float_scope.
Infix ">?" := fgt (at level 70) : float_scope.
Infix ">=?" := fge (at level 70) : float_scope.

(* ================================================================== *)
(** ** Python built-ins *)

(** [min(a, b)]: the first argument unless the second is smaller. *)
Definition py_min (a b : float) : float := if flt b a then b else a.

(** [max(a, b)]: the first argument unless the second is larger. *)
Definition py_max (a b : float) : float := if flt a b then b else a.

(** Round half to even, on a rational. *)
Definition round_half_even (q : Q) : Z :=
  let f := Qfloor q in
  let r := q - inject_Z f in
  if Qltb r (1 # 2) then f
  else if Qltb (1 # 2) r then (f + 1)%Z
  else if Z.even f then f else (f + 1)%Z.

(** [round(x, ndigits)]: infinities and NaN are returned as they are. *)
Definition py_round (x : float) (ndigits : nat) : float :=
  match x with
  | Fin q =>
      let scale := inject_Z (10 ^ Z.of_nat ndigits) in
      Fin (inject_Z (round_half_even (q * scale)) / scale)
  | _ => x
  end.

(** [abs(x)]. *)
Definition py_abs (x : float) : float := fabs x.

(** [l[:n]] for an integer [n]: a negative [n] counts from the end. *)
Definition slice_to {A : Type} (l : list A) (n : Z) : list A :=
  if (0 <=? n)%Z then firstn (Z.to_nat n) l
  else firstn (length l - Z.to_nat (- n)) l.

(** Exceptions, and results of code that may raise. *)
Inductive exn : Type :=
| KeyError (key : string)
| IndexError
| ValueError (msg : string)
| RuntimeError (msg : string)
| LibraryError (code : nat).

Inductive result (A : Type) : Type :=
| Ok (a : A)
| Raise (e : exn).
Arguments Ok {A} a.
Arguments Raise {A} e.

Definition bind {A B : Type} (m : result A) (k : A -> result B) : result B :=
  match m with
  | Ok a => k a
  | Raise e => Raise e
  end.

Notation "x <- m ;; k" := (bind m (fun x => k))
  (at level 61, m at next level, right associativity).

(** A dict with string keys, in insertion order: assigning to a key that is
    present replaces its value in place, a new key is appended. *)
Definition dict (V : Type) : Type := list (string * V).

Fixpoint dict_get {V : Type} (d : dict V) (k : string) : option V :=
  match d with
  | [] => None
  | (k', v) :: d' => if String.eqb k' k then Some v else dict_get d' k
  end.

Fixpoint dict_set {V : Type} (d : dict V) (k : string) (v : V) : dict V :=
  match d with
  | [] => [(k, v)]
  | (k', v') :: d' =>
      if String.eqb k' k then (k', v) :: d' else (k', v') :: dict_set d' k v
  end.

(** [d[k]], raising [KeyError] on a missing key. *)
Definition dict_item {V : Type} (d : dict V) (k : string) : result V :=
  match dict_get d k with
  | Some v => Ok v
  | None => Raise (KeyError k)
  end.

Definition keys {V : Type} (d : dict V) : list string := map fst d.

(** [l[-k]] for [k >= 1] ([iloc[-k]]): [IndexError] when [l] is shorter. *)
Definition iloc_back {A : Type} (l : list A) (k : nat) : result A :=
  if (k <=? length l)%nat
  then match nth_error l (length l - k) with
       | Some a => Ok a
       | None => Raise IndexError
       end
  else Raise IndexError.

(** A stable insertion sort: [before a b] says that [a] must come strictly
    before [b]; elements that neither precede the other keep their order.
    It stands for Python's [sorted] and pandas' [sort_values]. *)
Fixpoint insert_by {A : Type} (before : A -> A -> bool) (x : A) (l : list A) : list A :=
  match l with
  | [] => [x]
  | y :: l' =>
      if before y x then y :: insert_by before x l'
      else x :: y :: l'
  end.

Definition stable_sort {A : Type} (before : A -> A -> bool) (l : list A) : list A :=
  fold_right (insert_by before) [] l.

(** [sorted(l, key=key, reverse=True)]. *)
Definition sorted_desc {A : Type} (key : A -> float) (l : list A) : list A :=
  stable_sort (fun a b => fgt (key a) (key b)) l.

(** [sorted(set(l))] on strings. *)
Definition sorted_set (l : list string) : list string :=
  stable_sort String.ltb (nodup string_dec l).

(* ================================================================== *)
(** ** pandas Series operations used by the repository *)

Definition Series : Type := list float.

Fixpoint map2 {A B C : Type} (f : A -> B -> C) (l : list A) (m : list B) : list C :=
  match l, m with
  | a :: l', b :: m' => f a b :: map2 f l' m'
  | _, _ => []
  end.

(** [s.shift(n)]: [n] leading NaN, the tail cut off. *)
Definition shift (n : nat) (s : Series) : Series :=
  firstn (List.length s) (repeat NaN n ++ s).

(** [s.pct_change(n)] = [s / s.shift(n) - 1] (the series read here carry no
    NaN, so no forward fill is involved). *)
Definition pct_change (n : nat) (s : Series) : Series :=
  map2 (fun x p => (x / p - Fin 1)%float) s (shift n s).

Definition fsum (s : Series) : float := fold_left fadd s (Fin 0).

Definition of_nat (n : nat) : float := Fin (inject_Z (Z.of_nat n)).

(** [s.rolling(w).mean()]: NaN until [w] values are in the window. *)
Definition rolling_mean (w : nat) (s : Series) : Series :=
  map (fun i =>
         if (w <=? i + 1)%nat
         then (fsum (firstn w (skipn (i + 1 - w) s)) / of_nat w)%float
         else NaN)
      (seq 0 (List.length s)).

(** Cumulative operations skip NaN: a NaN entry stays NaN and leaves the
    running value as it was. *)
Fixpoint cum_from (op : float -> float -> float) (acc : float) (s : Series) : Series :=
  match s with
  | [] => []
  | x :: s' =>
      if is_nan x then NaN :: cum_from op acc s'
      else let acc' := op acc x in acc' :: cum_from op acc' s'
  end.

Definition cumsum (s : Series) : Series := cum_from fadd (Fin 0) s.
Definition cumprod (s : Series) : Series := cum_from fmul (Fin 1) s.

Fixpoint cummax_from (acc : option float) (s : Series) : Series :=
  match s with
  | [] => []
  | x :: s' =>
      if is_nan x then NaN :: cummax_from acc s'
      else
        let m := match acc with
                 | None => x
                 | Some a => if flt a x then x else a
                 end in
        m :: cummax_from (Some m) s'
  end.

Definition cummax (s : Series) : Series := cummax_from None s.

(** [s.dropna()]. *)
Definition series_dropna (s : Series) : Series :=
  filter (fun x => negb (is_nan x)) s.

(** [s.min()]: over the values that are not NaN; NaN when there is none. *)
Definition series_min (s : Series) : float :=
  match series_dropna s with
  | [] => NaN
  | x :: s' => fold_left (fun m y => if flt y m then y else m) s' x
  end.

(** [s.replace(old, new)]. *)
Definition series_replace (old new : float) (s : Series) : Series :=
  map (fun x => if feqb x old then new else x) s.

(** [np.sqrt] on floats, from a square root on the non-negative rationals. *)
Definition fsqrt (sqrtQ : Q -> Q) (x : float) : float :=
  match x with
  | NaN | NInf => NaN
  | PInf => PInf
  | Fin q => if Qltb q 0 then NaN else Fin (sqrtQ q)
  end.

(** [s.std()]: the sample standard deviation (one degree of freedom taken
    off) of the values that are not NaN; NaN when fewer than two. *)
Definition series_std (sqrtQ : Q -> Q) (s : Series) : float :=
  let v := series_dropna s in
  let n := List.length v in
  if (n <? 2)%nat then NaN
  else
    let mean := (fsum v / of_nat n)%float in
    let sq := map (fun x => ((x - mean) * (x - mean))%float) v in
    fsqrt sqrtQ (fsum sq / of_nat (n - 1))%float.

(* ================================================================== *)
(** ** Data model *)

(** One record of a Daily Bar Table. *)
Record Bar : Type := mkBar {
  bOpen : float;
  bHigh : float;
  bLow : float;
  bClose : float;
  bVolume : float
}.

(** One record of an Enriched Bar Table: the bar and its derived columns. *)
Record Row : Type := mkRow {
  Open : float;
  High : float;
  Low : float;
  Close : float;
  Volume : float;
  RSI14 : float;
  SMA20 : float;
  SMA50 : float;
  SMA200 : float;
  EMA20 : float;
  VWAP : float;
  MACD : float;
  MACDSignal : float;
  MACDHist : float;
  Ret1D : float;
  Ret5D : float;
  VolumeAvg20 : float;
  VolumeRatio : float
}.

Definition base_columns (r : Row) : list float :=
  [Open r; High r; Low r; Close r; Volume r].

Definition derived_columns (r : Row) : list float :=
  [RSI14 r; SMA20 r; SMA50 r; SMA200 r; EMA20 r; VWAP r; MACD r;
   MACDSignal r; MACDHist r; Ret1D r; Ret5D r; VolumeAvg20 r; VolumeRatio r].

(** [df.dropna()]: the rows none of whose columns is NaN. *)
Definition row_has_null (r : Row) : bool :=
  existsb is_nan (base_columns r ++ derived_columns r).

Definition dropna (df : list Row) : list Row :=
  filter (fun r => negb (row_has_null r)) df.

(** The three series a [ta.trend.MACD] object holds. *)
Record MacdLines : Type := mkMacd {
  macd_line : Series;
  macd_signal : Series;
  macd_diff : Series
}.

(** The third-party functions: the [ta] indicators, each of which may
    raise, and the square root. *)
Record TaLib : Type := mkTaLib {
  RSIIndicator : Series -> nat -> result Series;
  SMAIndicator : Series -> nat -> result Series;
  EMAIndicator : Series -> nat -> result Series;
  MACD_lines : Series -> nat -> nat -> nat -> result MacdLines;
  np_sqrt : Q -> Q
}.

(** The [signal] field: the string "BUY" or "SELL". *)
Inductive Signal : Type := BUY | SELL.

Inductive Reason : Type :=
| MomentumTrend (rsi_1dp vol_ratio_2dp : float)
| ReversalRisk (rsi_1dp macd_hist_3dp : float).

(** [entry_zone] and [reason] are texts in the source; the model keeps the
    numbers they print, rounded as the format strings round them. *)
Record TradeSignal : Type := mkSignal {
  symbol : string;
  signal : Signal;
  current_price : float;
  entry_zone : float * float;
  target_price : float;
  stop_loss : float;
  reason : Reason;
  signal_score : float
}.

(** The [risk_level] field: the string "LOW", "MEDIUM" or "HIGH". *)
Inductive RiskLevel : Type := LOW | MEDIUM | HIGH.

Record RiskProfile : Type := mkRisk {
  volatility_score : float;
  drawdown_risk : float;
  trend_stability : float;
  risk_stop_loss : float;
  risk_level : RiskLevel
}.

Record ProbabilityEstimate : Type := mkProb {
  probability : float;
  confidence_note : string
}.

(* ================================================================== *)
(** ** indicator_engine.py *)

Open Scope float_scope.

Definition _calc_vwap (df : list Bar) : Series :=
  let typical_price :=
    map (fun b => (bHigh b + bLow b + bClose b) / Fin 3) df in
  let cumulative_value :=
    cumsum (map2 fmul typical_price (map bVolume df)) in
  let cumulative_volume :=
    cumsum (series_replace (Fin 0) NaN (map bVolume df)) in
  map2 fdiv cumulative_value cumulative_volume.

(** Column assignment aligns on the index: a position the series does not
    cover reads NaN. *)
Definition at_index (s : Series) (i : nat) : float := nth i s NaN.

(** Lines 29 to 45: the copy of the table with every derived column
    added, before rows are dropped. *)
Definition indicator_frame (lib : TaLib) (df : list Bar) : result (list Row) :=
  let close := map bClose df in
  let volume := map bVolume df in
  rsi14 <- RSIIndicator lib close 14 ;;
  sma20 <- SMAIndicator lib close 20 ;;
  sma50 <- SMAIndicator lib close 50 ;;
  sma200 <- SMAIndicator lib close 200 ;;
  ema20 <- EMAIndicator lib close 20 ;;
  let vwap := _calc_vwap df in
  macd <- MACD_lines lib close 26 12 9 ;;
  let ret1d := pct_change 1 close in
  let ret5d := pct_change 5 close in
  let volume_avg20 := rolling_mean 20 volume in
  let volume_ratio := map2 fdiv volume volume_avg20 in
  Ok (map (fun '(i, b) =>
             mkRow (bOpen b) (bHigh b) (bLow b) (bClose b) (bVolume b)
                   (at_index rsi14 i) (at_index sma20 i) (at_index sma50 i)
                   (at_index sma200 i) (at_index ema20 i) (at_index vwap i)
                   (at_index (macd_line macd) i) (at_index (macd_signal macd) i)
                   (at_index (macd_diff macd) i)
                   (at_index ret1d i) (at_index ret5d i)
                   (at_index volume_avg20 i) (at_index volume_ratio i))
          (combine (seq 0 (List.length df)) df)).

(** The body of the [try] block for one symbol: the frame, then line 47. *)
Definition enrich_symbol (lib : TaLib) (df : list Bar) : result (list Row) :=
  data <- indicator_frame lib df ;;
  Ok (dropna data).

(** The loop of [enrich_with_indicators]: the state is the [enriched] dict
    and the warnings logged so far. *)
Definition enrich_step (lib : TaLib)
    (st : dict (list Row) * list (string * exn)) (item : string * list Bar)
    : dict (list Row) * list (string * exn) :=
  let '(enriched, log) := st in
  let '(sym, df) := item in
  match enrich_symbol lib df with
  | Ok data => (dict_set enriched sym data, log)
  | Raise exc => (enriched, (log ++ [(sym, exc)])%list)
  end.

Definition enrich_loop (lib : TaLib) (price_history : dict (list Bar))
    : dict (list Row) * list (string * exn) :=
  fold_left (enrich_step lib) price_history ([], []).

Definition enrich_with_indicators (lib : TaLib) (price_history : dict (list Bar))
    : dict (list Row) :=
  fst (enrich_loop lib price_history).

(** The warnings [enrich_with_indicators] logs. *)
Definition enrich_warnings (lib : TaLib) (price_history : dict (list Bar))
    : list (string * exn) :=
  snd (enrich_loop lib price_history).

(* ================================================================== *)
(** ** signal_generator.py *)

Definition _buy_score (row : Row) : float :=
  let score := Fin 0 in
  let score := score + (if SMA20 row >? SMA50 row then Fin 20 else Fin 0) in
  let score := score + (if SMA50 row >? SMA200 row then Fin 15 else Fin 0) in
  let score := score + (if (Fin 40 <=? RSI14 row) && (RSI14 row <=? Fin 70)
                        then Fin 20 else Fin 0) in
  let score := score + (if MACD row >? MACDSignal row then Fin 20 else Fin 0) in
  let score := score + (if VolumeRatio row >? Fin 1.2 then Fin 15 else Fin 0) in
  let score := score + py_min (py_max (Ret5D row * Fin 100) (Fin 0)) (Fin 10) in
  score.

Definition _sell_score (row : Row) : float :=
  let score := Fin 0 in
  let score := score + (if RSI14 row >? Fin 75 then Fin 20 else Fin 0) in
  let score := score + (if SMA20 row <? SMA50 row then Fin 20 else Fin 0) in
  let score := score + (if SMA50 row <? SMA200 row then Fin 15 else Fin 0) in
  let score := score + (if MACD row <? MACDSignal row then Fin 20 else Fin 0) in
  let score := score + (if (VolumeRatio row >? Fin 1.2) && (Ret1D row <? Fin 0)
                        then Fin 15 else Fin 0) in
  let score := score + py_min (py_abs (py_min (Ret5D row * Fin 100) (Fin 0))) (Fin 10) in
  score.

Definition buy_signal (sym : string) (latest : Row) (price buy_score : float)
    : TradeSignal :=
  {| symbol := sym;
     signal := BUY;
     current_price := price;
     entry_zone := (py_round (price * Fin 0.99) 2, py_round (price * Fin 1.01) 2);
     target_price := py_round (price * Fin 1.05) 2;
     stop_loss := py_round (price * Fin 0.97) 2;
     reason := MomentumTrend (py_round (RSI14 latest) 1)
                             (py_round (VolumeRatio latest) 2);
     signal_score := buy_score |}.

Definition sell_signal (sym : string) (latest : Row) (price sell_score : float)
    : TradeSignal :=
  {| symbol := sym;
     signal := SELL;
     current_price := price;
     entry_zone := (py_round (price * Fin 0.99) 2, py_round (price * Fin 1.01) 2);
     target_price := py_round (price * Fin 0.95) 2;
     stop_loss := py_round (price * Fin 1.03) 2;
     reason := ReversalRisk (py_round (RSI14 latest) 1)
                            (py_round (MACDHist latest) 3);
     signal_score := sell_score |}.

(** One turn of the loop over [indicator_data.items()]; the state is the
    pair of lists [buys], [sells]. *)
Definition signals_step (st : list TradeSignal * list TradeSignal)
    (item : string * list Row) : list TradeSignal * list TradeSignal :=
  let '(buys, sells) := st in
  let '(sym, df) := item in
  match df with
  | [] => st
  | r :: rs =>
      let latest := last rs r in
      let price := Close latest in
      let buy_score := _buy_score latest in
      let sell_score := _sell_score latest in
      let buys :=
        if buy_score >=? Fin 55
        then (buys ++ [buy_signal sym latest price buy_score])%list
        else buys in
      let sells :=
        if sell_score >=? Fin 55
        then (sells ++ [sell_signal sym latest price sell_score])%list
        else sells in
      (buys, sells)
  end.

(** The candidates the loop emits, before ranking. *)
Definition candidates (indicator_data : dict (list Row))
    : list TradeSignal * list TradeSignal :=
  fold_left signals_step indicator_data ([], []).

Definition generate_signals (indicator_data : dict (list Row)) (top_n : Z)
    : list TradeSignal :=
  let '(buys, sells) := candidates indicator_data in
  let buys := slice_to (sorted_desc signal_score buys) top_n in
  let sells := slice_to (sorted_desc signal_score sells) top_n in
  (buys ++ sells)%list.

(* ================================================================== *)
(** ** risk_engine.py *)

Definition _risk_level (score : float) : RiskLevel :=
  if score <? Fin 0.33 then LOW
  else if score <? Fin 0.66 then MEDIUM
  else HIGH.

(** Line 41: the 30-row trend strength. *)
Definition trend_strength_of (close : Series) : result float :=
  if (30 <=? List.length close)%nat
  then
    c_last <- iloc_back close 1 ;;
    c_back <- iloc_back close 30 ;;
    Ok (py_abs (c_last / c_back - Fin 1))
  else Ok (Fin 0).

(** Line 42. *)
Definition trend_stability_of (volatility trend_strength : float) : float :=
  py_max (Fin 0) (py_min (Fin 1) (Fin 1 - py_abs (volatility - trend_strength))).

Definition evaluate_risk (lib : TaLib) (sig : TradeSignal) (data : list Row)
    : result RiskProfile :=
  let close := map Close data in
  let returns := series_dropna (pct_change 1 close) in
  let volatility := series_std (np_sqrt lib) returns * fsqrt (np_sqrt lib) (Fin 252) in
  let cumulative := cumprod (map (fadd (Fin 1)) returns) in
  let peak := cummax cumulative in
  let drawdown := series_min (map2 (fun c p => (c - p) / p) cumulative peak) in
  let drawdown_abs := py_abs drawdown in
  trend_strength <- trend_strength_of close ;;
  let trend_stability := trend_stability_of volatility trend_strength in
  let normalized_vol := py_min (volatility / Fin 0.6) (Fin 1) in
  let normalized_dd := py_min (drawdown_abs / Fin 0.35) (Fin 1) in
  let blended_risk :=
    normalized_vol * Fin 0.45 + normalized_dd * Fin 0.45
    + (Fin 1 - trend_stability) * Fin 0.10 in
  Ok {| volatility_score := py_round volatility 4;
        drawdown_risk := py_round drawdown_abs 4;
        trend_stability := py_round trend_stability 4;
        risk_stop_loss := stop_loss sig;
        risk_level := _risk_level blended_risk |}.

(** The dict comprehension of [batch_evaluate], signal by signal. *)
Fixpoint batch_evaluate_from (lib : TaLib) (acc : dict RiskProfile)
    (signals : list TradeSignal) (indicator_data : dict (list Row))
    : result (dict RiskProfile) :=
  match signals with
  | [] => Ok acc
  | sig :: rest =>
      data <- dict_item indicator_data (symbol sig) ;;
      risk <- evaluate_risk lib sig data ;;
      batch_evaluate_from lib (dict_set acc (symbol sig) risk) rest indicator_data
  end.

Definition batch_evaluate (lib : TaLib) (signals : list TradeSignal)
    (indicator_data : dict (list Row)) : result (dict RiskProfile) :=
  batch_evaluate_from lib [] signals indicator_data.

(* ================================================================== *)
(** ** probability_engine.py *)

Definition risk_component_of (level : RiskLevel) : float :=
  match level with
  | LOW => Fin 0.85
  | MEDIUM => Fin 0.65
  | HIGH => Fin 0.45
  end.

Definition estimate_probability (sig : TradeSignal) (risk : RiskProfile)
    : ProbabilityEstimate :=
  let signal_component := py_min (signal_score sig / Fin 100) (Fin 1) in
  let risk_component := risk_component_of (risk_level risk) in
  let stability_component := trend_stability risk in
  let score :=
    signal_component * Fin 0.55 + risk_component * Fin 0.30
    + stability_component * Fin 0.15 in
  let probability := py_round (score * Fin 100) 2 in
  let note :=
    if probability >=? Fin 70 then "Strong trend continuation"%string
    else if probability >=? Fin 55 then "Moderate edge with controlled risk"%string
    else "Weak setup; position sizing caution"%string in
  {| probability := probability; confidence_note := note |}.

(* ================================================================== *)
(** ** report_generator.py *)

Record ReportRow : Type := mkReportRow {
  stock_name : string;
  row_signal : Signal;
  row_current_price : float;
  row_entry_zone : float * float;
  row_target_price : float;
  row_stop_loss : float;
  row_risk_level : RiskLevel;
  row_probability : float;
  row_reason : Reason * string
}.

(** The loop of [build_report_dataframe]. *)
Fixpoint report_rows (signals : list TradeSignal) (risks : dict RiskProfile)
    (probabilities : dict ProbabilityEstimate) : result (list ReportRow) :=
  match signals with
  | [] => Ok []
  | sig :: rest =>
      risk <- dict_item risks (symbol sig) ;;
      prob <- dict_item probabilities (symbol sig) ;;
      rows <- report_rows rest risks probabilities ;;
      Ok ({| stock_name := symbol sig;
             row_signal := signal sig;
             row_current_price := py_round (current_price sig) 2;
             row_entry_zone := entry_zone sig;
             row_target_price := target_price sig;
             row_stop_loss := risk_stop_loss risk;
             row_risk_level := risk_level risk;
             row_probability := probability prob;
             row_reason := (reason sig, confidence_note prob) |} :: rows)
  end.

Definition signal_ltb (a b : Signal) : bool :=
  match a, b with
  | BUY, SELL => true
  | _, _ => false
  end.

Definition signal_eqb (a b : Signal) : bool :=
  match a, b with
  | BUY, BUY | SELL, SELL => true
  | _, _ => false
  end.

(** Descending order with NaN last, as [sort_values(ascending=False)]
    places them. *)
Definition desc_before (x y : float) : bool :=
  (x >? y) || (negb (is_nan x) && is_nan y).

(** [sort_values(by=[Signal, Probability], ascending=[True, False])]. *)
Definition report_before (a b : ReportRow) : bool :=
  signal_ltb (row_signal a) (row_signal b)
  || (signal_eqb (row_signal a) (row_signal b)
      && desc_before (row_probability a) (row_probability b)).

Definition build_report_dataframe (signals : list TradeSignal)
    (risks : dict RiskProfile) (probabilities : dict ProbabilityEstimate)
    : result (list ReportRow) :=
  df <- report_rows signals risks probabilities ;;
  Ok (match df with
      | [] => df
      | _ => stable_sort report_before df
      end).

(** What [print_console_report] prints under its banner. *)
Inductive ConsoleReport : Type :=
| NoActionableSignals
| ReportTable (rows : list ReportRow).

Definition print_console_report (report_df : list ReportRow) : ConsoleReport :=
  match report_df with
  | [] => NoActionableSignals
  | _ => ReportTable report_df
  end.

(* ================================================================== *)
(** ** data_fetcher.py *)

Open Scope string_scope.

Definition DEFAULT_NSE_SYMBOLS : list string :=
  [ "RELIANCE.NS"; "TCS.NS"; "HDFCBANK.NS"; "INFY.NS"; "ICICIBANK.NS";
    "HINDUNILVR.NS"; "SBIN.NS"; "BHARTIARTL.NS"; "ITC.NS"; "LT.NS";
    "KOTAKBANK.NS"; "HCLTECH.NS"; "ASIANPAINT.NS"; "AXISBANK.NS"; "MARUTI.NS";
    "BAJFINANCE.NS"; "SUNPHARMA.NS"; "TATAMOTORS.NS"; "NTPC.NS"; "POWERGRID.NS" ].

Close Scope string_scope.

(** The outside world of one run: what the Wikipedia scrape returned
    ([_load_sensex_constituents] turns any failure into the empty list) and
    what Yahoo Finance returns for a symbol and a period. *)
Record Env : Type := mkEnv {
  _load_sensex_constituents : list string;
  yf_download : string -> string -> result (list Bar)
}.

Record MarketRow : Type := mkMarketRow {
  mSymbol : string;
  mCurrentPrice : float;
  mPrevClose : float;
  mPctChange : float;
  mVolume : float;
  mHigh : float;
  mLow : float;
  mOpen : float
}.

(** The price history and the market table; the gainers, losers and volume
    leaders cut from the table are not read by the analysis run and are
    left out. *)
Record MarketSnapshot : Type := mkSnapshot {
  price_history : dict (list Bar);
  market_table : list MarketRow
}.

Definition _fetch_symbol_history (env : Env) (sym period : string)
    : result (list Bar) :=
  df <- yf_download env sym period ;;
  match df with
  | [] => Raise (ValueError "No data returned")
  | _ => Ok df
  end.

(** The body of the [try] block of [collect_market_data] for one symbol. *)
Definition collect_symbol (env : Env) (period : string)
    (st : dict (list Bar) * list MarketRow) (sym : string)
    : result (dict (list Bar) * list MarketRow) :=
  let '(history, rows) := st in
  hist <- _fetch_symbol_history env sym period ;;
  let hist :=
    filter (fun b => negb (is_nan (bClose b) || is_nan (bVolume b))) hist in
  if (List.length hist <? 60)%nat then Ok st
  else
    latest <- iloc_back hist 1 ;;
    prev <- iloc_back hist 2 ;;
    let pct_change := (bClose latest - bClose prev) / bClose prev * Fin 100 in
    let row :=
      {| mSymbol := sym;
         mCurrentPrice := bClose latest;
         mPrevClose := bClose prev;
         mPctChange := pct_change;
         mVolume := bVolume latest;
         mHigh := bHigh latest;
         mLow := bLow latest;
         mOpen := bOpen latest |} in
    Ok (dict_set history sym hist, (rows ++ [row])%list).

Definition collect_step (env : Env) (period : string)
    (st : dict (list Bar) * list MarketRow) (sym : string)
    : dict (list Bar) * list MarketRow :=
  match collect_symbol env period st sym with
  | Ok st' => st'
  | Raise _ => st
  end.

Definition collect_market_data (env : Env) (period : string)
    : result MarketSnapshot :=
  let universe :=
    sorted_set (_load_sensex_constituents env ++ DEFAULT_NSE_SYMBOLS)%list in
  match universe with
  | [] => Raise (RuntimeError "No symbols available for analysis")
  | _ =>
      let '(history, rows) := fold_left (collect_step env period) universe ([], []) in
      (* [pd.DataFrame(rows).sort_values("PctChange")]: a frame built from no
         row has no such column. *)
      market <- match rows with
                | [] => Raise (KeyError "PctChange")
                | _ => Ok (stable_sort
                             (fun a b => desc_before (mPctChange a) (mPctChange b))
                             rows)
                end ;;
      match market with
      | [] => Raise (RuntimeError "Market data collection failed for all symbols")
      | _ => Ok {| price_history := history; market_table := market |}
      end
  end.

(* ================================================================== *)
(** ** main.py *)

(** The dict comprehension that builds [probabilities]. *)
Fixpoint probabilities_from (acc : dict ProbabilityEstimate)
    (signals : list TradeSignal) (risks : dict RiskProfile)
    : result (dict ProbabilityEstimate) :=
  match signals with
  | [] => Ok acc
  | sig :: rest =>
      risk <- dict_item risks (symbol sig) ;;
      probabilities_from
        (dict_set acc (symbol sig) (estimate_probability sig risk)) rest risks
  end.

(** What a run that returns has produced: the path it returns, the report
    written there and the console output. *)
Record RunOutcome : Type := mkOutcome {
  report_path : string;
  report_df : list ReportRow;
  console : ConsoleReport
}.

(** Signals, risks, probabilities and report from the enriched tables:
    lines 36 to 41 of [run_daily_analysis]. *)
Definition analyse (lib : TaLib) (indicator_data : dict (list Row))
    : result RunOutcome :=
  let signals := generate_signals indicator_data 10 in
  risks <- batch_evaluate lib signals indicator_data ;;
  probabilities <- probabilities_from [] signals risks ;;
  report <- build_report_dataframe signals risks probabilities ;;
  Ok {| report_path := "output/sensex_daily_trade_report.xlsx";
        report_df := report;
        console := print_console_report report |}.

(** [run_daily_analysis()] with its defaults (no e-mail), from line 33 to
    the console report of line 41.  The Excel write of lines 43 and 44
    ([save_excel_report]: a directory and a file on disk) is an effect
    outside this model, and so are its exceptions: [Ok outcome] says what
    the run has computed and printed when it reaches line 43. *)
Definition run_daily_analysis (lib : TaLib) (env : Env) : result RunOutcome :=
  snapshot <- collect_market_data env "1y" ;;
  let indicator_data := enrich_with_indicators lib (price_history snapshot) in
  analyse lib indicator_data.

(* ================================================================== *)
(** ** The specification's vocabulary *)

(** [w·[b]]: the weight [w] when the condition holds, else nothing. *)
Definition iverson (b : bool) (w : Q) : Q := if b then w else 0%Q.

(** [clamp(x, lo, hi)]. *)
Definition clamp (x lo hi : float) : float :=
  if x <? lo then lo else if hi <? x then hi else x.

(** The specification's BUY score. *)
Definition buy_score_spec (row : Row) : float :=
  Fin (iverson (SMA20 row >? SMA50 row) 20
       + iverson (SMA50 row >? SMA200 row) 15
       + iverson ((Fin 40 <=? RSI14 row) && (RSI14 row <=? Fin 70)) 20
       + iverson (MACD row >? MACDSignal row) 20
       + iverson (VolumeRatio row >? Fin 1.2) 15)
  + clamp (Ret5D row * Fin 100) (Fin 0) (Fin 10).

(* ================================================================== *)
(** ** Sample data *)

(** A row that meets every BUY condition: SMA20 > SMA50 > SMA200, RSI 55,
    MACD above its signal line, volume ratio 1.5, five-day return 0.2. *)
Definition all_buy_row : Row :=
  {| Open := Fin 100; High := Fin 102; Low := Fin 99; Close := Fin 101;
     Volume := Fin 1500;
     RSI14 := Fin 55; SMA20 := Fin 100; SMA50 := Fin 95; SMA200 := Fin 90;
     EMA20 := Fin 100; VWAP := Fin 100;
     MACD := Fin 2; MACDSignal := Fin 1; MACDHist := Fin 1;
     Ret1D := Fin 0.01; Ret5D := Fin 0.2;
     VolumeAvg20 := Fin 1000; VolumeRatio := Fin 1.5 |}.

(** A row scoring exactly 55 on the BUY side (20 + 15 + 20), and one
    scoring 54.99 (20 + 15 + 15 + 4.99). *)
Definition row_55 : Row :=
  {| Open := Fin 100; High := Fin 102; Low := Fin 99; Close := Fin 100;
     Volume := Fin 1000;
     RSI14 := Fin 55; SMA20 := Fin 100; SMA50 := Fin 95; SMA200 := Fin 90;
     EMA20 := Fin 100; VWAP := Fin 100;
     MACD := Fin 1; MACDSignal := Fin 1; MACDHist := Fin 0;
     Ret1D := Fin 0; Ret5D := Fin 0;
     VolumeAvg20 := Fin 1000; VolumeRatio := Fin 1 |}.

Definition row_54_99 : Row :=
  {| Open := Fin 100; High := Fin 102; Low := Fin 99; Close := Fin 100;
     Volume := Fin 1500;
     RSI14 := Fin 72; SMA20 := Fin 100; SMA50 := Fin 95; SMA200 := Fin 90;
     EMA20 := Fin 100; VWAP := Fin 100;
     MACD := Fin 1; MACDSignal := Fin 1; MACDHist := Fin 0;
     Ret1D := Fin 0.01; Ret5D := Fin 0.0499;
     VolumeAvg20 := Fin 1000; VolumeRatio := Fin 1.5 |}.

Definition threshold_data : dict (list Row) :=
  [("AT55"%string, [all_buy_row; row_55]);
   ("BELOW"%string, [all_buy_row; row_54_99])].

(** [df.iloc[-1]] of a table that is not empty. *)
Definition latest_of (df : list Row) : option Row :=
  match df with
  | [] => None
  | r :: rs => Some (last rs r)
  end.

(** What one symbol contributes to [buys] and to [sells]. *)
Definition emitted_buy (item : string * list Row) : list TradeSignal :=
  match latest_of (snd item) with
  | None => []
  | Some latest =>
      if _buy_score latest >=? Fin 55
      then [buy_signal (fst item) latest (Close latest) (_buy_score latest)]
      else []
  end.

Definition emitted_sell (item : string * list Row) : list TradeSignal :=
  match latest_of (snd item) with
  | None => []
  | Some latest =>
      if _sell_score latest >=? Fin 55
      then [sell_signal (fst item) latest (Close latest) (_sell_score latest)]
      else []
  end.

(** [out] is the ranking of the candidates [cands] under the cap [top_n]:
    the first [top_n] entries of a rearrangement of [cands] that is in
    descending score order and keeps candidates of equal score in the
    order they have in [cands]; what is cut off scores no higher than what
    is kept. *)
Definition ranked (cands : list TradeSignal) (top_n : Z) (out : list TradeSignal)
    : Prop :=
  exists full,
    Permutation full cands
    /\ StronglySorted (fun a b => (signal_score a >=? signal_score b) = true) full
    /\ (forall v, filter (fun s => feqb (signal_score s) v) full
                  = filter (fun s => feqb (signal_score s) v) cands)
    /\ out = firstn (Z.to_nat top_n) full
    /\ (forall kept cut, In kept out -> In cut (skipn (Z.to_nat top_n) full) ->
        (signal_score kept >=? signal_score cut) = true).

(** Whether a symbol's table qualifies it for a BUY, for a SELL. *)
Definition qualifies_buy (item : string * list Row) : bool :=
  match latest_of (snd item) with
  | None => false
  | Some latest => _buy_score latest >=? Fin 55
  end.

Definition qualifies_sell (item : string * list Row) : bool :=
  match latest_of (snd item) with
  | None => false
  | Some latest => _sell_score latest >=? Fin 55
  end.

(** Five rows that qualify on the BUY side with scores 55, 75, 75, 90, 70. *)
Definition buy_row (macd vol_ratio ret5d : Q) : Row :=
  {| Open := Fin 100; High := Fin 102; Low := Fin 99; Close := Fin 100;
     Volume := Fin 1000;
     RSI14 := Fin 55; SMA20 := Fin 100; SMA50 := Fin 95; SMA200 := Fin 90;
     EMA20 := Fin 100; VWAP := Fin 100;
     MACD := Fin macd; MACDSignal := Fin 1; MACDHist := Fin (macd - 1);
     Ret1D := Fin 0.01; Ret5D := Fin ret5d;
     VolumeAvg20 := Fin 1000; VolumeRatio := Fin vol_ratio |}.

Definition five_buys : dict (list Row) :=
  [("S1"%string, [buy_row 1 1 0]);
   ("S2"%string, [buy_row 2 1 0]);
   ("S3"%string, [buy_row 2 1 0]);
   ("S4"%string, [buy_row 2 1.5 0]);
   ("S5"%string, [buy_row 1 1.5 0])].

(** Two BUY signals (scores 100 and 55) and a LOW-risk profile. *)
Definition strong_signal : TradeSignal :=
  buy_signal "STRONG" all_buy_row (Close all_buy_row) (_buy_score all_buy_row).

Definition marginal_signal : TradeSignal :=
  buy_signal "MARGINAL" row_55 (Close row_55) (_buy_score row_55).

Definition calm_risk (stop : float) : RiskProfile :=
  {| volatility_score := Fin 0.12;
     drawdown_risk := Fin 0.05;
     trend_stability := Fin 0.9;
     risk_stop_loss := stop;
     risk_level := LOW |}.

(** The volatility [evaluate_risk] computes (lines 33 and 34). *)
Definition volatility_of (lib : TaLib) (data : list Row) : float :=
  let returns := series_dropna (pct_change 1 (map Close data)) in
  series_std (np_sqrt lib) returns * fsqrt (np_sqrt lib) (Fin 252).

(** The trend strength as the specification words it, read by position:
    [last] is the position of the last row, and the row divided by is the
    one at position [last - 30]; there is no value when the table has no
    row there. *)
Definition at_position (s : Series) (i : Z) : option float :=
  if (i <? 0)%Z then None else nth_error s (Z.to_nat i).

Definition trend_strength_as_worded (close : Series) : option float :=
  let last := (Z.of_nat (List.length close) - 1)%Z in
  if (30 <=? List.length close)%nat
  then
    match at_position close last, at_position close (last - 30) with
    | Some c_last, Some c_back => Some (py_abs (c_last / c_back - Fin 1))
    | _, _ => None
    end
  else Some (Fin 0).

(** Closing prices of a table of 31 rows: 100, then 200 twenty-nine times,
    then 300; and of a table of 30 rows at 100. *)
Definition closes_31 : Series :=
  (Fin 100 :: repeat (Fin 200) 29 ++ [Fin 300])%list.

Definition closes_30 : Series := repeat (Fin 100) 30.

(** What one symbol contributes to the enriched mapping, and to the log. *)
Definition enriched_entry (lib : TaLib) (item : string * list Bar)
    : dict (list Row) :=
  match enrich_symbol lib (snd item) with
  | Ok data => [(fst item, data)]
  | Raise _ => []
  end.

Definition enrich_warning (lib : TaLib) (item : string * list Bar)
    : list (string * exn) :=
  match enrich_symbol lib (snd item) with
  | Ok _ => []
  | Raise exc => [(fst item, exc)]
  end.

(** The mapping without one symbol. *)
Definition without {V : Type} (sym : string) (d : dict V) : dict V :=
  filter (fun item => negb (String.eqb (fst item) sym)) d.

(** A stand-in for the third-party functions, to run the model on
    examples.  A moving average is the rolling mean of its window (NaN
    during warm-up); the RSI is 50 once warmed up; the MACD line is the
    difference of two rolling means, its signal the rolling mean of the
    line.  Each indicator raises on a series with no value, which stands
    for any failure of the library.  The square root is the exact one cut
    off after four decimals. *)
Definition warmed_up (w : nat) (s : Series) (v : float) : Series :=
  map (fun i => if (w <=? i + 1)%nat then v else NaN) (seq 0 (List.length s)).

Definition or_raise {A : Type} (s : Series) (a : A) : result A :=
  match s with
  | [] => Raise (LibraryError 0)
  | _ => Ok a
  end.

Definition stand_in_lib : TaLib :=
  {| RSIIndicator := fun close w => or_raise close (warmed_up w close (Fin 50));
     SMAIndicator := fun close w => or_raise close (rolling_mean w close);
     EMAIndicator := fun close w => or_raise close (rolling_mean w close);
     MACD_lines := fun close slow fast sign =>
       let line := map2 fsub (rolling_mean fast close) (rolling_mean slow close) in
       let sig := rolling_mean sign line in
       or_raise close
         {| macd_line := line; macd_signal := sig;
            macd_diff := map2 fsub line sig |};
     np_sqrt := fun q =>
       (inject_Z (Z.sqrt (Qfloor (q * 100000000))) / 10000)%Q |}.

(** A history of [n] identical bars. *)
Definition flat_history (n : nat) (price volume : Q) : list Bar :=
  repeat (mkBar (Fin price) (Fin price) (Fin price) (Fin price) (Fin volume)) n.

(** Three symbols: two with 200 flat bars, and one with no bar at all, for
    which the stand-in library raises. *)
Definition three_histories : dict (list Bar) :=
  [("GOOD"%string, flat_history 200 100 1000);
   ("BAD"%string, []);
   ("ALSO"%string, flat_history 200 50 2000)].

(** The universe of a run, and whether a symbol's download is kept: it
    returns, and leaves at least 60 rows once the rows without a close or a
    volume are dropped. *)
Definition universe_of (env : Env) : list string :=
  sorted_set (_load_sensex_constituents env ++ DEFAULT_NSE_SYMBOLS)%list.

Definition usable_history (env : Env) (period sym : string) : bool :=
  match _fetch_symbol_history env sym period with
  | Ok hist =>
      negb (List.length
              (filter (fun b => negb (is_nan (bClose b) || is_nan (bVolume b))) hist)
            <? 60)%nat
  | Raise _ => false
  end.

(** The outcome of a run that has nothing to report. *)
Definition empty_outcome : RunOutcome :=
  {| report_path := "output/sensex_daily_trade_report.xlsx";
     report_df := [];
     console := NoActionableSignals |}.

(** No table of the enriched mapping holds a row: no symbol survives
    enrichment. *)
Definition no_survivor (indicator_data : dict (list Row)) : Prop :=
  forall sym table, In (sym, table) indicator_data -> table = [].

(** Three outside worlds.  In the first every download raises.  In the
    second every symbol has 60 bars at 100 with no volume traded, so the
    VWAP is undefined on every row.  In the third every symbol has 100
    bars, too few for the 200-bar average of the stand-in library. *)
Definition offline_env : Env :=
  {| _load_sensex_constituents := [];
     yf_download := fun _ _ => Raise (RuntimeError "no network") |}.

Definition zero_volume_env : Env :=
  {| _load_sensex_constituents := [];
     yf_download := fun _ _ => Ok (flat_history 60 100 0) |}.

Definition short_history_env : Env :=
  {| _load_sensex_constituents := [];
     yf_download := fun _ _ => Ok (flat_history 100 100 1000) |}.

(** A latest row that qualifies on both sides: BUY 20 + 20 + 15 = 55
    (SMA20 > SMA50, RSI 55, volume ratio 1.5) and SELL 15 + 20 + 15 + 10 = 60
    (SMA50 < SMA200, MACD below its signal, high volume on a down day, a
    five-day return of -10%). *)
Definition dual_row (close : Q) : Row :=
  {| Open := Fin 101; High := Fin 102; Low := Fin 99; Close := Fin close;
     Volume := Fin 1500;
     RSI14 := Fin 55; SMA20 := Fin 100; SMA50 := Fin 95; SMA200 := Fin 98;
     EMA20 := Fin 100; VWAP := Fin 100;
     MACD := Fin 1; MACDSignal := Fin 2; MACDHist := Fin (-1);
     Ret1D := Fin (-0.01); Ret5D := Fin (-0.1);
     VolumeAvg20 := Fin 1000; VolumeRatio := Fin 1.5 |}.

Definition dual_table : list Row := [dual_row 104; dual_row 101; dual_row 100].

Definition dual_data : dict (list Row) := [("DUAL"%string, dual_table)].

Definition dual_buy : TradeSignal :=
  buy_signal "DUAL" (dual_row 100) (Fin 100) (_buy_score (dual_row 100)).

Definition dual_sell : TradeSignal :=
  sell_signal "DUAL" (dual_row 100) (Fin 100) (_sell_score (dual_row 100)).

(** The specification's SELL score. *)
Definition sell_score_spec (row : Row) : float :=
  Fin (iverson (RSI14 row >? Fin 75) 20
       + iverson (SMA20 row <? SMA50 row) 20
       + iverson (SMA50 row <? SMA200 row) 15
       + iverson (MACD row <? MACDSignal row) 20
       + iverson ((VolumeRatio row >? Fin 1.2) && (Ret1D row <? Fin 0)) 15)
  + clamp (py_abs (py_min (Ret5D row * Fin 100) (Fin 0))) (Fin 0) (Fin 10).

(** A row that meets every SELL condition. *)
Definition all_sell_row : Row :=
  {| Open := Fin 100; High := Fin 102; Low := Fin 95; Close := Fin 96;
     Volume := Fin 1500;
     RSI14 := Fin 80; SMA20 := Fin 90; SMA50 := Fin 95; SMA200 := Fin 100;
     EMA20 := Fin 92; VWAP := Fin 97;
     MACD := Fin (-2); MACDSignal := Fin (-1); MACDHist := Fin (-1);
     Ret1D := Fin (-0.04); Ret5D := Fin (-0.12);
     VolumeAvg20 := Fin 1000; VolumeRatio := Fin 1.5 |}.

(* ================================================================== *)
(** ** Vocabulary of the further properties *)

Definition is_buy (s : TradeSignal) : Prop := signal s = BUY.
Definition is_sell (s : TradeSignal) : Prop := signal s = SELL.

(** The price levels of a signal, in the order a long trade (BUY) has them
    from the bottom up: stop-loss, entry band, target. *)
Definition levels_ascending (stop low high target : float) : Prop :=
  (stop <=? low) = true /\ (low <=? high) = true /\ (high <=? target) = true.

(** The row [build_report_dataframe] appends for a signal (lines 28 to 40). *)
Definition report_row (sig : TradeSignal) (risk : RiskProfile)
    (prob : ProbabilityEstimate) : ReportRow :=
  {| stock_name := symbol sig;
     row_signal := signal sig;
     row_current_price := py_round (current_price sig) 2;
     row_entry_zone := entry_zone sig;
     row_target_price := target_price sig;
     row_stop_loss := risk_stop_loss risk;
     row_risk_level := risk_level risk;
     row_probability := probability prob;
     row_reason := (reason sig, confidence_note prob) |}.

(** Whether row [a] may stand before row [b] in the report: never a SELL
    before a BUY, and within a direction never a lower probability before a
    higher one. *)
Definition report_ordered (a b : ReportRow) : Prop :=
  (row_signal a = SELL -> row_signal b = SELL)
  /\ (row_signal a = row_signal b ->
      (row_probability a >=? row_probability b) = true).

(** Three signals out of report order, with one LOW-risk profile and one
    probability per symbol. *)
Definition unsorted_signals : list TradeSignal :=
  [dual_sell; marginal_signal; strong_signal].

Definition sample_risks : dict RiskProfile :=
  [("DUAL"%string, calm_risk (stop_loss dual_sell));
   ("MARGINAL"%string, calm_risk (stop_loss marginal_signal));
   ("STRONG"%string, calm_risk (stop_loss strong_signal))].

Definition sample_probabilities : dict ProbabilityEstimate :=
  map (fun s => (symbol s, estimate_probability s (calm_risk (stop_loss s))))
      unsorted_signals.

(** The drawdown [evaluate_risk] computes (lines 36 to 39) and the blended
    risk (lines 44 to 46). *)
Definition drawdown_of (data : list Row) : float :=
  let returns := series_dropna (pct_change 1 (map Close data)) in
  let cumulative := cumprod (map (fadd (Fin 1)) returns) in
  let peak := cummax cumulative in
  py_abs (series_min (map2 (fun c p => (c - p) / p) cumulative peak)).

Definition blended_risk_of (volatility drawdown_abs trend_stability : float)
    : float :=
  py_min (volatility / Fin 0.6) (Fin 1) * Fin 0.45
  + py_min (drawdown_abs / Fin 0.35) (Fin 1) * Fin 0.45
  + (Fin 1 - trend_stability) * Fin 0.10.

(** [a] is at least as safe a level as [b]. *)
Definition at_least_as_safe (a b : RiskLevel) : bool :=
  match a, b with
  | LOW, _ => true
  | MEDIUM, (MEDIUM | HIGH) => true
  | HIGH, HIGH => true
  | _, _ => false
  end.

(** A profile like [calm_risk] with another level and stability. *)
Definition sample_risk (level : RiskLevel) (stability : Q) : RiskProfile :=
  {| volatility_score := Fin 0.3;
     drawdown_risk := Fin 0.1;
     trend_stability := Fin stability;
     risk_stop_loss := Fin 97;
     risk_level := level |}.

(** What [collect_market_data] keeps of a download: the rows that have a
    close and a volume. *)
Definition usable_rows (raw : list Bar) : list Bar :=
  filter (fun b => negb (is_nan (bClose b) || is_nan (bVolume b))) raw.

(** A history of [n] bars whose price rises by 1 a day from 100, on a
    constant volume; and the outside world in which every symbol has 200
    such bars. *)
Definition rising_history (n : nat) : list Bar :=
  map (fun i =>
         let p := Fin (inject_Z (100 + Z.of_nat i)) in
         mkBar p p p p (Fin 1000))
      (seq 0 n).

Definition rising_env : Env :=
  {| _load_sensex_constituents := [];
     yf_download := fun _ _ => Ok (rising_history 200) |}.

Definition rising_mapping : dict (list Bar) :=
  [("RISING"%string, rising_history 200)].

(** The symbols of the universe whose download is usable, in the order of
    the universe. *)
Definition usable_symbols (env : Env) (period : string) : list string :=
  filter (usable_history env period) (universe_of env).


(* ================================================================== *)
(** ** Binary floats and the two kinds of float

    [_buy_score], [_sell_score] and [estimate_probability] once more, with
    what the first embedding leaves out: the rounding of every operation to
    binary64, and the run-time type of every number.  A value read from a
    pandas row is a [numpy.float64]; a literal such as [0.55] is a Python
    [float]; [20] is an [int].  An operation on two numbers returns NumPy's
    scalar as soon as one operand is one; [min] and [max] return one of
    their arguments as it is, type included; [round] calls the [__round__]
    of the type it is given. *)

Module Binary64.

(** [2^e]. *)
Definition pow2 (e : Z) : Q := Qpower 2 e.

(** The binade of a positive rational: the [e] with [2^e <= q < 2^(e+1)]. *)
Definition ilog2 (q : Q) : Z :=
  let e := (Z.log2 (Qnum q) - Z.log2 (Zpos (Qden q)))%Z in
  if Qle_bool (pow2 e) q then e else (e - 1)%Z.

(** The exponent of the spacing of the binary64 numbers around [q]: 52
    below the binade of [q], and never below -1074. *)
Definition spacing (q : Q) : Z := Z.max (ilog2 (Qabs q) - 52) (-1074).

(** [q] rounded to a multiple of that spacing, ties to the even multiple. *)
Definition to_grid (q : Q) : Q :=
  (inject_Z (round_half_even (q / pow2 (spacing q))) * pow2 (spacing q))%Q.

(** The binary64 number nearest to a rational, ties to even: an infinity
    from [2^1024] on. *)
Definition nearest (q : Q) : float :=
  if Qeq_bool q 0 then Fin 0
  else
    let r := to_grid q in
    if Qle_bool (pow2 1024) (Qabs r)
    then (if Qltb 0 q then PInf else NInf)
    else Fin (Qred r).

(** The result of an operation: its exact value, rounded. *)
Definition rounded (x : float) : float :=
  match x with
  | Fin q => nearest q
  | _ => x
  end.

(** The run-time type of a number. *)
Inductive Kind : Type := PyInt | PyFloat | NpFloat64.

Record Num : Type := mkNum { kind : Kind; val : float }.

(** An integer literal, a float literal, a value read from a pandas row,
    and a Python float held in a dataclass field. *)
Definition int (z : Z) : Num := mkNum PyInt (Fin (inject_Z z)).
Definition literal (q : Q) : Num := mkNum PyFloat (nearest q).
Definition np_float64 (x : float) : Num := mkNum NpFloat64 x.
Definition py_float (x : float) : Num := mkNum PyFloat x.

(** The type of [a op b]: NumPy's scalar wins over Python's float, which
    wins over the integer. *)
Definition result_kind (a b : Kind) : Kind :=
  match a, b with
  | NpFloat64, _ | _, NpFloat64 => NpFloat64
  | PyFloat, _ | _, PyFloat => PyFloat
  | PyInt, PyInt => PyInt
  end.

Definition arith (op : float -> float -> float) (a b : Num) : Num :=
  let k := result_kind (kind a) (kind b) in
  mkNum k (match k with
           | PyInt => op (val a) (val b)
           | _ => rounded (op (val a) (val b))
           end).

Definition add : Num -> Num -> Num := arith fadd.
Definition mul : Num -> Num -> Num := arith fmul.

(** [a / b] for a divisor that is not zero (the source divides by the
    literal 100 only): two integers give a float. *)
Definition true_div (a b : Num) : Num :=
  let k := match result_kind (kind a) (kind b) with
           | PyInt => PyFloat
           | k => k
           end in
  mkNum k (rounded (fdiv (val a) (val b))).

(** [abs(a)] keeps the type. *)
Definition abs (a : Num) : Num := mkNum (kind a) (fabs (val a)).

(** [min(a, b)] and [max(a, b)] return one of their arguments, the first
    unless the second is smaller (greater): the type comes with it. *)
Definition min (a b : Num) : Num := if flt (val b) (val a) then b else a.
Definition max (a b : Num) : Num := if flt (val a) (val b) then b else a.

(** [numpy.rint]: the nearest integer, ties to even. *)
Definition rint (x : float) : float :=
  match x with
  | Fin q => Fin (inject_Z (round_half_even q))
  | _ => x
  end.

(** [round(x, ndigits)] calls the [__round__] of the type of [x].
    Python's float rounds the exact value of [x] half to even at the decimal
    place and returns the float nearest to that decimal.  NumPy's scalar
    multiplies by [10^ndigits], takes [rint], and divides again, each step a
    float operation.  An integer is returned as it is. *)
Definition round (x : Num) (ndigits : nat) : Num :=
  match kind x with
  | PyInt => x
  | PyFloat => mkNum PyFloat (rounded (py_round (val x) ndigits))
  | NpFloat64 =>
      let scale := Fin (inject_Z (10 ^ Z.of_nat ndigits)) in
      mkNum NpFloat64
            (rounded (fdiv (rint (rounded (fmul (val x) scale))) scale))
  end.

Definition gt (a b : Num) : bool := fgt (val a) (val b).
Definition lt (a b : Num) : bool := flt (val a) (val b).
Definition ge (a b : Num) : bool := fge (val a) (val b).
Definition le (a b : Num) : bool := fle (val a) (val b).

(** signal_generator.py, lines 23 to 31. *)
Definition _buy_score (row : Row) : Num :=
  let get := fun column : Row -> float => np_float64 (column row) in
  let score := literal 0 in
  let score := add score (if gt (get SMA20) (get SMA50) then int 20 else int 0) in
  let score := add score (if gt (get SMA50) (get SMA200) then int 15 else int 0) in
  let score := add score (if le (int 40) (get RSI14) && le (get RSI14) (int 70)
                          then int 20 else int 0) in
  let score := add score (if gt (get MACD) (get MACDSignal) then int 20 else int 0) in
  let score := add score (if gt (get VolumeRatio) (literal 1.2)
                          then int 15 else int 0) in
  let score := add score (min (max (mul (get Ret5D) (int 100)) (int 0)) (int 10)) in
  score.

(** signal_generator.py, lines 34 to 42. *)
Definition _sell_score (row : Row) : Num :=
  let get := fun column : Row -> float => np_float64 (column row) in
  let score := literal 0 in
  let score := add score (if gt (get RSI14) (int 75) then int 20 else int 0) in
  let score := add score (if lt (get SMA20) (get SMA50) then int 20 else int 0) in
  let score := add score (if lt (get SMA50) (get SMA200) then int 15 else int 0) in
  let score := add score (if lt (get MACD) (get MACDSignal) then int 20 else int 0) in
  let score := add score (if gt (get VolumeRatio) (literal 1.2)
                             && lt (get Ret1D) (int 0)
                          then int 15 else int 0) in
  let score := add score (min (abs (min (mul (get Ret5D) (int 100)) (int 0)))
                              (int 10)) in
  score.

(** probability_engine.py, lines 17 to 39; of the signal the function
    reads [signal_score] only, a number of either float type; the fields of
    the risk profile are Python floats. *)
Definition estimate_probability (signal_score : Num) (risk : RiskProfile)
    : ProbabilityEstimate :=
  let signal_component := min (true_div signal_score (int 100)) (literal 1) in
  let risk_component :=
    match risk_level risk with
    | LOW => literal 0.85
    | MEDIUM => literal 0.65
    | HIGH => literal 0.45
    end in
  let stability_component := py_float (trend_stability risk) in
  let score :=
    add (add (mul signal_component (literal 0.55))
             (mul risk_component (literal 0.30)))
        (mul stability_component (literal 0.15)) in
  let probability := round (mul score (int 100)) 2 in
  let note :=
    if ge probability (int 70) then "Strong trend continuation"%string
    else if ge probability (int 55) then "Moderate edge with controlled risk"%string
    else "Weak setup; position sizing caution"%string in
  {| probability := val probability; confidence_note := note |}.

End Binary64.



(** [x] and [y] are numbers with [0 <= x <= y <= bound]. *)
Definition ordered_within (bound : Q) (x y : float) : Prop :=
  exists a b,
    x = Fin a /\ y = Fin b /\ (0 <= a)%Q /\ (a <= b)%Q /\ (b <= bound)%Q.

(* ================================================================== *)
(** * Properties *)

(** ** Facts about floats *)

Lemma Qltb_lt (a b : Q) : Qltb a b = true <-> (a < b)%Q.
Proof.
  unfold Qltb. rewrite negb_true_iff.
  destruct (Qle_bool b a) eqn:E.
  - apply Qle_bool_iff in E. split; [discriminate | intro; lra].
  - split; [intros _ | reflexivity].
    destruct (Qlt_le_dec a b) as [H | H]; [exact H |].
    apply Qle_bool_iff in H. congruence.
Qed.

Lemma Qltb_ge (a b : Q) : Qltb a b = false <-> (b <= a)%Q.
Proof.
  unfold Qltb. rewrite negb_false_iff. apply Qle_bool_iff.
Qed.

Lemma Qle_bool_false (a b : Q) : Qle_bool a b = false <-> (b < a)%Q.
Proof.
  rewrite <- Qltb_lt. unfold Qltb. destruct (Qle_bool a b); simpl; intuition congruence.
Qed.

Lemma Qeq_bool_false (a b : Q) : Qeq_bool a b = false <-> ~ (a == b)%Q.
Proof.
  split.
  - intros E H. apply Qeq_bool_iff in H. congruence.
  - intro H. destruct (Qeq_bool a b) eqn:E; [| reflexivity].
    apply Qeq_bool_iff in E. contradiction.
Qed.

(** Turns the boolean comparisons of the context and the goal into
    statements on rationals. *)
Ltac q_bools :=
  repeat match goal with
  | H : Qltb _ _ = true |- _ => apply Qltb_lt in H
  | H : Qltb _ _ = false |- _ => apply Qltb_ge in H
  | H : Qle_bool _ _ = true |- _ => apply Qle_bool_iff in H
  | H : Qle_bool _ _ = false |- _ => apply Qle_bool_false in H
  | H : Qeq_bool _ _ = true |- _ => apply Qeq_bool_iff in H
  | H : Qeq_bool _ _ = false |- _ => apply Qeq_bool_false in H
  | |- Qltb _ _ = true => apply Qltb_lt
  | |- Qltb _ _ = false => apply Qltb_ge
  | |- Qle_bool _ _ = true => apply Qle_bool_iff
  | |- Qle_bool _ _ = false => apply Qle_bool_false
  | |- Qeq_bool _ _ = true => apply Qeq_bool_iff
  end.

Lemma feq_refl (x : float) : feq x x.
Proof. destruct x; simpl; auto. reflexivity. Qed.

Lemma py_clamp (x lo hi : float) :
  flt hi lo = false ->
  py_min (py_max x lo) hi = clamp x lo hi.
Proof.
  intro Hlh. unfold py_min, py_max, clamp.
  destruct (flt x lo) eqn:E1.
  - rewrite Hlh. reflexivity.
  - reflexivity.
Qed.

(** The clamp of something that is not NaN lies between its bounds. *)
Lemma clamp_range (x : float) (lo hi : Q) :
  (lo <= hi)%Q -> is_nan x = false ->
  exists c, clamp x (Fin lo) (Fin hi) = Fin c /\ (lo <= c <= hi)%Q.
Proof.
  intros Hlh Hx. unfold clamp.
  destruct x as [| | | q]; simpl in *; try discriminate.
  - exists lo. split; [reflexivity | lra].
  - exists hi. split; [reflexivity | lra].
  - destruct (Qltb q lo) eqn:E1.
    + exists lo. split; [reflexivity | lra].
    + destruct (Qltb hi q) eqn:E2.
      * exists hi. split; [reflexivity | lra].
      * exists q. q_bools. split; [reflexivity | lra].
Qed.

Lemma fmul_not_nan (x : float) (q : Q) :
  ~ (q == 0)%Q -> is_nan x = false -> is_nan (x * Fin q) = false.
Proof.
  intros Hq Hx. destruct x; simpl in *; try discriminate; try reflexivity.
  - apply Qeq_bool_false in Hq. rewrite Hq. destruct (Qltb q 0); reflexivity.
  - apply Qeq_bool_false in Hq. rewrite Hq. destruct (Qltb 0 q); reflexivity.
Qed.

(* ------------------------------------------------------------------ *)
(** ** The BUY score *)

Lemma row_has_null_ret5d (row : Row) :
  row_has_null row = false -> is_nan (Ret5D row) = false.
Proof.
  unfold row_has_null. intro H.
  destruct (is_nan (Ret5D row)) eqn:E; [| reflexivity].
  assert (X : existsb is_nan (base_columns row ++ derived_columns row) = true).
  { apply existsb_exists. exists (Ret5D row). split; [| exact E].
    apply in_or_app. right. unfold derived_columns. simpl. tauto. }
  congruence.
Qed.

Lemma buy_score_unfold (row : Row) :
  _buy_score row =
  Fin 0
  + (if SMA20 row >? SMA50 row then Fin 20 else Fin 0)
  + (if SMA50 row >? SMA200 row then Fin 15 else Fin 0)
  + (if (Fin 40 <=? RSI14 row) && (RSI14 row <=? Fin 70) then Fin 20 else Fin 0)
  + (if MACD row >? MACDSignal row then Fin 20 else Fin 0)
  + (if VolumeRatio row >? Fin 1.2 then Fin 15 else Fin 0)
  + clamp (Ret5D row * Fin 100) (Fin 0) (Fin 10).
Proof.
  unfold _buy_score. rewrite py_clamp by reflexivity. reflexivity.
Qed.

(** C1. For every enriched row (no null column) the BUY score is the
    additive sum 20·[SMA20>SMA50] + 15·[SMA50>SMA200] + 20·[40<=RSI14<=70]
    + 20·[MACD>MACDSignal] + 15·[VolumeRatio>1.2] + clamp(Ret5D·100, 0, 10);
    it is a finite number between 0 and 100; and a row with
    SMA20>SMA50>SMA200, RSI14 = 55, MACD>MACDSignal, VolumeRatio = 1.5 and
    Ret5D = 0.2 scores exactly 100. *)
Theorem buy_score_additive_bounded (row : Row) :
  row_has_null row = false ->
  feq (_buy_score row) (buy_score_spec row)
  /\ (exists q, _buy_score row = Fin q /\ (0 <= q <= 100)%Q)
  /\ ((SMA20 row >? SMA50 row) = true -> (SMA50 row >? SMA200 row) = true ->
      feq (RSI14 row) (Fin 55) -> (MACD row >? MACDSignal row) = true ->
      feq (VolumeRatio row) (Fin 1.5) -> feq (Ret5D row) (Fin 0.2) ->
      feq (_buy_score row) (Fin 100)).
Proof.
  intro Hrow.
  pose proof (row_has_null_ret5d row Hrow) as Hret.
  assert (Hc : exists c, clamp (Ret5D row * Fin 100) (Fin 0) (Fin 10) = Fin c
                         /\ (0 <= c <= 10)%Q).
  { apply clamp_range; [lra |]. apply fmul_not_nan; [| exact Hret].
    intro H. discriminate H. }
  destruct Hc as [c [Hc Hrange]].
  split; [| split].
  - rewrite buy_score_unfold. unfold buy_score_spec. rewrite Hc.
    destruct (SMA20 row >? SMA50 row), (SMA50 row >? SMA200 row),
      ((Fin 40 <=? RSI14 row) && (RSI14 row <=? Fin 70)),
      (MACD row >? MACDSignal row), (VolumeRatio row >? Fin 1.2);
      simpl; unfold iverson; lra.
  - rewrite buy_score_unfold, Hc.
    destruct (SMA20 row >? SMA50 row), (SMA50 row >? SMA200 row),
      ((Fin 40 <=? RSI14 row) && (RSI14 row <=? Fin 70)),
      (MACD row >? MACDSignal row), (VolumeRatio row >? Fin 1.2);
      simpl; eexists; (split; [reflexivity | lra]).
  - intros H1 H2 H3 H4 H5 H6. rewrite buy_score_unfold, H1, H2, H4.
    destruct (RSI14 row) as [| | | rsi]; simpl in H3; try contradiction.
    destruct (VolumeRatio row) as [| | | vr]; simpl in H5; try contradiction.
    destruct (Ret5D row) as [| | | r5]; simpl in H6; try contradiction.
    assert (E1 : (Fin 40 <=? Fin rsi) && (Fin rsi <=? Fin 70) = true).
    { apply andb_true_iff. split; simpl; q_bools; lra. }
    assert (E2 : (Fin vr >? Fin 1.2) = true).
    { unfold fgt. simpl. q_bools. lra. }
    rewrite E1, E2. unfold clamp. simpl.
    assert (E3 : Qltb (r5 * 100) 0 = false) by (q_bools; lra).
    assert (E4 : Qltb 10 (r5 * 100) = true) by (q_bools; lra).
    rewrite E3, E4. simpl. lra.
Qed.

(** The row that meets every BUY condition is an enriched row and scores
    100. *)
Lemma buy_score_additive_bounded_witness :
  row_has_null all_buy_row = false
  /\ feq (_buy_score all_buy_row) (buy_score_spec all_buy_row)
  /\ (exists q, _buy_score all_buy_row = Fin q /\ (0 <= q <= 100)%Q)
  /\ feq (_buy_score all_buy_row) (Fin 100).
Proof.
  assert (H : row_has_null all_buy_row = false) by reflexivity.
  destruct (buy_score_additive_bounded all_buy_row H) as [H1 [H2 H3]].
  split; [exact H | split; [exact H1 | split; [exact H2 |]]].
  apply H3; vm_compute; reflexivity.
Defined.

(* ------------------------------------------------------------------ *)
(** ** Order facts on floats *)

Lemma fle_not_nan (x y : float) :
  (x <=? y) = true -> is_nan x = false /\ is_nan y = false.
Proof. destruct x, y; simpl; intro H; try discriminate; auto. Qed.

Lemma flt_not_nan (x y : float) :
  (x <? y) = true -> is_nan x = false /\ is_nan y = false.
Proof. destruct x, y; simpl; intro H; try discriminate; auto. Qed.

Lemma flt_false_fle (x y : float) :
  is_nan x = false -> is_nan y = false ->
  (x <? y) = false -> (y <=? x) = true.
Proof.
  destruct x, y; simpl; intros Hx Hy H; try discriminate; auto.
  q_bools. exact H.
Qed.

Lemma fle_flt_false (x y : float) : (y <=? x) = true -> (x <? y) = false.
Proof.
  destruct x, y; simpl; intro H; try discriminate; auto.
  q_bools. exact H.
Qed.

Lemma flt_fle (x y : float) : (x <? y) = true -> (x <=? y) = true.
Proof.
  destruct x, y; simpl; intro H; try discriminate; auto.
  q_bools. lra.
Qed.

Lemma fle_trans (x y z : float) :
  (x <=? y) = true -> (y <=? z) = true -> (x <=? z) = true.
Proof.
  destruct x, y, z; simpl; intros H1 H2; try discriminate; auto.
  q_bools. lra.
Qed.

Lemma fle_refl (x : float) : is_nan x = false -> (x <=? x) = true.
Proof. destruct x; simpl; intro H; try discriminate; auto. q_bools. lra. Qed.

Lemma feqb_not_flt (x y v : float) :
  feqb x v = true -> feqb y v = true -> (x <? y) = false.
Proof.
  destruct x, y, v; simpl; intros H1 H2; try discriminate; auto.
  q_bools. lra.
Qed.

(* ------------------------------------------------------------------ *)
(** ** Risk levels *)

(** C5. The risk level is LOW exactly when the blended score is below
    0.33, MEDIUM exactly when it is at least 0.33 and below 0.66, and HIGH
    otherwise; 0.33 itself maps to MEDIUM and 0.66 itself to HIGH. *)
Theorem risk_level_bins (score : float) :
  (_risk_level score = LOW <-> (score <? Fin 0.33) = true)
  /\ (_risk_level score = MEDIUM
      <-> (score >=? Fin 0.33) = true /\ (score <? Fin 0.66) = true)
  /\ (_risk_level score = HIGH
      <-> (score <? Fin 0.33) = false
          /\ ~ ((score >=? Fin 0.33) = true /\ (score <? Fin 0.66) = true))
  /\ _risk_level (Fin 0.33) = MEDIUM
  /\ _risk_level (Fin 0.66) = HIGH.
Proof.
  assert (Hmid : (score <? Fin 0.33) = false /\ (score <? Fin 0.66) = true
                 <-> (score >=? Fin 0.33) = true /\ (score <? Fin 0.66) = true).
  { unfold fge. destruct score as [| | | q]; simpl; try (intuition discriminate).
    split; intros [H1 H2]; split; try exact H2; q_bools; lra. }
  unfold _risk_level.
  destruct (score <? Fin 0.33) eqn:E1; [| destruct (score <? Fin 0.66) eqn:E2].
  all: repeat split; try discriminate; try reflexivity; try tauto.
  all: try (intros [H _]; unfold fge in H; apply fle_flt_false in H; congruence).
  all: try (intros [H _]; discriminate H).
  all: try (intros [_ H]; discriminate H).
  all: try (intros [_ H]; exfalso; apply H; tauto).
  all: try (intros [_ X]; discriminate X).
Qed.

(* ------------------------------------------------------------------ *)
(** ** Dicts *)

Lemma nodup_keys_unique {V : Type} (d : dict V) (k : string) (v v' : V) :
  NoDup (keys d) -> In (k, v) d -> In (k, v') d -> v = v'.
Proof.
  unfold keys. induction d as [| [k0 v0] d IH]; simpl; intros Hnd H1 H2.
  - contradiction.
  - inversion Hnd as [| ? ? Hnotin Hnd']; subst.
    destruct H1 as [H1 | H1], H2 as [H2 | H2].
    + congruence.
    + inversion H1; subst. exfalso. apply Hnotin.
      apply in_map_iff. exists (k, v'). auto.
    + inversion H2; subst. exfalso. apply Hnotin.
      apply in_map_iff. exists (k, v). auto.
    + apply IH; assumption.
Qed.

(* ------------------------------------------------------------------ *)
(** ** The candidates of the signal generator *)

Lemma signals_step_emitted (buys sells : list TradeSignal) (item : string * list Row) :
  signals_step (buys, sells) item =
  ((buys ++ emitted_buy item)%list, (sells ++ emitted_sell item)%list).
Proof.
  destruct item as [sym df]. unfold signals_step, emitted_buy, emitted_sell.
  destruct df as [| r rs]; cbn [latest_of snd fst].
  - rewrite !app_nil_r. reflexivity.
  - destruct (_buy_score (last rs r) >=? Fin 55),
             (_sell_score (last rs r) >=? Fin 55);
      rewrite ?app_nil_r; reflexivity.
Qed.

Lemma candidates_fold (data : dict (list Row)) (buys sells : list TradeSignal) :
  fold_left signals_step data (buys, sells) =
  ((buys ++ flat_map emitted_buy data)%list,
   (sells ++ flat_map emitted_sell data)%list).
Proof.
  revert buys sells.
  induction data as [| item data IH]; intros buys sells; cbn [fold_left flat_map].
  - rewrite !app_nil_r. reflexivity.
  - rewrite signals_step_emitted, IH, <- !app_assoc. reflexivity.
Qed.

Lemma candidates_emitted (data : dict (list Row)) :
  candidates data = (flat_map emitted_buy data, flat_map emitted_sell data).
Proof. unfold candidates. rewrite candidates_fold. reflexivity. Qed.

Lemma emitted_buy_inv (item : string * list Row) (s : TradeSignal) :
  In s (emitted_buy item) ->
  exists latest,
    latest_of (snd item) = Some latest
    /\ (_buy_score latest >=? Fin 55) = true
    /\ s = buy_signal (fst item) latest (Close latest) (_buy_score latest).
Proof.
  unfold emitted_buy. destruct (latest_of (snd item)) as [latest |]; [| contradiction].
  destruct (_buy_score latest >=? Fin 55) eqn:E; [| contradiction].
  intros [H | []]. exists latest. auto.
Qed.

Lemma emitted_sell_inv (item : string * list Row) (s : TradeSignal) :
  In s (emitted_sell item) ->
  exists latest,
    latest_of (snd item) = Some latest
    /\ (_sell_score latest >=? Fin 55) = true
    /\ s = sell_signal (fst item) latest (Close latest) (_sell_score latest).
Proof.
  unfold emitted_sell. destruct (latest_of (snd item)) as [latest |]; [| contradiction].
  destruct (_sell_score latest >=? Fin 55) eqn:E; [| contradiction].
  intros [H | []]. exists latest. auto.
Qed.

(** Every candidate meets the threshold of its direction. *)
Lemma candidates_threshold (data : dict (list Row)) (s : TradeSignal) :
  In s (fst (candidates data)) \/ In s (snd (candidates data)) ->
  (signal_score s >=? Fin 55) = true.
Proof.
  rewrite candidates_emitted. simpl. intros [H | H];
    apply in_flat_map in H; destruct H as [item [_ H]].
  - apply emitted_buy_inv in H. destruct H as [latest [_ [H ->]]]. exact H.
  - apply emitted_sell_inv in H. destruct H as [latest [_ [H ->]]]. exact H.
Qed.

(* ------------------------------------------------------------------ *)
(** ** The stable sort *)

Section StableSort.

Context {A : Type}.
Variable before : A -> A -> bool.

Lemma insert_by_perm (x : A) (l : list A) :
  Permutation (insert_by before x l) (x :: l).
Proof.
  induction l as [| y l IH]; simpl.
  - apply Permutation_refl.
  - destruct (before y x).
    + apply Permutation_trans with (y :: x :: l).
      * apply perm_skip. exact IH.
      * apply perm_swap.
    + apply Permutation_refl.
Qed.

Lemma stable_sort_perm (l : list A) : Permutation (stable_sort before l) l.
Proof.
  unfold stable_sort. induction l as [| x l IH]; simpl.
  - apply perm_nil.
  - apply Permutation_trans with (x :: fold_right (insert_by before) [] l).
    + apply insert_by_perm.
    + apply perm_skip. exact IH.
Qed.

(** Inserting [x] leaves alone the sub-list picked by [p] when nothing of
    that sub-list must come strictly before [x]. *)
Lemma insert_by_filter (p : A -> bool) (x : A) (l : list A) :
  (forall y, In y l -> before y x = true -> p x = true -> p y = false) ->
  filter p (insert_by before x l) = filter p (x :: l).
Proof.
  induction l as [| y l IH]; intro H; simpl.
  - reflexivity.
  - destruct (before y x) eqn:E.
    + simpl. rewrite IH by (intros; apply H; simpl; auto).
      simpl. destruct (p x) eqn:Ex.
      * rewrite (H y) by (simpl; auto). reflexivity.
      * reflexivity.
    + reflexivity.
Qed.

Lemma stable_sort_filter (p : A -> bool) (l : list A) :
  (forall x y, before y x = true -> p x = true -> p y = false) ->
  filter p (stable_sort before l) = filter p l.
Proof.
  intro H. unfold stable_sort. induction l as [| x l IH]; simpl.
  - reflexivity.
  - rewrite insert_by_filter by (intros; eapply H; eauto).
    simpl. rewrite IH. reflexivity.
Qed.

End StableSort.

Section SortedDesc.

Context {A : Type}.
Variable key : A -> float.

Lemma insert_desc_sorted (x : A) (l : list A) :
  is_nan (key x) = false ->
  Forall (fun y => is_nan (key y) = false) l ->
  StronglySorted (fun a b => (key a >=? key b) = true) l ->
  StronglySorted (fun a b => (key a >=? key b) = true)
                 (insert_by (fun a b => key a >? key b) x l).
Proof.
  intros Hx Hl Hs. induction Hs as [| y l Hs IH Hy]; simpl.
  - constructor; constructor.
  - inversion Hl as [| ? ? Hky Hl']; subst.
    destruct (key y >? key x) eqn:E.
    + constructor.
      * apply IH. exact Hl'.
      * apply Forall_forall. intros z Hz.
        apply (Permutation_in _ (insert_by_perm _ x l)) in Hz.
        destruct Hz as [<- | Hz].
        -- unfold fge. apply flt_fle. exact E.
        -- rewrite Forall_forall in Hy. apply Hy. exact Hz.
    + assert (Hxy : (key x >=? key y) = true).
      { unfold fge. apply flt_false_fle; assumption. }
      constructor.
      * constructor; assumption.
      * constructor; [exact Hxy |].
        apply Forall_forall. intros z Hz. rewrite Forall_forall in Hy.
        unfold fge in *. eapply fle_trans; [apply Hy; exact Hz | exact Hxy].
Qed.

Lemma sorted_desc_sorted (l : list A) :
  Forall (fun y => is_nan (key y) = false) l ->
  StronglySorted (fun a b => (key a >=? key b) = true) (sorted_desc key l).
Proof.
  unfold sorted_desc, stable_sort. induction l as [| x l IH]; intro H; simpl.
  - constructor.
  - inversion H as [| ? ? Hx Hl]; subst. apply insert_desc_sorted; auto.
    apply Forall_forall. intros y Hy.
    apply (Permutation_in _ (stable_sort_perm _ l)) in Hy.
    rewrite Forall_forall in Hl. apply Hl. exact Hy.
Qed.

Lemma sorted_desc_stable (l : list A) (v : float) :
  filter (fun a => feqb (key a) v) (sorted_desc key l)
  = filter (fun a => feqb (key a) v) l.
Proof.
  unfold sorted_desc. apply stable_sort_filter.
  intros x y Hyx Hx. destruct (feqb (key y) v) eqn:Hy; [| reflexivity].
  unfold fgt in Hyx. rewrite (feqb_not_flt _ _ v Hx Hy) in Hyx. discriminate.
Qed.

End SortedDesc.

Lemma slice_to_nonneg {A : Type} (l : list A) (n : Z) :
  (0 <= n)%Z -> slice_to l n = firstn (Z.to_nat n) l.
Proof.
  intro H. unfold slice_to. destruct (0 <=? n)%Z eqn:E; [reflexivity |].
  apply Z.leb_gt in E. lia.
Qed.

Lemma In_firstn_In {A : Type} (n : nat) (l : list A) (a : A) :
  In a (firstn n l) -> In a l.
Proof.
  intro H. rewrite <- (firstn_skipn n l). apply in_or_app. left. exact H.
Qed.

Lemma slice_to_In {A : Type} (l : list A) (n : Z) (a : A) :
  In a (slice_to l n) -> In a l.
Proof.
  unfold slice_to. destruct (0 <=? n)%Z; intro H; eapply In_firstn_In; exact H.
Qed.

(* ------------------------------------------------------------------ *)
(** ** The admission threshold *)

Lemma generate_signals_eq (data : dict (list Row)) (top_n : Z) :
  generate_signals data top_n =
  (slice_to (sorted_desc signal_score (fst (candidates data))) top_n
   ++ slice_to (sorted_desc signal_score (snd (candidates data))) top_n)%list.
Proof.
  unfold generate_signals. destruct (candidates data) as [buys sells]. reflexivity.
Qed.

Lemma generate_signals_In (data : dict (list Row)) (top_n : Z) (s : TradeSignal) :
  In s (generate_signals data top_n) ->
  In s (fst (candidates data)) \/ In s (snd (candidates data)).
Proof.
  rewrite generate_signals_eq. intro H. apply in_app_or in H.
  destruct H as [H | H]; [left | right];
    apply slice_to_In in H;
    apply (Permutation_in _ (stable_sort_perm _ _)) in H; exact H.
Qed.

Lemma emitted_buy_at (data : dict (list Row)) (sym : string) (df : list Row)
    (latest : Row) :
  NoDup (keys data) -> In (sym, df) data -> latest_of df = Some latest ->
  forall s, In s (flat_map emitted_buy data) -> symbol s = sym ->
  (_buy_score latest >=? Fin 55) = true
  /\ s = buy_signal sym latest (Close latest) (_buy_score latest).
Proof.
  intros Hnd Hin Hlat s Hs Hsym.
  apply in_flat_map in Hs. destruct Hs as [[sym' df'] [Hitem Hs]].
  apply emitted_buy_inv in Hs. cbn [fst snd] in Hs.
  destruct Hs as [latest' [Hlat' [Hsc ->]]]. cbn [symbol buy_signal] in Hsym. subst sym'.
  assert (df' = df) by (eapply nodup_keys_unique; eauto). subst df'.
  assert (latest' = latest) by congruence. subst latest'. auto.
Qed.

Lemma emitted_sell_at (data : dict (list Row)) (sym : string) (df : list Row)
    (latest : Row) :
  NoDup (keys data) -> In (sym, df) data -> latest_of df = Some latest ->
  forall s, In s (flat_map emitted_sell data) -> symbol s = sym ->
  (_sell_score latest >=? Fin 55) = true
  /\ s = sell_signal sym latest (Close latest) (_sell_score latest).
Proof.
  intros Hnd Hin Hlat s Hs Hsym.
  apply in_flat_map in Hs. destruct Hs as [[sym' df'] [Hitem Hs]].
  apply emitted_sell_inv in Hs. cbn [fst snd] in Hs.
  destruct Hs as [latest' [Hlat' [Hsc ->]]]. cbn [symbol sell_signal] in Hsym. subst sym'.
  assert (df' = df) by (eapply nodup_keys_unique; eauto). subst df'.
  assert (latest' = latest) by congruence. subst latest'. auto.
Qed.


(* ------------------------------------------------------------------ *)
(** ** Ranking and the cap *)

Lemma sorted_prefix_dominates {A : Type} (R : A -> A -> Prop) (l : list A) :
  StronglySorted R l ->
  forall n a b, In a (firstn n l) -> In b (skipn n l) -> R a b.
Proof.
  induction 1 as [| x l Hs IH Hx]; intros n a b Ha Hb.
  - destruct n; simpl in Ha; contradiction.
  - destruct n as [| n]; simpl in Ha, Hb; [contradiction |].
    destruct Ha as [<- | Ha].
    + rewrite Forall_forall in Hx. apply Hx.
      rewrite <- (firstn_skipn n l). apply in_or_app. right. exact Hb.
    + eapply IH; eassumption.
Qed.

Lemma threshold_data_keys : NoDup (keys threshold_data).
Proof.
  unfold keys, threshold_data. simpl.
  repeat constructor; simpl; intuition discriminate.
Qed.

Lemma slice_to_all {A : Type} (l : list A) (n : Z) :
  (Z.of_nat (List.length l) <= n)%Z -> slice_to l n = l.
Proof.
  intro H. rewrite slice_to_nonneg by lia. apply firstn_all2. lia.
Qed.

Lemma sorted_desc_length {A : Type} (key : A -> float) (l : list A) :
  List.length (sorted_desc key l) = List.length l.
Proof. unfold sorted_desc. apply Permutation_length, stable_sort_perm. Qed.

Lemma In_sorted_desc {A : Type} (key : A -> float) (l : list A) (a : A) :
  In a (sorted_desc key l) <-> In a l.
Proof.
  unfold sorted_desc.
  pose proof (stable_sort_perm (fun x y => fgt (key x) (key y)) l) as Hp.
  split; intro H.
  - apply (Permutation_in _ Hp). exact H.
  - apply (Permutation_in _ (Permutation_sym Hp)). exact H.
Qed.

(** What the generator returns for one symbol comes from that symbol's
    latest row. *)
Lemma returned_signal_of_symbol (data : dict (list Row)) (sym : string)
    (df : list Row) (latest : Row) (top_n : Z) (s : TradeSignal) :
  NoDup (keys data) -> In (sym, df) data -> latest_of df = Some latest ->
  In s (generate_signals data top_n) -> symbol s = sym ->
  ((_buy_score latest >=? Fin 55) = true
   /\ s = buy_signal sym latest (Close latest) (_buy_score latest))
  \/ ((_sell_score latest >=? Fin 55) = true
      /\ s = sell_signal sym latest (Close latest) (_sell_score latest)).
Proof.
  intros Hnd Hin Hlat Hs Hsym. apply generate_signals_In in Hs.
  rewrite candidates_emitted in Hs. cbn [fst snd] in Hs. destruct Hs as [Hs | Hs].
  - left. apply (emitted_buy_at data sym df latest Hnd Hin Hlat s Hs Hsym).
  - right. apply (emitted_sell_at data sym df latest Hnd Hin Hlat s Hs Hsym).
Qed.

Lemma qualifying_buy_is_candidate (data : dict (list Row)) (sym : string)
    (df : list Row) (latest : Row) :
  In (sym, df) data -> latest_of df = Some latest ->
  (_buy_score latest >=? Fin 55) = true ->
  In (buy_signal sym latest (Close latest) (_buy_score latest))
     (fst (candidates data)).
Proof.
  intros Hin Hlat Hsc. rewrite candidates_emitted. cbn [fst].
  apply in_flat_map. exists (sym, df). split; [exact Hin |].
  unfold emitted_buy. cbn [fst snd]. rewrite Hlat, Hsc. left. reflexivity.
Qed.

Lemma qualifying_sell_is_candidate (data : dict (list Row)) (sym : string)
    (df : list Row) (latest : Row) :
  In (sym, df) data -> latest_of df = Some latest ->
  (_sell_score latest >=? Fin 55) = true ->
  In (sell_signal sym latest (Close latest) (_sell_score latest))
     (snd (candidates data)).
Proof.
  intros Hin Hlat Hsc. rewrite candidates_emitted. cbn [snd].
  apply in_flat_map. exists (sym, df). split; [exact Hin |].
  unfold emitted_sell. cbn [fst snd]. rewrite Hlat, Hsc. left. reflexivity.
Qed.

(** A candidate is in the first [n] of the ranking, or [n] candidates that
    score at least as high are. *)
Lemma candidate_kept_or_displaced (cands : list TradeSignal) (n : nat)
    (s : TradeSignal) :
  Forall (fun c => (signal_score c >=? Fin 55) = true) cands ->
  In s cands ->
  In s (firstn n (sorted_desc signal_score cands))
  \/ (List.length (firstn n (sorted_desc signal_score cands)) = n
      /\ Forall (fun kept => (signal_score kept >=? signal_score s) = true)
                (firstn n (sorted_desc signal_score cands))).
Proof.
  intros Hc Hs.
  assert (Hsorted : StronglySorted
                      (fun a b => (signal_score a >=? signal_score b) = true)
                      (sorted_desc signal_score cands)).
  { apply sorted_desc_sorted. eapply Forall_impl; [| exact Hc].
    intros c H. unfold fge in H. apply fle_not_nan in H. tauto. }
  apply (In_sorted_desc signal_score) in Hs.
  rewrite <- (firstn_skipn n (sorted_desc signal_score cands)) in Hs.
  apply in_app_or in Hs. destruct Hs as [Hs | Hs]; [left; exact Hs | right].
  split.
  - apply firstn_length_le.
    destruct (Nat.le_gt_cases n (List.length (sorted_desc signal_score cands)))
      as [H | H]; [exact H |].
    rewrite skipn_all2 in Hs by lia. contradiction.
  - apply Forall_forall. intros kept Hk.
    apply (sorted_prefix_dominates _ _ Hsorted n kept s Hk Hs).
Qed.

Lemma buy_candidates_score (data : dict (list Row)) :
  Forall (fun c => (signal_score c >=? Fin 55) = true) (fst (candidates data)).
Proof.
  apply Forall_forall. intros c Hc. apply (candidates_threshold data). left. exact Hc.
Qed.

Lemma sell_candidates_score (data : dict (list Row)) :
  Forall (fun c => (signal_score c >=? Fin 55) = true) (snd (candidates data)).
Proof.
  apply Forall_forall. intros c Hc. apply (candidates_threshold data). right. exact Hc.
Qed.

(** C2. For a symbol of the mapping whose enriched table is not empty, a
    signal of a direction is emitted exactly when that direction's score of
    the latest row is at least 55.  Among the candidates the loop collects
    this holds as it stands.  Of what [generate_signals] returns: a signal
    returned for the symbol is the one of its latest row, with a score of at
    least 55; when the cap leaves room (no more candidates of the direction
    than [top_n]) the symbol's signal is returned exactly when the score is
    at least 55; and when the cap does not leave room, a qualifying signal is
    returned unless [top_n] returned signals of its direction score at least
    as high. *)
Theorem signal_emitted_iff_threshold (data : dict (list Row)) (sym : string)
    (df : list Row) (latest : Row) :
  NoDup (keys data) -> In (sym, df) data -> latest_of df = Some latest ->
  ((exists s, In s (fst (candidates data)) /\ symbol s = sym /\ signal s = BUY
              /\ signal_score s = _buy_score latest)
   <-> (_buy_score latest >=? Fin 55) = true)
  /\ ((exists s, In s (snd (candidates data)) /\ symbol s = sym /\ signal s = SELL
                 /\ signal_score s = _sell_score latest)
      <-> (_sell_score latest >=? Fin 55) = true)
  /\ ((_buy_score latest >=? Fin 55) = false ->
      forall s, In s (fst (candidates data)) -> symbol s <> sym)
  /\ ((_sell_score latest >=? Fin 55) = false ->
      forall s, In s (snd (candidates data)) -> symbol s <> sym)
  /\ (forall top_n s, In s (generate_signals data top_n) ->
      (signal_score s >=? Fin 55) = true)
  /\ (forall top_n s,
        In s (generate_signals data top_n) -> symbol s = sym ->
        ((_buy_score latest >=? Fin 55) = true
         /\ s = buy_signal sym latest (Close latest) (_buy_score latest))
        \/ ((_sell_score latest >=? Fin 55) = true
            /\ s = sell_signal sym latest (Close latest) (_sell_score latest)))
  /\ (forall top_n,
        (Z.of_nat (List.length (fst (candidates data))) <= top_n)%Z ->
        (In (buy_signal sym latest (Close latest) (_buy_score latest))
            (generate_signals data top_n)
         <-> (_buy_score latest >=? Fin 55) = true))
  /\ (forall top_n,
        (Z.of_nat (List.length (snd (candidates data))) <= top_n)%Z ->
        (In (sell_signal sym latest (Close latest) (_sell_score latest))
            (generate_signals data top_n)
         <-> (_sell_score latest >=? Fin 55) = true))
  /\ (forall top_n,
        (0 <= top_n)%Z -> (_buy_score latest >=? Fin 55) = true ->
        In (buy_signal sym latest (Close latest) (_buy_score latest))
           (generate_signals data top_n)
        \/ exists kept,
             List.length kept = Z.to_nat top_n
             /\ incl kept (generate_signals data top_n)
             /\ Forall (fun s => signal s = BUY
                                 /\ (signal_score s >=? _buy_score latest) = true)
                       kept)
  /\ (forall top_n,
        (0 <= top_n)%Z -> (_sell_score latest >=? Fin 55) = true ->
        In (sell_signal sym latest (Close latest) (_sell_score latest))
           (generate_signals data top_n)
        \/ exists kept,
             List.length kept = Z.to_nat top_n
             /\ incl kept (generate_signals data top_n)
             /\ Forall (fun s => signal s = SELL
                                 /\ (signal_score s >=? _sell_score latest) = true)
                       kept).
Proof.
  intros Hnd Hin Hlat.
  split; [| split; [| split; [| split; [| split; [| split; [| split;
    [| split; [| split]]]]]]]].
  - split.
    + intros [s [Hs [Hsym _]]]. rewrite candidates_emitted in Hs. cbn [fst] in Hs.
      apply (emitted_buy_at data sym df latest Hnd Hin Hlat s Hs Hsym).
    + intro Hsc. exists (buy_signal sym latest (Close latest) (_buy_score latest)).
      split; [apply (qualifying_buy_is_candidate data sym df); assumption |].
      repeat split.
  - split.
    + intros [s [Hs [Hsym _]]]. rewrite candidates_emitted in Hs. cbn [snd] in Hs.
      apply (emitted_sell_at data sym df latest Hnd Hin Hlat s Hs Hsym).
    + intro Hsc. exists (sell_signal sym latest (Close latest) (_sell_score latest)).
      split; [apply (qualifying_sell_is_candidate data sym df); assumption |].
      repeat split.
  - intros Hsc s Hs Hsym. rewrite candidates_emitted in Hs. cbn [fst] in Hs.
    destruct (emitted_buy_at data sym df latest Hnd Hin Hlat s Hs Hsym) as [H _].
    congruence.
  - intros Hsc s Hs Hsym. rewrite candidates_emitted in Hs. cbn [snd] in Hs.
    destruct (emitted_sell_at data sym df latest Hnd Hin Hlat s Hs Hsym) as [H _].
    congruence.
  - intros top_n s Hs. apply (candidates_threshold data).
    apply generate_signals_In in Hs. exact Hs.
  - intros top_n s Hs Hsym.
    apply (returned_signal_of_symbol data sym df latest top_n s); assumption.
  - intros top_n Hroom. split.
    + intro Hs.
      destruct (returned_signal_of_symbol data sym df latest top_n _ Hnd Hin Hlat
                  Hs eq_refl) as [[H _] | [_ H]]; [exact H | discriminate H].
    + intro Hsc. rewrite generate_signals_eq. apply in_or_app. left.
      rewrite slice_to_all by (rewrite sorted_desc_length; exact Hroom).
      apply In_sorted_desc.
      apply (qualifying_buy_is_candidate data sym df); assumption.
  - intros top_n Hroom. split.
    + intro Hs.
      destruct (returned_signal_of_symbol data sym df latest top_n _ Hnd Hin Hlat
                  Hs eq_refl) as [[_ H] | [H _]]; [discriminate H | exact H].
    + intro Hsc. rewrite generate_signals_eq. apply in_or_app. right.
      rewrite slice_to_all by (rewrite sorted_desc_length; exact Hroom).
      apply In_sorted_desc.
      apply (qualifying_sell_is_candidate data sym df); assumption.
  - intros top_n Hn Hsc. rewrite generate_signals_eq, !slice_to_nonneg by exact Hn.
    destruct (candidate_kept_or_displaced (fst (candidates data)) (Z.to_nat top_n)
                (buy_signal sym latest (Close latest) (_buy_score latest))
                (buy_candidates_score data)
                (qualifying_buy_is_candidate data sym df latest Hin Hlat Hsc))
      as [H | [Hlen Hall]].
    + left. apply in_or_app. left. exact H.
    + right. eexists. split; [exact Hlen |]. split.
      * intros x Hx. apply in_or_app. left. exact Hx.
      * apply Forall_forall. intros x Hx. split.
        -- apply In_firstn_In, In_sorted_desc in Hx.
           rewrite candidates_emitted in Hx. cbn [fst] in Hx.
           apply in_flat_map in Hx. destruct Hx as [item [_ Hx]].
           apply emitted_buy_inv in Hx. destruct Hx as [l [_ [_ ->]]]. reflexivity.
        -- rewrite Forall_forall in Hall. exact (Hall x Hx).
  - intros top_n Hn Hsc. rewrite generate_signals_eq, !slice_to_nonneg by exact Hn.
    destruct (candidate_kept_or_displaced (snd (candidates data)) (Z.to_nat top_n)
                (sell_signal sym latest (Close latest) (_sell_score latest))
                (sell_candidates_score data)
                (qualifying_sell_is_candidate data sym df latest Hin Hlat Hsc))
      as [H | [Hlen Hall]].
    + left. apply in_or_app. right. exact H.
    + right. eexists. split; [exact Hlen |]. split.
      * intros x Hx. apply in_or_app. right. exact Hx.
      * apply Forall_forall. intros x Hx. split.
        -- apply In_firstn_In, In_sorted_desc in Hx.
           rewrite candidates_emitted in Hx. cbn [snd] in Hx.
           apply in_flat_map in Hx. destruct Hx as [item [_ Hx]].
           apply emitted_sell_inv in Hx. destruct Hx as [l [_ [_ ->]]]. reflexivity.
        -- rewrite Forall_forall in Hall. exact (Hall x Hx).
Qed.

(** With a cap of 10, the symbol whose BUY score is exactly 55 has its BUY
    signal returned, the one at 54.99 has no signal returned, and nothing
    else is returned. *)
Lemma signal_emitted_iff_threshold_witness :
  feq (_buy_score row_55) (Fin 55)
  /\ In (buy_signal "AT55" row_55 (Close row_55) (_buy_score row_55))
        (generate_signals threshold_data 10)
  /\ feq (_buy_score row_54_99) (Fin 54.99)
  /\ (forall s, In s (generate_signals threshold_data 10) ->
                symbol s <> "BELOW"%string)
  /\ map symbol (generate_signals threshold_data 10) = ["AT55"%string].
Proof.
  assert (Hin_at : In ("AT55"%string, [all_buy_row; row_55]) threshold_data)
    by (simpl; auto).
  assert (Hin_below : In ("BELOW"%string, [all_buy_row; row_54_99]) threshold_data)
    by (simpl; auto).
  pose proof (signal_emitted_iff_threshold threshold_data "AT55"
                [all_buy_row; row_55] row_55 threshold_data_keys Hin_at eq_refl)
    as [_ [_ [_ [_ [_ [_ [Hroom _]]]]]]].
  pose proof (signal_emitted_iff_threshold threshold_data "BELOW"
                [all_buy_row; row_54_99] row_54_99 threshold_data_keys
                Hin_below eq_refl)
    as [_ [_ [_ [_ [_ [Hret _]]]]]].
  split; [vm_compute; reflexivity |]. split.
  - destruct (Hroom 10%Z) as [_ Hback]; [vm_compute; discriminate |].
    apply Hback. vm_compute. reflexivity.
  - split; [vm_compute; reflexivity |]. split; [| vm_compute; reflexivity].
    intros s Hs Hsym.
    destruct (Hret 10%Z s Hs Hsym) as [[H _] | [H _]];
      vm_compute in H; discriminate.
Defined.


Lemma candidates_keys_buy (data : dict (list Row)) :
  map symbol (flat_map emitted_buy data) = keys (filter qualifies_buy data).
Proof.
  unfold keys. induction data as [| [sym df] data IH]; simpl; [reflexivity |].
  rewrite map_app, IH. unfold emitted_buy, qualifies_buy. cbn [fst snd].
  destruct (latest_of df) as [latest |]; [| reflexivity].
  destruct (_buy_score latest >=? Fin 55); reflexivity.
Qed.

Lemma candidates_keys_sell (data : dict (list Row)) :
  map symbol (flat_map emitted_sell data) = keys (filter qualifies_sell data).
Proof.
  unfold keys. induction data as [| [sym df] data IH]; simpl; [reflexivity |].
  rewrite map_app, IH. unfold emitted_sell, qualifies_sell. cbn [fst snd].
  destruct (latest_of df) as [latest |]; [| reflexivity].
  destruct (_sell_score latest >=? Fin 55); reflexivity.
Qed.

Lemma ranked_sorted_desc (cands : list TradeSignal) (top_n : Z) :
  Forall (fun s => (signal_score s >=? Fin 55) = true) cands ->
  ranked cands top_n (firstn (Z.to_nat top_n) (sorted_desc signal_score cands)).
Proof.
  intro Hc.
  assert (Hs : StronglySorted
                 (fun a b => (signal_score a >=? signal_score b) = true)
                 (sorted_desc signal_score cands)).
  { apply sorted_desc_sorted. eapply Forall_impl; [| exact Hc].
    intros s Hs. unfold fge in Hs. apply fle_not_nan in Hs. tauto. }
  exists (sorted_desc signal_score cands). repeat split.
  - apply stable_sort_perm.
  - exact Hs.
  - intro v. apply sorted_desc_stable.
  - intros kept cut. apply (sorted_prefix_dominates _ _ Hs).
Qed.

(** C3. Under a cap [top_n >= 0] the generator returns the BUY ranking
    followed by the SELL ranking.  Each ranking is the first [top_n]
    entries of the candidates of its direction put in descending score
    order, candidates of equal score staying in the order of the input
    mapping (the candidates are emitted in mapping order); it holds at most
    [top_n] entries, and exactly [top_n] when that many candidates
    qualify. *)
Theorem signals_ranked_and_capped (data : dict (list Row)) (top_n : Z) :
  (0 <= top_n)%Z ->
  map symbol (fst (candidates data)) = keys (filter qualifies_buy data)
  /\ map symbol (snd (candidates data)) = keys (filter qualifies_sell data)
  /\ exists top_buys top_sells,
       generate_signals data top_n = (top_buys ++ top_sells)%list
       /\ ranked (fst (candidates data)) top_n top_buys
       /\ ranked (snd (candidates data)) top_n top_sells
       /\ List.length top_buys
          = Nat.min (Z.to_nat top_n) (List.length (fst (candidates data)))
       /\ List.length top_sells
          = Nat.min (Z.to_nat top_n) (List.length (snd (candidates data))).
Proof.
  intro Hn.
  assert (Hb : Forall (fun s => (signal_score s >=? Fin 55) = true)
                      (fst (candidates data))).
  { apply Forall_forall. intros s Hs. apply (candidates_threshold data). auto. }
  assert (Hs : Forall (fun s => (signal_score s >=? Fin 55) = true)
                      (snd (candidates data))).
  { apply Forall_forall. intros s Hs. apply (candidates_threshold data). auto. }
  split; [| split].
  - rewrite candidates_emitted. apply candidates_keys_buy.
  - rewrite candidates_emitted. apply candidates_keys_sell.
  - exists (firstn (Z.to_nat top_n) (sorted_desc signal_score (fst (candidates data)))),
           (firstn (Z.to_nat top_n) (sorted_desc signal_score (snd (candidates data)))).
    split; [| split; [| split; [| split]]].
    + rewrite generate_signals_eq, !slice_to_nonneg by exact Hn. reflexivity.
    + apply ranked_sorted_desc. exact Hb.
    + apply ranked_sorted_desc. exact Hs.
    + rewrite length_firstn. unfold sorted_desc.
      rewrite (Permutation_length (stable_sort_perm _ _)). reflexivity.
    + rewrite length_firstn. unfold sorted_desc.
      rewrite (Permutation_length (stable_sort_perm _ _)). reflexivity.
Qed.

(** With a cap of 2 and five qualifying BUY candidates (scores 55, 75, 75,
    90, 70 in mapping order) the generator returns the candidate scoring 90
    and the first of the two scoring 75. *)
Lemma signals_ranked_and_capped_witness :
  map signal_score (fst (candidates five_buys))
    = map signal_score (flat_map emitted_buy five_buys)
  /\ map symbol (generate_signals five_buys 2) = ["S4"%string; "S2"%string]
  /\ exists top_buys top_sells,
       generate_signals five_buys 2 = (top_buys ++ top_sells)%list
       /\ ranked (fst (candidates five_buys)) 2 top_buys
       /\ ranked (snd (candidates five_buys)) 2 top_sells
       /\ List.length top_buys = 2%nat
       /\ List.length top_sells = 0%nat.
Proof.
  assert (H : (0 <= 2)%Z) by lia.
  destruct (signals_ranked_and_capped five_buys 2 H)
    as [_ [_ [top_buys [top_sells [H1 [H2 [H3 [H4 H5]]]]]]]].
  split; [rewrite candidates_emitted; reflexivity |].
  split; [vm_compute; reflexivity |].
  exists top_buys, top_sells.
  split; [exact H1 |]. split; [exact H2 |]. split; [exact H3 |].
  split; [rewrite H4 | rewrite H5]; vm_compute; reflexivity.
Defined.

(* ------------------------------------------------------------------ *)
(** ** Monotone float operations *)

Lemma round_half_even_bounds (q : Q) :
  (Qfloor q <= round_half_even q <= Qfloor q + 1)%Z.
Proof.
  unfold round_half_even.
  destruct (Qltb (q - inject_Z (Qfloor q)) (1 # 2));
    [| destruct (Qltb (1 # 2) (q - inject_Z (Qfloor q)));
       [| destruct (Z.even (Qfloor q))]]; lia.
Qed.

Lemma round_half_even_mono (a b : Q) :
  (a <= b)%Q -> (round_half_even a <= round_half_even b)%Z.
Proof.
  intro Hab.
  pose proof (Qfloor_resp_le a b Hab) as Hf.
  pose proof (round_half_even_bounds a) as Ha.
  pose proof (round_half_even_bounds b) as Hb.
  destruct (Z.eq_dec (Qfloor a) (Qfloor b)) as [E | E]; [| lia].
  clear Ha Hb Hf. unfold round_half_even. rewrite E.
  destruct (Qltb (a - inject_Z (Qfloor b)) (1 # 2)) eqn:A1;
    destruct (Qltb (b - inject_Z (Qfloor b)) (1 # 2)) eqn:B1;
    destruct (Qltb (1 # 2) (a - inject_Z (Qfloor b))) eqn:A2;
    destruct (Qltb (1 # 2) (b - inject_Z (Qfloor b))) eqn:B2;
    destruct (Z.even (Qfloor b));
    try lia; q_bools; exfalso; lra.
Qed.

Lemma scale_pos (n : nat) : (0 < inject_Z (10 ^ Z.of_nat n))%Q.
Proof.
  change 0%Q with (inject_Z 0). rewrite <- Zlt_Qlt.
  apply Z.pow_pos_nonneg; lia.
Qed.

Lemma py_round_mono (x y : float) (n : nat) :
  (x <=? y) = true -> (py_round x n <=? py_round y n) = true.
Proof.
  destruct x as [| | | a], y as [| | | b]; simpl; intro H;
    try discriminate; try reflexivity.
  q_bools. pose proof (scale_pos n) as Hs.
  set (s := inject_Z (10 ^ Z.of_nat n)) in *.
  apply Qmult_le_compat_r.
  - rewrite <- Zle_Qle. apply round_half_even_mono.
    apply Qmult_le_compat_r; lra.
  - apply Qlt_le_weak. apply Qinv_lt_0_compat. exact Hs.
Qed.

Lemma fdiv_pos_mono (x y : float) (c : Q) :
  (0 < c)%Q -> (x <=? y) = true -> (x / Fin c <=? y / Fin c) = true.
Proof.
  intros Hc H.
  assert (E0 : Qeq_bool c 0 = false) by (apply Qeq_bool_false; lra).
  assert (E1 : Qltb c 0 = false) by (q_bools; lra).
  assert (E2 : Qle_bool 0 c = true) by (q_bools; lra).
  destruct x as [| | | a], y as [| | | b]; simpl in *;
    rewrite ?E0, ?E1, ?E2; simpl; try discriminate; try reflexivity.
  q_bools. apply Qmult_le_compat_r; [exact H |].
  apply Qlt_le_weak. apply Qinv_lt_0_compat. exact Hc.
Qed.

Lemma fmul_pos_mono (x y : float) (c : Q) :
  (0 < c)%Q -> (x <=? y) = true -> (x * Fin c <=? y * Fin c) = true.
Proof.
  intros Hc H.
  assert (E0 : Qeq_bool c 0 = false) by (apply Qeq_bool_false; lra).
  assert (E1 : Qltb c 0 = false) by (q_bools; lra).
  assert (E2 : Qltb 0 c = true) by (q_bools; lra).
  destruct x as [| | | a], y as [| | | b]; simpl in *;
    rewrite ?E0, ?E1, ?E2; simpl; try discriminate; try reflexivity.
  q_bools. apply Qmult_le_compat_r; lra.
Qed.

Lemma fadd_fin_mono (x y : float) (c d : Q) :
  (c <= d)%Q -> (x <=? y) = true -> (x + Fin c <=? y + Fin d) = true.
Proof.
  intros Hc H.
  destruct x as [| | | a], y as [| | | b]; simpl in *;
    try discriminate; try reflexivity.
  q_bools. lra.
Qed.

Lemma py_min_cap_mono (x y : float) (c : Q) :
  (x <=? y) = true -> (py_min x (Fin c) <=? py_min y (Fin c)) = true.
Proof.
  intro H. unfold py_min.
  destruct x as [| | | a], y as [| | | b]; simpl in *;
    try discriminate; try reflexivity.
  - destruct (Qltb c b) eqn:E; simpl; reflexivity.
  - q_bools. lra.
  - destruct (Qltb c a) eqn:E; simpl; q_bools; lra.
  - destruct (Qltb c a) eqn:E1, (Qltb c b) eqn:E2; simpl; q_bools; lra.
Qed.

(* ------------------------------------------------------------------ *)
(** ** The probability estimate *)

(** In exact arithmetic and with one kind of float, the formula of the
    estimate is monotone in the score: of two signals whose risk profiles
    share risk level and trend stability (a finite number), the one with the
    greater or equal signal score has the greater or equal probability.
    What binary rounding and the two kinds of float make of this is the
    subject of the last part of the file. *)
Lemma exact_estimate_monotone_in_score (s1 s2 : TradeSignal) (r1 r2 : RiskProfile) :
  risk_level r1 = risk_level r2 ->
  feq (trend_stability r1) (trend_stability r2) ->
  is_finite (trend_stability r1) = true ->
  (signal_score s1 >=? signal_score s2) = true ->
  (probability (estimate_probability s1 r1)
   >=? probability (estimate_probability s2 r2)) = true.
Proof.
  intros Hlevel Hst Hfin Hscore.
  unfold estimate_probability. cbn [probability]. unfold fge in *.
  apply py_round_mono. apply fmul_pos_mono; [lra |].
  rewrite Hlevel.
  destruct (trend_stability r1) as [| | | t1]; try discriminate.
  destruct (trend_stability r2) as [| | | t2]; simpl in Hst; try contradiction.
  assert (Hr : exists r, risk_component_of (risk_level r2) * Fin 0.30 = Fin r).
  { destruct (risk_level r2); eexists; reflexivity. }
  destruct Hr as [r ->].
  change (Fin t1 * Fin 0.15) with (Fin (t1 * 0.15)).
  change (Fin t2 * Fin 0.15) with (Fin (t2 * 0.15)).
  apply fadd_fin_mono; [rewrite Hst; lra |].
  apply fadd_fin_mono; [lra |].
  apply fmul_pos_mono; [lra |].
  apply py_min_cap_mono.
  apply fdiv_pos_mono; [lra | exact Hscore].
Qed.


(* ------------------------------------------------------------------ *)
(** ** Trend strength and trend stability *)

Lemma iloc_back_ok {A : Type} (l : list A) (k : nat) (d : A) :
  (1 <= k <= List.length l)%nat ->
  iloc_back l k = Ok (nth (List.length l - k) l d).
Proof.
  intros [H1 H2]. unfold iloc_back.
  destruct (k <=? List.length l)%nat eqn:E; [| apply Nat.leb_gt in E; lia].
  destruct (nth_error l (List.length l - k)) as [a |] eqn:En.
  - rewrite (nth_error_nth _ _ d En). reflexivity.
  - apply nth_error_None in En. lia.
Qed.

Lemma trend_strength_of_eq (close : Series) :
  trend_strength_of close =
  Ok (if (30 <=? List.length close)%nat
      then py_abs (nth (List.length close - 1) close NaN
                   / nth (List.length close - 30) close NaN - Fin 1)
      else Fin 0).
Proof.
  unfold trend_strength_of.
  destruct (30 <=? List.length close)%nat eqn:E; [| reflexivity].
  apply Nat.leb_le in E.
  rewrite (iloc_back_ok close 1 NaN) by lia.
  rewrite (iloc_back_ok close 30 NaN) by lia.
  reflexivity.
Qed.

Lemma trend_stability_of_eq (volatility trend_strength : float) :
  feq (trend_stability_of volatility trend_strength)
      (if is_nan (Fin 1 - py_abs (volatility - trend_strength)) then Fin 1
       else clamp (Fin 1 - py_abs (volatility - trend_strength)) (Fin 0) (Fin 1)).
Proof.
  unfold trend_stability_of, clamp, py_max, py_min.
  destruct (Fin 1 - py_abs (volatility - trend_strength)) as [| | | x]; simpl;
    try reflexivity.
  destruct (Qltb x 1) eqn:E1; simpl.
  - destruct (Qltb 0 x) eqn:E2, (Qltb x 0) eqn:E3, (Qltb 1 x) eqn:E4;
      simpl; q_bools; lra.
  - destruct (Qltb x 0) eqn:E3, (Qltb 1 x) eqn:E4; simpl; q_bools; lra.
Qed.

(** C4 as it is worded fails on the code.  With 31 rows the code divides
    by the close of the row 29 places before the last one ([iloc[-30]]),
    which gives a strength of 0.5 here, where the wording (the row at
    [last - 30]) gives 2; with exactly 30 rows the code still has a row to
    divide by and the wording has none. *)
Lemma trend_strength_row_differs :
  (exists coded worded,
     trend_strength_of closes_31 = Ok coded
     /\ trend_strength_as_worded closes_31 = Some worded
     /\ feq coded (Fin 0.5) /\ feq worded (Fin 2))
  /\ (exists coded,
        trend_strength_of closes_30 = Ok coded /\ feq coded (Fin 0)
        /\ trend_strength_as_worded closes_30 = None).
Proof.
  split.
  - eexists. eexists.
    split; [vm_compute; reflexivity |].
    split; [vm_compute; reflexivity |].
    split; vm_compute; reflexivity.
  - eexists. split; [vm_compute; reflexivity |].
    split; vm_compute; reflexivity.
Qed.

(** C4, amended.  The trend strength is |Close[n-1] / Close[n-30] - 1| for
    a table of [n >= 30] rows (the last row against the thirtieth row
    counted back from the end, the last one included), and 0 for a shorter
    table; the trend stability is clamp(1 - |volatility - trend strength|,
    0, 1), and 1 when that difference is not a number; the Risk Profile
    carries the stability rounded to four places. *)
Theorem trend_strength_and_stability (lib : TaLib) (sig : TradeSignal)
    (data : list Row) :
  let close := map Close data in
  let n := List.length data in
  let strength :=
    if (30 <=? n)%nat
    then py_abs (nth (n - 1) close NaN / nth (n - 30) close NaN - Fin 1)
    else Fin 0 in
  let spread := Fin 1 - py_abs (volatility_of lib data - strength) in
  trend_strength_of close = Ok strength
  /\ feq (trend_stability_of (volatility_of lib data) strength)
         (if is_nan spread then Fin 1 else clamp spread (Fin 0) (Fin 1))
  /\ exists risk,
       evaluate_risk lib sig data = Ok risk
       /\ trend_stability risk
          = py_round (trend_stability_of (volatility_of lib data) strength) 4.
Proof.
  cbv zeta.
  assert (Hts := trend_strength_of_eq (map Close data)).
  rewrite length_map in Hts.
  split; [exact Hts |].
  split; [apply trend_stability_of_eq |].
  unfold evaluate_risk. rewrite Hts. cbn [bind].
  eexists. split; reflexivity.
Qed.

(* ------------------------------------------------------------------ *)
(** ** The indicator engine *)

Lemma dict_get_In {V : Type} (d : dict V) (k : string) (v : V) :
  dict_get d k = Some v -> In (k, v) d.
Proof.
  induction d as [| [k' v'] d IH]; simpl; intro H; [discriminate |].
  destruct (String.eqb k' k) eqn:E.
  - apply String.eqb_eq in E. inversion H; subst. left. reflexivity.
  - right. apply IH. exact H.
Qed.

Lemma dict_get_None {V : Type} (d : dict V) (k : string) :
  ~ In k (keys d) -> dict_get d k = None.
Proof.
  unfold keys. induction d as [| [k' v'] d IH]; simpl; intro H; [reflexivity |].
  destruct (String.eqb k' k) eqn:E.
  - apply String.eqb_eq in E. exfalso. apply H. left. exact E.
  - apply IH. intro Hin. apply H. right. exact Hin.
Qed.

Lemma dict_get_Some {V : Type} (d : dict V) (k : string) (v : V) :
  NoDup (keys d) -> In (k, v) d -> dict_get d k = Some v.
Proof.
  unfold keys. induction d as [| [k' v'] d IH]; simpl; intros Hnd H; [contradiction |].
  inversion Hnd as [| ? ? Hnotin Hnd']; subst.
  destruct H as [H | H].
  - inversion H; subst. rewrite String.eqb_refl. reflexivity.
  - destruct (String.eqb k' k) eqn:E.
    + apply String.eqb_eq in E. subst k'. exfalso. apply Hnotin.
      apply in_map_iff. exists (k, v). auto.
    + apply IH; assumption.
Qed.

Lemma dict_set_new {V : Type} (d : dict V) (k : string) (v : V) :
  ~ In k (keys d) -> dict_set d k v = (d ++ [(k, v)])%list.
Proof.
  unfold keys. induction d as [| [k' v'] d IH]; simpl; intro H; [reflexivity |].
  destruct (String.eqb k' k) eqn:E.
  - apply String.eqb_eq in E. exfalso. apply H. left. exact E.
  - rewrite IH; [reflexivity |]. intro Hin. apply H. right. exact Hin.
Qed.

Lemma dict_set_In {V : Type} (d : dict V) (k k' : string) (v v' : V) :
  In (k, v) (dict_set d k' v') -> (k, v) = (k', v') \/ In (k, v) d.
Proof.
  induction d as [| [k0 v0] d IH]; simpl.
  - intros [H | []]. left. symmetry. exact H.
  - destruct (String.eqb k0 k') eqn:E; simpl.
    + apply String.eqb_eq in E. subst k0. intros [H | H]; [| auto].
      left. symmetry. exact H.
    + intros [H | H]; [auto |]. destruct (IH H); auto.
Qed.

Lemma enriched_entry_keys (lib : TaLib) (ph : dict (list Bar)) (k : string) :
  In k (keys (flat_map (enriched_entry lib) ph)) ->
  exists df data, In (k, df) ph /\ enrich_symbol lib df = Ok data.
Proof.
  unfold keys. intro H. apply in_map_iff in H. destruct H as [[k' data] [Hk H]].
  simpl in Hk. subst k'. apply in_flat_map in H. destruct H as [[sym df] [Hin H]].
  unfold enriched_entry in H. cbn [fst snd] in H.
  destruct (enrich_symbol lib df) as [d |] eqn:E; [| contradiction].
  destruct H as [H | []]. inversion H; subst. eauto.
Qed.

(** On a mapping with distinct keys the loop appends, symbol by symbol,
    what each symbol contributes. *)
Lemma enrich_loop_fold (lib : TaLib) (ph : dict (list Bar))
    (enriched : dict (list Row)) (log : list (string * exn)) :
  NoDup (keys ph) ->
  (forall k, In k (keys ph) -> ~ In k (keys enriched)) ->
  fold_left (enrich_step lib) ph (enriched, log) =
  ((enriched ++ flat_map (enriched_entry lib) ph)%list,
   (log ++ flat_map (enrich_warning lib) ph)%list).
Proof.
  revert enriched log.
  induction ph as [| [sym df] ph IH]; intros enriched log Hnd Hfresh;
    cbn [fold_left flat_map].
  - rewrite !app_nil_r. reflexivity.
  - unfold keys in Hnd. simpl in Hnd.
    inversion Hnd as [| ? ? Hnotin Hnd']; subst.
    unfold enrich_step at 2, enriched_entry at 1, enrich_warning at 1.
    cbn [fst snd]. destruct (enrich_symbol lib df) as [data | exc].
    + rewrite dict_set_new by (apply Hfresh; left; reflexivity).
      rewrite IH.
      * rewrite <- !app_assoc. reflexivity.
      * exact Hnd'.
      * intros k Hk Hin. unfold keys in Hin. rewrite map_app in Hin.
        apply in_app_or in Hin. destruct Hin as [Hin | [Hin | []]].
        -- apply (Hfresh k); [right; exact Hk | exact Hin].
        -- simpl in Hin. subst k. apply Hnotin. exact Hk.
    + rewrite IH.
      * rewrite <- !app_assoc. reflexivity.
      * exact Hnd'.
      * intros k Hk. apply Hfresh. right. exact Hk.
Qed.

Lemma enrich_with_indicators_eq (lib : TaLib) (ph : dict (list Bar)) :
  NoDup (keys ph) ->
  enrich_with_indicators lib ph = flat_map (enriched_entry lib) ph
  /\ enrich_warnings lib ph = flat_map (enrich_warning lib) ph.
Proof.
  intro Hnd. unfold enrich_with_indicators, enrich_warnings, enrich_loop.
  rewrite enrich_loop_fold by (auto; intros k _ []). split; reflexivity.
Qed.

(** Whatever the keys, a table of the result is the table computed for a
    symbol of the input. *)
Lemma enrich_loop_In (lib : TaLib) (ph : dict (list Bar))
    (st : dict (list Row) * list (string * exn)) (k : string) (data : list Row) :
  In (k, data) (fst (fold_left (enrich_step lib) ph st)) ->
  In (k, data) (fst st)
  \/ exists df, In (k, df) ph /\ enrich_symbol lib df = Ok data.
Proof.
  revert st. induction ph as [| [sym df] ph IH]; intros [enriched log] H;
    cbn [fold_left] in H.
  - left. exact H.
  - apply IH in H. destruct H as [H | [df' [Hin He]]].
    + unfold enrich_step in H. destruct (enrich_symbol lib df) as [d |] eqn:E.
      * cbn [fst] in H. apply dict_set_In in H. destruct H as [H | H].
        -- inversion H; subst. right. exists df. split; [left; reflexivity | exact E].
        -- left. exact H.
      * left. exact H.
    + right. exists df'. split; [right; exact Hin | exact He].
Qed.

Lemma dropna_no_null (frame : list Row) (row : Row) :
  In row (dropna frame) <-> In row frame /\ row_has_null row = false.
Proof.
  unfold dropna. rewrite filter_In, negb_true_iff. reflexivity.
Qed.

Lemma no_null_derived (row : Row) :
  row_has_null row = false ->
  Forall (fun x => is_nan x = false) (derived_columns row).
Proof.
  unfold row_has_null. intro H. apply Forall_forall. intros x Hx.
  destruct (is_nan x) eqn:E; [| reflexivity].
  assert (X : existsb is_nan (base_columns row ++ derived_columns row) = true).
  { apply existsb_exists. exists x. split; [| exact E].
    apply in_or_app. right. exact Hx. }
  congruence.
Qed.

(** C7. Every table of the enriched mapping is what [dropna] leaves of the
    frame computed for its symbol: a row of the frame is in the table
    exactly when none of its columns is null, so every row of the table has
    all thirteen derived columns defined. *)
Theorem enriched_rows_have_no_null (lib : TaLib) (ph : dict (list Bar))
    (sym : string) (table : list Row) :
  dict_get (enrich_with_indicators lib ph) sym = Some table ->
  (exists df frame,
     In (sym, df) ph /\ indicator_frame lib df = Ok frame
     /\ table = dropna frame
     /\ forall row, In row frame -> (In row table <-> row_has_null row = false))
  /\ forall row, In row table ->
       Forall (fun x => is_nan x = false) (derived_columns row).
Proof.
  intro Hget. apply dict_get_In in Hget.
  unfold enrich_with_indicators, enrich_loop in Hget.
  apply enrich_loop_In in Hget. destruct Hget as [[] | [df [Hin He]]].
  unfold enrich_symbol in He.
  destruct (indicator_frame lib df) as [frame |] eqn:Ef; [| discriminate].
  cbn [bind] in He. inversion He as [Ht].
  split.
  - exists df, frame. repeat split; try assumption.
    + intro X. apply dropna_no_null in X. tauto.
    + intro X. apply dropna_no_null. tauto.
  - intros row Hrow. apply no_null_derived.
    apply dropna_no_null in Hrow. tauto.
Qed.

(** With the stand-in library, a history of 200 flat bars keeps its last
    row, in which every derived column is defined. *)
Lemma enriched_rows_have_no_null_witness :
  exists table row,
    dict_get (enrich_with_indicators stand_in_lib three_histories) "GOOD" = Some table
    /\ In row table
    /\ Forall (fun x => is_nan x = false) (derived_columns row).
Proof.
  eexists. eexists.
  split; [vm_compute; reflexivity |].
  split; [left; reflexivity |].
  eapply (enriched_rows_have_no_null stand_in_lib three_histories "GOOD").
  - vm_compute. reflexivity.
  - left. reflexivity.
Defined.

Lemma nodup_keys_without {V : Type} (sym : string) (d : dict V) :
  NoDup (keys d) -> NoDup (keys (without sym d)).
Proof.
  unfold keys, without. induction d as [| [k v] d IH]; simpl; intro H.
  - constructor.
  - inversion H as [| ? ? Hnotin Hnd]; subst.
    destruct (negb (String.eqb k sym)); simpl; [| apply IH; exact Hnd].
    constructor; [| apply IH; exact Hnd].
    intro Hin. apply Hnotin. apply in_map_iff in Hin.
    destruct Hin as [x [Hx Hin]]. apply filter_In in Hin.
    apply in_map_iff. exists x. tauto.
Qed.

Lemma flat_map_without {V W : Type} (f : string * V -> list W) (sym : string)
    (d : dict V) :
  (forall item, In item d -> fst item = sym -> f item = []) ->
  flat_map f (without sym d) = flat_map f d.
Proof.
  unfold without. induction d as [| [k v] d IH]; simpl; intro H; [reflexivity |].
  destruct (String.eqb k sym) eqn:E; simpl.
  - apply String.eqb_eq in E. rewrite (H (k, v)) by auto. simpl.
    apply IH. intros item Hin. apply H. right. exact Hin.
  - rewrite IH; [reflexivity |]. intros item Hin. apply H. right. exact Hin.
Qed.

(** C8. On a mapping with distinct symbols the enriched mapping lists, in
    input order, the table of every symbol whose computation returns.  A
    symbol whose computation raises is absent from the result, a warning
    naming it and the exception is logged, the result is the one the
    mapping without that symbol gives, and every other symbol has the table
    its own computation returns. *)
Theorem bad_symbol_is_skipped (lib : TaLib) (ph : dict (list Bar))
    (sym : string) (df : list Bar) (exc : exn) :
  NoDup (keys ph) -> In (sym, df) ph -> enrich_symbol lib df = Raise exc ->
  enrich_with_indicators lib ph = flat_map (enriched_entry lib) ph
  /\ dict_get (enrich_with_indicators lib ph) sym = None
  /\ In (sym, exc) (enrich_warnings lib ph)
  /\ enrich_with_indicators lib ph = enrich_with_indicators lib (without sym ph)
  /\ forall other df' table,
       In (other, df') ph -> other <> sym ->
       enrich_symbol lib df' = Ok table ->
       dict_get (enrich_with_indicators lib ph) other = Some table
       /\ dict_get (enrich_with_indicators lib (without sym ph)) other = Some table.
Proof.
  intros Hnd Hin Hraise.
  destruct (enrich_with_indicators_eq lib ph Hnd) as [He Hw].
  destruct (enrich_with_indicators_eq lib (without sym ph)
              (nodup_keys_without sym ph Hnd)) as [He' _].
  assert (Hsame : flat_map (enriched_entry lib) (without sym ph)
                  = flat_map (enriched_entry lib) ph).
  { apply flat_map_without. intros [k v] Hk Hfst. simpl in Hfst. subst k.
    assert (v = df) by (eapply nodup_keys_unique; eauto). subst v.
    unfold enriched_entry. cbn [snd]. rewrite Hraise. reflexivity. }
  assert (Hkeys : NoDup (keys (flat_map (enriched_entry lib) ph))).
  { clear - Hnd. unfold keys in *. induction ph as [| [k v] ph IH]; simpl.
    - constructor.
    - inversion Hnd as [| ? ? Hnotin Hnd']; subst. rewrite map_app.
      unfold enriched_entry at 1. cbn [fst snd].
      destruct (enrich_symbol lib v); simpl; [| apply IH; exact Hnd'].
      constructor; [| apply IH; exact Hnd'].
      intro H. apply (enriched_entry_keys lib ph k) in H.
      destruct H as [df0 [d0 [H _]]]. apply Hnotin.
      apply in_map_iff. exists (k, df0). auto. }
  split; [exact He |].
  split; [| split; [| split]].
  - rewrite He. apply dict_get_None. intro H.
    apply enriched_entry_keys in H. destruct H as [df0 [d0 [H1 H2]]].
    assert (df0 = df) by (eapply nodup_keys_unique; eauto). subst df0.
    congruence.
  - rewrite Hw. apply in_flat_map. exists (sym, df). split; [exact Hin |].
    unfold enrich_warning. cbn [fst snd]. rewrite Hraise. left. reflexivity.
  - rewrite He, He', Hsame. reflexivity.
  - intros other df' table Hother Hne Hok.
    rewrite He', Hsame, He.
    assert (H : dict_get (flat_map (enriched_entry lib) ph) other = Some table).
    { apply dict_get_Some; [exact Hkeys |].
      apply in_flat_map. exists (other, df'). split; [exact Hother |].
      unfold enriched_entry. cbn [fst snd]. rewrite Hok. left. reflexivity. }
    split; exact H.
Qed.

Lemma three_histories_keys : NoDup (keys three_histories).
Proof.
  unfold keys, three_histories. simpl.
  repeat constructor; simpl; intuition discriminate.
Qed.

(** With the stand-in library: the symbol with no bar raises and is left
    out; the two others are enriched as they are on their own. *)
Lemma bad_symbol_is_skipped_witness :
  keys (enrich_with_indicators stand_in_lib three_histories)
    = ["GOOD"%string; "ALSO"%string]
  /\ dict_get (enrich_with_indicators stand_in_lib three_histories) "BAD" = None
  /\ In ("BAD"%string, LibraryError 0) (enrich_warnings stand_in_lib three_histories)
  /\ enrich_with_indicators stand_in_lib three_histories
     = enrich_with_indicators stand_in_lib (without "BAD" three_histories).
Proof.
  assert (Hin : In ("BAD"%string, []) three_histories) by (simpl; auto).
  assert (Hraise : enrich_symbol stand_in_lib [] = Raise (LibraryError 0))
    by reflexivity.
  destruct (bad_symbol_is_skipped stand_in_lib three_histories "BAD" []
              (LibraryError 0) three_histories_keys Hin Hraise)
    as [_ [H1 [H2 [H3 _]]]].
  split; [vm_compute; reflexivity |].
  split; [exact H1 |]. split; [exact H2 | exact H3].
Defined.

(* ------------------------------------------------------------------ *)
(** ** The risk engine returns *)

Lemma evaluate_risk_ok (lib : TaLib) (sig : TradeSignal) (data : list Row) :
  exists risk,
    evaluate_risk lib sig data = Ok risk
    /\ risk_stop_loss risk = stop_loss sig
    /\ forall sig',
         evaluate_risk lib sig' data =
         Ok {| volatility_score := volatility_score risk;
               drawdown_risk := drawdown_risk risk;
               trend_stability := trend_stability risk;
               risk_stop_loss := stop_loss sig';
               risk_level := risk_level risk |}.
Proof.
  unfold evaluate_risk. rewrite trend_strength_of_eq. cbn [bind].
  eexists. split; [reflexivity |]. split; reflexivity.
Qed.

(** The trend stability of a Risk Profile is a number between 0 and 1,
    whatever the table. *)
Lemma trend_stability_of_unit (volatility trend_strength : float) :
  exists q, trend_stability_of volatility trend_strength = Fin q /\ (0 <= q <= 1)%Q.
Proof.
  unfold trend_stability_of, py_max, py_min.
  destruct (Fin 1 - py_abs (volatility - trend_strength)) as [| | | x]; simpl;
    try (exists 1%Q; split; [reflexivity | lra]).
  - exists 0%Q. split; [reflexivity | lra].
  - destruct (Qltb x 1) eqn:E1; simpl.
    + destruct (Qltb 0 x) eqn:E2; q_bools;
        [exists x | exists 0%Q]; (split; [reflexivity | lra]).
    + exists 1%Q. split; [reflexivity | lra].
Qed.

Lemma evaluate_risk_stability_unit (lib : TaLib) (sig : TradeSignal)
    (data : list Row) (risk : RiskProfile) :
  evaluate_risk lib sig data = Ok risk ->
  is_finite (trend_stability risk) = true
  /\ (Fin 0 <=? trend_stability risk) = true
  /\ (trend_stability risk <=? Fin 1) = true.
Proof.
  unfold evaluate_risk. rewrite trend_strength_of_eq. cbn [bind].
  intro H. inversion H; subst. cbn [trend_stability].
  match goal with
  | |- context [trend_stability_of ?v ?t] =>
      destruct (trend_stability_of_unit v t) as [q [-> [Hq0 Hq1]]]
  end.
  split; [reflexivity |]. split.
  - apply (fle_trans _ (py_round (Fin 0) 4)); [vm_compute; reflexivity |].
    apply py_round_mono. simpl. q_bools. exact Hq0.
  - apply (fle_trans _ (py_round (Fin 1) 4)); [| vm_compute; reflexivity].
    apply py_round_mono. simpl. q_bools. exact Hq1.
Qed.

(** Two signals on the same symbol: the risk mapping keeps one entry, the
    one of the second signal, and so does the probability mapping. *)
Lemma batch_evaluate_pair (lib : TaLib) (data : dict (list Row))
    (s1 s2 : TradeSignal) (table : list Row) (r1 r2 : RiskProfile) :
  dict_get data (symbol s1) = Some table -> symbol s2 = symbol s1 ->
  evaluate_risk lib s1 table = Ok r1 -> evaluate_risk lib s2 table = Ok r2 ->
  batch_evaluate lib [s1; s2] data = Ok [(symbol s1, r2)].
Proof.
  intros Hget Hsym H1 H2. unfold batch_evaluate. cbn [batch_evaluate_from].
  unfold dict_item. rewrite Hsym, Hget. cbn [bind]. rewrite H1, H2. cbn [bind].
  cbn [dict_set]. rewrite String.eqb_refl. reflexivity.
Qed.

Lemma probabilities_pair (s1 s2 : TradeSignal) (risk : RiskProfile) :
  symbol s2 = symbol s1 ->
  probabilities_from [] [s1; s2] [(symbol s1, risk)]
  = Ok [(symbol s1, estimate_probability s2 risk)].
Proof.
  intro Hsym. cbn [probabilities_from]. unfold dict_item. rewrite Hsym.
  cbn [dict_get]. rewrite String.eqb_refl. cbn [bind dict_set].
  rewrite String.eqb_refl. reflexivity.
Qed.

(* ------------------------------------------------------------------ *)
(** ** One symbol, two signals *)

Lemma dual_signals : generate_signals dual_data 10 = [dual_buy; dual_sell].
Proof. vm_compute. reflexivity. Qed.

(** C10. The table [dual_table] qualifies its symbol for a BUY (score 55,
    stop-loss 97) and for a SELL (score 60, stop-loss 103).  The generator
    returns the BUY first and the SELL second; the risk mapping and the
    probability mapping, keyed by symbol, each keep one entry, the one
    computed from the SELL signal; and both rows of the report carry the
    SELL signal's stop-loss and probability. *)
Theorem both_signals_report_sell_values (lib : TaLib) :
  exists risk,
    generate_signals dual_data 10 = [dual_buy; dual_sell]
    /\ symbol dual_buy = symbol dual_sell
    /\ signal dual_buy = BUY /\ signal dual_sell = SELL
    /\ feq (signal_score dual_buy) (Fin 55) /\ feq (signal_score dual_sell) (Fin 60)
    /\ feq (stop_loss dual_buy) (Fin 97) /\ feq (stop_loss dual_sell) (Fin 103)
    /\ evaluate_risk lib dual_sell dual_table = Ok risk
    /\ risk_stop_loss risk = stop_loss dual_sell
    /\ batch_evaluate lib [dual_buy; dual_sell] dual_data
       = Ok [("DUAL"%string, risk)]
    /\ probabilities_from [] [dual_buy; dual_sell] [("DUAL"%string, risk)]
       = Ok [("DUAL"%string, estimate_probability dual_sell risk)]
    /\ exists outcome,
         analyse lib dual_data = Ok outcome
         /\ map row_signal (report_df outcome) = [BUY; SELL]
         /\ forall row, In row (report_df outcome) ->
              stock_name row = "DUAL"%string
              /\ row_stop_loss row = stop_loss dual_sell
              /\ row_probability row
                 = probability (estimate_probability dual_sell risk).
Proof.
  destruct (evaluate_risk_ok lib dual_sell dual_table) as [risk [Hsell [Hstop Hany]]].
  assert (Hbatch : batch_evaluate lib [dual_buy; dual_sell] dual_data
                   = Ok [("DUAL"%string, risk)]).
  { eapply (batch_evaluate_pair lib dual_data dual_buy dual_sell dual_table);
      [reflexivity | reflexivity | apply Hany | exact Hsell]. }
  assert (Hprob : probabilities_from [] [dual_buy; dual_sell] [("DUAL"%string, risk)]
                  = Ok [("DUAL"%string, estimate_probability dual_sell risk)]).
  { apply (probabilities_pair dual_buy dual_sell risk). reflexivity. }
  exists risk.
  split; [exact dual_signals |].
  split; [reflexivity |]. split; [reflexivity |]. split; [reflexivity |].
  split; [vm_compute; reflexivity |]. split; [vm_compute; reflexivity |].
  split; [vm_compute; reflexivity |]. split; [vm_compute; reflexivity |].
  split; [exact Hsell |]. split; [exact Hstop |].
  split; [exact Hbatch |]. split; [exact Hprob |].
  unfold analyse. rewrite dual_signals, Hbatch. cbn [bind].
  rewrite Hprob. cbn [bind].
  unfold build_report_dataframe. cbn [report_rows]. unfold dict_item.
  change (symbol dual_buy) with "DUAL"%string.
  change (symbol dual_sell) with "DUAL"%string.
  cbn [dict_get]. rewrite String.eqb_refl. cbn [bind].
  eexists. split; [reflexivity |].
  cbn [report_df stable_sort fold_right insert_by].
  unfold report_before. cbn [row_signal].
  change (signal dual_buy) with BUY. change (signal dual_sell) with SELL.
  cbn [signal_ltb signal_eqb orb andb map row_signal].
  split; [reflexivity |].
  intros row [<- | [<- | []]]; repeat split; exact Hstop.
Qed.

(* ------------------------------------------------------------------ *)
(** ** The daily run *)

Lemma slice_to_nil {A : Type} (n : Z) : slice_to (@nil A) n = [].
Proof. unfold slice_to. destruct (0 <=? n)%Z; rewrite firstn_nil; reflexivity. Qed.

Lemma no_survivor_no_candidate (data : dict (list Row)) :
  no_survivor data -> candidates data = ([], []).
Proof.
  intro H. rewrite candidates_emitted.
  assert (Hb : flat_map emitted_buy data = []
               /\ flat_map emitted_sell data = []).
  { induction data as [| [sym table] data IH]; simpl; [auto |].
    assert (table = []) by (apply (H sym); left; reflexivity). subst table.
    destruct IH as [IH1 IH2].
    { intros k t Hin. apply (H k). right. exact Hin. }
    rewrite IH1, IH2. split; reflexivity. }
  destruct Hb as [-> ->]. reflexivity.
Qed.

(** With no surviving row anywhere, the analysis has nothing to report and
    returns normally. *)
Lemma analyse_no_survivor (lib : TaLib) (data : dict (list Row)) :
  no_survivor data -> analyse lib data = Ok empty_outcome.
Proof.
  intro H. unfold analyse.
  rewrite generate_signals_eq, (no_survivor_no_candidate data H).
  cbn [fst snd]. unfold sorted_desc, stable_sort. cbn [fold_right].
  rewrite !slice_to_nil. reflexivity.
Qed.

Lemma collect_step_unusable (env : Env) (period sym : string)
    (st : dict (list Bar) * list MarketRow) :
  usable_history env period sym = false -> collect_step env period st sym = st.
Proof.
  unfold usable_history, collect_step, collect_symbol. destruct st as [history rows].
  destruct (_fetch_symbol_history env sym period) as [hist |]; cbn [bind];
    [| reflexivity].
  intro H. apply negb_false_iff in H. rewrite H. reflexivity.
Qed.

Lemma collect_nothing_usable (env : Env) (period : string) (universe : list string)
    (st : dict (list Bar) * list MarketRow) :
  (forall sym, In sym universe -> usable_history env period sym = false) ->
  fold_left (collect_step env period) universe st = st.
Proof.
  revert st. induction universe as [| sym universe IH]; intros st H; simpl.
  - reflexivity.
  - rewrite collect_step_unusable by (apply H; left; reflexivity).
    apply IH. intros s Hs. apply H. right. exact Hs.
Qed.

Lemma universe_not_empty (env : Env) : universe_of env <> [].
Proof.
  unfold universe_of, sorted_set. intro H.
  assert (Hin : In "RELIANCE.NS"%string
                   (nodup string_dec
                      (_load_sensex_constituents env ++ DEFAULT_NSE_SYMBOLS))).
  { apply nodup_In. apply in_or_app. right. left. reflexivity. }
  apply (Permutation_in _ (Permutation_sym (stable_sort_perm String.ltb _))) in Hin.
  rewrite H in Hin. contradiction.
Qed.

Lemma frame_rows_vwap (lib : TaLib) (df : list Bar) (frame : list Row) :
  indicator_frame lib df = Ok frame ->
  forall row, In row frame -> exists i, VWAP row = at_index (_calc_vwap df) i.
Proof.
  unfold indicator_frame.
  destruct (RSIIndicator lib (map bClose df) 14); cbn [bind]; [| discriminate].
  destruct (SMAIndicator lib (map bClose df) 20); cbn [bind]; [| discriminate].
  destruct (SMAIndicator lib (map bClose df) 50); cbn [bind]; [| discriminate].
  destruct (SMAIndicator lib (map bClose df) 200); cbn [bind]; [| discriminate].
  destruct (EMAIndicator lib (map bClose df) 20); cbn [bind]; [| discriminate].
  destruct (MACD_lines lib (map bClose df) 26 12 9); cbn [bind]; [| discriminate].
  intros H row Hrow. inversion H; subst. apply in_map_iff in Hrow.
  destruct Hrow as [[i b] [<- _]]. exists i. reflexivity.
Qed.

(** A history whose VWAP is undefined on every row leaves no row. *)
Lemma undefined_vwap_leaves_no_row (lib : TaLib) (df : list Bar) (table : list Row) :
  (forall i, at_index (_calc_vwap df) i = NaN) ->
  enrich_symbol lib df = Ok table -> table = [].
Proof.
  intros Hv. unfold enrich_symbol.
  destruct (indicator_frame lib df) as [frame |] eqn:Ef; cbn [bind]; [| discriminate].
  intro H. inversion H; subst. unfold dropna.
  assert (Hall : forall row, In row frame -> negb (row_has_null row) = false).
  { intros row Hrow. apply negb_false_iff. unfold row_has_null.
    apply existsb_exists. exists (VWAP row). split.
    - apply in_or_app. right. unfold derived_columns. simpl. tauto.
    - destruct (frame_rows_vwap lib df frame Ef row Hrow) as [i ->].
      rewrite Hv. reflexivity. }
  clear Ef H. induction frame as [| r frame IH]; simpl; [reflexivity |].
  rewrite (Hall r) by (left; reflexivity).
  apply IH. intros row Hrow. apply Hall. right. exact Hrow.
Qed.

Lemma zero_volume_vwap (i : nat) :
  at_index (_calc_vwap (flat_history 60 100 0)) i = NaN.
Proof.
  assert (H : _calc_vwap (flat_history 60 100 0) = repeat NaN 60)
    by (vm_compute; reflexivity).
  rewrite H. unfold at_index. apply nth_repeat.
Qed.

(** C9 as it is stated fails on the code.  When Yahoo Finance returns, for
    every symbol, 60 bars on which no volume was traded, all twenty
    histories are collected, the VWAP is undefined on every row, so no row
    of any symbol survives enrichment whatever the indicator library
    computes; the run then returns normally, with an empty report and the
    console line for no actionable signal. *)
Lemma run_completes_with_no_survivor :
  exists snapshot,
    collect_market_data zero_volume_env "1y" = Ok snapshot
    /\ keys (price_history snapshot) = universe_of zero_volume_env
    /\ List.length (price_history snapshot) = 20%nat
    /\ forall lib,
         no_survivor (enrich_with_indicators lib (price_history snapshot))
         /\ run_daily_analysis lib zero_volume_env = Ok empty_outcome.
Proof.
  eexists. split; [vm_compute; reflexivity |].
  split; [vm_compute; reflexivity |].
  split; [vm_compute; reflexivity |].
  intro lib.
  match goal with
  | |- no_survivor (enrich_with_indicators lib ?ph) /\ _ =>
      assert (Hph : Forall (fun item => snd item = flat_history 60 100 0) ph)
        by (repeat constructor);
      assert (Hns : no_survivor (enrich_with_indicators lib ph))
  end.
  { intros sym table Hin. unfold enrich_with_indicators, enrich_loop in Hin.
    apply enrich_loop_In in Hin. destruct Hin as [[] | [df [Hdf He]]].
    rewrite Forall_forall in Hph. specialize (Hph _ Hdf). cbn [snd] in Hph.
    subst df. apply (undefined_vwap_leaves_no_row lib _ table zero_volume_vwap He). }
  split; [exact Hns |].
  unfold run_daily_analysis.
  match goal with
  | |- bind ?c _ = _ =>
      let v := eval vm_compute in c in
      replace c with v by (vm_compute; reflexivity)
  end.
  cbn [bind price_history]. apply analyse_no_survivor. exact Hns.
Qed.

(** C9, amended.  The universe of a run is never empty (the default
    symbols are always in it).  The run fails with an exception when no
    symbol of the universe yields a usable history (a download that
    returns at least 60 rows with a close and a volume).  When histories
    are collected but no symbol survives enrichment, the run does not
    fail: it returns normally, with an empty report and the console line
    for no actionable signal. *)
Theorem run_fails_only_without_history (lib : TaLib) (env : Env) :
  universe_of env <> []
  /\ ((forall sym, In sym (universe_of env) -> usable_history env "1y" sym = false) ->
      exists e, collect_market_data env "1y" = Raise e
                /\ run_daily_analysis lib env = Raise e)
  /\ (forall snapshot,
        collect_market_data env "1y" = Ok snapshot ->
        no_survivor (enrich_with_indicators lib (price_history snapshot)) ->
        run_daily_analysis lib env = Ok empty_outcome).
Proof.
  split; [apply universe_not_empty |]. split.
  - intro H. unfold run_daily_analysis, collect_market_data.
    fold (universe_of env).
    rewrite (collect_nothing_usable env "1y" (universe_of env) ([], []) H).
    destruct (universe_of env); cbn [bind]; eexists; split; reflexivity.
  - intros snapshot Hc Hns. unfold run_daily_analysis. rewrite Hc. cbn [bind].
    apply analyse_no_survivor. exact Hns.
Qed.

Lemma no_survivor_check (data : dict (list Row)) :
  forallb (fun item => match snd item with [] => true | _ => false end) data = true ->
  no_survivor data.
Proof.
  intros H sym table Hin. rewrite forallb_forall in H.
  specialize (H _ Hin). cbn [snd] in H. destruct table; [reflexivity | discriminate].
Qed.

(** Offline, every download raises and so does the run.  With 100 bars
    per symbol and the stand-in library, twenty histories are collected,
    none has a row left after enrichment, and the run returns the empty
    outcome. *)
Lemma run_fails_only_without_history_witness :
  (exists e, run_daily_analysis stand_in_lib offline_env = Raise e)
  /\ (exists snapshot,
        collect_market_data short_history_env "1y" = Ok snapshot
        /\ List.length (price_history snapshot) = 20%nat
        /\ no_survivor (enrich_with_indicators stand_in_lib (price_history snapshot)))
  /\ run_daily_analysis stand_in_lib short_history_env = Ok empty_outcome.
Proof.
  destruct (run_fails_only_without_history stand_in_lib offline_env)
    as [_ [Hoff _]].
  destruct (run_fails_only_without_history stand_in_lib short_history_env)
    as [_ [_ Hshort]].
  assert (Hc : exists snapshot,
             collect_market_data short_history_env "1y" = Ok snapshot
             /\ List.length (price_history snapshot) = 20%nat
             /\ no_survivor
                  (enrich_with_indicators stand_in_lib (price_history snapshot))).
  { eexists. split; [vm_compute; reflexivity |].
    split; [vm_compute; reflexivity |].
    apply no_survivor_check. vm_compute. reflexivity. }
  split.
  - destruct Hoff as [e [_ He]].
    + intros sym _. reflexivity.
    + exists e. exact He.
  - split; [exact Hc |].
    destruct Hc as [snapshot [H1 [_ H2]]]. exact (Hshort snapshot H1 H2).
Defined.

(* ------------------------------------------------------------------ *)
(** ** Further properties of the engines *)

Lemma sell_momentum_range (x : float) :
  is_nan x = false ->
  exists c, py_min (py_abs (py_min x (Fin 0))) (Fin 10) = Fin c
            /\ clamp (py_abs (py_min x (Fin 0))) (Fin 0) (Fin 10) = Fin c
            /\ (0 <= c <= 10)%Q.
Proof.
  intro Hx. unfold py_min, py_abs, clamp.
  destruct x as [| | | q]; simpl in *; try discriminate.
  - exists 10%Q. repeat split; lra.
  - exists (Qabs 0). repeat split; vm_compute; congruence.
  - destruct (Qltb 0 q) eqn:E; simpl.
    + exists (Qabs 0). repeat split; vm_compute; congruence.
    + q_bools. pose proof (Qabs_nonneg q) as Hn.
      destruct (Qltb 10 (Qabs q)) eqn:E10; simpl.
      * assert (E0 : Qltb (Qabs q) 0 = false) by (q_bools; lra).
        rewrite E0. exists 10%Q. repeat split; lra.
      * assert (E0 : Qltb (Qabs q) 0 = false) by (q_bools; lra).
        rewrite E0. q_bools. exists (Qabs q). repeat split; lra.
Qed.

(** The SELL score of an enriched row is the additive sum
    20·[RSI14>75] + 20·[SMA20<SMA50] + 15·[SMA50<SMA200]
    + 20·[MACD<MACDSignal] + 15·[VolumeRatio>1.2 and Ret1D<0]
    + clamp(|min(Ret5D·100, 0)|, 0, 10), a finite number between 0 and
    100. *)
Theorem sell_score_additive_bounded (row : Row) :
  row_has_null row = false ->
  feq (_sell_score row) (sell_score_spec row)
  /\ exists q, _sell_score row = Fin q /\ (0 <= q <= 100)%Q.
Proof.
  intro Hrow.
  pose proof (row_has_null_ret5d row Hrow) as Hret.
  destruct (sell_momentum_range (Ret5D row * Fin 100)) as [c [Hc [Hs Hrange]]].
  { apply fmul_not_nan; [| exact Hret]. intro H. discriminate H. }
  unfold _sell_score, sell_score_spec. rewrite Hc, Hs.
  split.
  - destruct (RSI14 row >? Fin 75), (SMA20 row <? SMA50 row),
      (SMA50 row <? SMA200 row), (MACD row <? MACDSignal row),
      ((VolumeRatio row >? Fin 1.2) && (Ret1D row <? Fin 0));
      simpl; unfold iverson; lra.
  - destruct (RSI14 row >? Fin 75), (SMA20 row <? SMA50 row),
      (SMA50 row <? SMA200 row), (MACD row <? MACDSignal row),
      ((VolumeRatio row >? Fin 1.2) && (Ret1D row <? Fin 0));
      simpl; eexists; (split; [reflexivity | lra]).
Qed.

(** The row that meets every SELL condition scores 100. *)
Lemma sell_score_additive_bounded_witness :
  row_has_null all_sell_row = false
  /\ feq (_sell_score all_sell_row) (Fin 100)
  /\ feq (_sell_score all_sell_row) (sell_score_spec all_sell_row)
  /\ exists q, _sell_score all_sell_row = Fin q /\ (0 <= q <= 100)%Q.
Proof.
  assert (H : row_has_null all_sell_row = false) by reflexivity.
  split; [exact H |]. split; [vm_compute; reflexivity |].
  exact (sell_score_additive_bounded all_sell_row H).
Defined.

(** The Risk Engine always returns a profile: it never raises, it copies
    the signal's stop-loss unchanged, and the trend stability it delivers
    is a number between 0 and 1. *)
Theorem risk_profile_always_returned (lib : TaLib) (sig : TradeSignal)
    (data : list Row) :
  exists risk,
    evaluate_risk lib sig data = Ok risk
    /\ risk_stop_loss risk = stop_loss sig
    /\ is_finite (trend_stability risk) = true
    /\ (Fin 0 <=? trend_stability risk) = true
    /\ (trend_stability risk <=? Fin 1) = true.
Proof.
  destruct (evaluate_risk_ok lib sig data) as [risk [H [Hstop _]]].
  exists risk. split; [exact H |]. split; [exact Hstop |].
  apply (evaluate_risk_stability_unit lib sig data risk H).
Qed.

Lemma signal_component_full (score : float) :
  (Fin 100 <=? score) = true ->
  exists c, py_min (score / Fin 100) (Fin 1) = Fin c /\ (c == 1)%Q.
Proof.
  intro H. unfold py_min.
  destruct score as [| | | s]; simpl in *; try discriminate.
  - exists 1%Q. split; reflexivity.
  - q_bools. destruct (Qltb 1 (s / 100)) eqn:E.
    + exists 1%Q. split; reflexivity.
    + exists (s / 100)%Q. split; [reflexivity |]. q_bools.
      apply Qle_antisym; [exact E |]. apply Qle_shift_div_l; lra.
Qed.

(** A signal scoring 100 or more under a LOW-risk profile with a trend
    stability between 0 and 1 has a probability of at least 80.5, hence
    the note "Strong trend continuation". *)
Theorem full_score_low_risk_is_strong (sig : TradeSignal) (risk : RiskProfile) :
  (signal_score sig >=? Fin 100) = true ->
  risk_level risk = LOW ->
  (Fin 0 <=? trend_stability risk) = true ->
  (trend_stability risk <=? Fin 1) = true ->
  (probability (estimate_probability sig risk) >=? Fin 80.5) = true
  /\ confidence_note (estimate_probability sig risk)
     = "Strong trend continuation"%string.
Proof.
  intros Hscore Hlow H0 H1.
  assert (Hp : (probability (estimate_probability sig risk) >=? Fin 80.5) = true).
  { unfold estimate_probability. cbn [probability]. rewrite Hlow. unfold fge in *.
    apply (fle_trans _ (py_round (Fin 80.5) 2)); [vm_compute; reflexivity |].
    apply py_round_mono.
    destruct (signal_component_full _ Hscore) as [c [-> Hc]].
    destruct (trend_stability risk) as [| | | t]; simpl in H0, H1; try discriminate.
    simpl. q_bools. rewrite Hc. lra. }
  split; [exact Hp |].
  unfold estimate_probability in *. cbn [probability confidence_note] in *.
  unfold fge in *.
  assert (H70 : (Fin 70 <=? Fin 80.5) = true) by (vm_compute; reflexivity).
  rewrite (fle_trans _ _ _ H70 Hp). reflexivity.
Qed.

(** The strongest BUY signal under the LOW-risk sample profile. *)
Lemma full_score_low_risk_is_strong_witness :
  (probability (estimate_probability strong_signal (calm_risk (Fin 97)))
   >=? Fin 80.5) = true
  /\ confidence_note (estimate_probability strong_signal (calm_risk (Fin 97)))
     = "Strong trend continuation"%string.
Proof.
  apply (full_score_low_risk_is_strong strong_signal (calm_risk (Fin 97)));
    vm_compute; reflexivity.
Defined.

(* ------------------------------------------------------------------ *)
(** ** What the signal generator returns *)

Lemma fmul_factor_mono (p : float) (a b : Q) :
  (Fin 0 <=? p) = true -> (0 < a)%Q -> (a <= b)%Q ->
  (p * Fin a <=? p * Fin b) = true.
Proof.
  intros Hp Ha Hab.
  assert (Ea : Qeq_bool a 0 = false) by (apply Qeq_bool_false; lra).
  assert (Eb : Qeq_bool b 0 = false) by (apply Qeq_bool_false; lra).
  assert (Fa : Qltb 0 a = true) by (q_bools; lra).
  assert (Fb : Qltb 0 b = true) by (q_bools; lra).
  destruct p as [| | | q]; simpl in *; try discriminate.
  - rewrite Ea, Eb, Fa, Fb. reflexivity.
  - q_bools. rewrite (Qmult_comm q a), (Qmult_comm q b).
    apply Qmult_le_compat_r; assumption.
Qed.

Lemma rounded_factor_mono (p : float) (a b : Q) (n : nat) :
  (Fin 0 <=? p) = true -> (0 < a)%Q -> (a <= b)%Q ->
  (py_round (p * Fin a) n <=? py_round (p * Fin b) n) = true.
Proof.
  intros. apply py_round_mono. apply fmul_factor_mono; assumption.
Qed.

Lemma generate_signals_origin (data : dict (list Row)) (top_n : Z) (s : TradeSignal) :
  In s (generate_signals data top_n) ->
  exists sym table latest,
    In (sym, table) data /\ latest_of table = Some latest
    /\ ((_buy_score latest >=? Fin 55) = true
        /\ s = buy_signal sym latest (Close latest) (_buy_score latest)
        \/ (_sell_score latest >=? Fin 55) = true
           /\ s = sell_signal sym latest (Close latest) (_sell_score latest)).
Proof.
  intro H. apply generate_signals_In in H. rewrite candidates_emitted in H.
  cbn [fst snd] in H.
  destruct H as [H | H]; apply in_flat_map in H; destruct H as [[sym table] [Hin H]].
  - apply emitted_buy_inv in H. cbn [fst snd] in H.
    destruct H as [latest [H1 [H2 H3]]]. exists sym, table, latest. auto.
  - apply emitted_sell_inv in H. cbn [fst snd] in H.
    destruct H as [latest [H1 [H2 H3]]]. exists sym, table, latest. auto.
Qed.

(** For every signal the generator returns whose price is not negative,
    the price levels are ordered: a BUY has its stop-loss below its entry
    band below its target, a SELL has its target below its entry band
    below its stop-loss (all read after rounding to two places). *)
Theorem signal_levels_ordered (data : dict (list Row)) (top_n : Z)
    (s : TradeSignal) :
  In s (generate_signals data top_n) ->
  (Fin 0 <=? current_price s) = true ->
  match signal s with
  | BUY => levels_ascending (stop_loss s) (fst (entry_zone s))
                            (snd (entry_zone s)) (target_price s)
  | SELL => levels_ascending (target_price s) (fst (entry_zone s))
                             (snd (entry_zone s)) (stop_loss s)
  end.
Proof.
  intros Hin Hp. apply generate_signals_origin in Hin.
  destruct Hin as [sym [table [latest [_ [_ [[_ ->] | [_ ->]]]]]]];
    cbn [signal buy_signal sell_signal current_price stop_loss entry_zone
         target_price fst snd] in *;
    unfold levels_ascending; repeat split;
    apply rounded_factor_mono; try exact Hp; lra.
Qed.

(** On the five-candidate mapping every returned signal is a BUY at price
    100 with stop-loss 97, entry band 99 to 101 and target 105. *)
Lemma signal_levels_ordered_witness :
  Forall (fun s =>
            feq (stop_loss s) (Fin 97) /\ feq (fst (entry_zone s)) (Fin 99)
            /\ feq (snd (entry_zone s)) (Fin 101) /\ feq (target_price s) (Fin 105)
            /\ levels_ascending (stop_loss s) (fst (entry_zone s))
                                (snd (entry_zone s)) (target_price s))
         (generate_signals five_buys 2).
Proof.
  apply Forall_forall. intros s Hs.
  pose proof (signal_levels_ordered five_buys 2 s Hs) as H.
  vm_compute in Hs. destruct Hs as [<- | [<- | []]].
  - repeat split; try (vm_compute; reflexivity); apply H; vm_compute; reflexivity.
  - repeat split; try (vm_compute; reflexivity); apply H; vm_compute; reflexivity.
Defined.

Lemma flt_asym (x y : float) : (x <? y) && (y <? x) = false.
Proof.
  destruct x as [| | | a], y as [| | | b]; simpl; try reflexivity.
  destruct (Qltb a b) eqn:E1, (Qltb b a) eqn:E2; try reflexivity.
  q_bools. lra.
Qed.

Lemma iverson_range (c : bool) (w : Q) : (0 <= w)%Q -> (0 <= iverson c w <= w)%Q.
Proof. intro H. destruct c; simpl; lra. Qed.

Lemma iverson_exclusive (c1 c2 : bool) (w : Q) :
  c1 && c2 = false -> (0 <= w)%Q -> (iverson c1 w + iverson c2 w <= w)%Q.
Proof. intros H Hw. destruct c1, c2; simpl in *; try discriminate; lra. Qed.

Lemma rsi_bands_exclusive (r : float) :
  ((Fin 40 <=? r) && (r <=? Fin 70)) && (r >? Fin 75) = false.
Proof.
  unfold fgt. destruct r as [| | | q]; simpl; try reflexivity.
  destruct (Qle_bool 40 q), (Qle_bool q 70) eqn:E1, (Qltb 75 q) eqn:E2;
    try reflexivity.
  q_bools. lra.
Qed.

(** The five-day momentum adds to one side only. *)
Lemma momentum_exclusive (x : float) :
  is_nan x = false ->
  exists cb cs,
    clamp x (Fin 0) (Fin 10) = Fin cb
    /\ py_min (py_abs (py_min x (Fin 0))) (Fin 10) = Fin cs
    /\ (0 <= cb)%Q /\ (0 <= cs)%Q /\ (cb + cs <= 10)%Q.
Proof.
  intro Hx. unfold clamp, py_min, py_abs.
  destruct x as [| | | q]; simpl in *; try discriminate.
  - exists 0%Q, 10%Q. repeat split; lra.
  - exists 10%Q, (Qabs 0). repeat split; try lra; vm_compute; congruence.
  - destruct (Qltb 0 q) eqn:E0; simpl.
    + assert (E1 : Qltb q 0 = false) by (q_bools; lra). rewrite E1.
      assert (E2 : Qltb 10 (Qabs 0) = false) by reflexivity.
      destruct (Qltb 10 q) eqn:E3; q_bools.
      * exists 10%Q, (Qabs 0). repeat split; try lra; vm_compute; congruence.
      * exists q, (Qabs 0). repeat split; try lra;
          try (vm_compute; congruence).
        change (Qabs 0) with 0%Q. lra.
    + q_bools. pose proof (Qabs_nonneg q) as Hn.
      destruct (Qltb q 0) eqn:E1.
      * destruct (Qltb 10 (Qabs q)) eqn:E2; q_bools.
        -- exists 0%Q, 10%Q. repeat split; lra.
        -- exists 0%Q, (Qabs q). repeat split; lra.
      * q_bools. assert (Hq : (q == 0)%Q) by lra.
        assert (E3 : Qltb 10 q = false) by (q_bools; lra). rewrite E3.
        assert (Ha : (Qabs q == 0)%Q) by (rewrite Hq; reflexivity).
        assert (E2 : Qltb 10 (Qabs q) = false) by (q_bools; lra). rewrite E2.
        exists q, (Qabs q). repeat split; lra.
Qed.

(** The BUY and the SELL score of an enriched row add up to at most 115:
    apart from the volume condition, what counts for one side is lost to
    the other.  A row therefore qualifies for both directions only when
    both scores lie between 55 and 60. *)
Theorem scores_sum_at_most_115 (row : Row) :
  row_has_null row = false ->
  exists b s,
    _buy_score row = Fin b /\ _sell_score row = Fin s
    /\ (b + s <= 115)%Q
    /\ ((55 <= b)%Q -> (55 <= s)%Q -> (b <= 60)%Q /\ (s <= 60)%Q).
Proof.
  intro Hrow.
  pose proof (row_has_null_ret5d row Hrow) as Hret.
  destruct (momentum_exclusive (Ret5D row * Fin 100)) as [cb [cs [Hb [Hs [H0 [H1 H2]]]]]].
  { apply fmul_not_nan; [| exact Hret]. intro H. discriminate H. }
  set (b1 := SMA20 row >? SMA50 row). set (s1 := SMA20 row <? SMA50 row).
  set (b2 := SMA50 row >? SMA200 row). set (s2 := SMA50 row <? SMA200 row).
  set (b3 := (Fin 40 <=? RSI14 row) && (RSI14 row <=? Fin 70)).
  set (s3 := RSI14 row >? Fin 75).
  set (b4 := MACD row >? MACDSignal row). set (s4 := MACD row <? MACDSignal row).
  set (b5 := VolumeRatio row >? Fin 1.2).
  set (s5 := (VolumeRatio row >? Fin 1.2) && (Ret1D row <? Fin 0)).
  exists (0 + iverson b1 20 + iverson b2 15 + iverson b3 20 + iverson b4 20
          + iverson b5 15 + cb)%Q,
         (0 + iverson s3 20 + iverson s1 20 + iverson s2 15 + iverson s4 20
          + iverson s5 15 + cs)%Q.
  assert (Hsum :
    (0 + iverson b1 20 + iverson b2 15 + iverson b3 20 + iverson b4 20
     + iverson b5 15 + cb
     + (0 + iverson s3 20 + iverson s1 20 + iverson s2 15 + iverson s4 20
        + iverson s5 15 + cs) <= 115)%Q).
  { pose proof (iverson_exclusive b1 s1 20 (flt_asym _ _)) as P1.
    pose proof (iverson_exclusive b2 s2 15 (flt_asym _ _)) as P2.
    pose proof (iverson_exclusive b3 s3 20 (rsi_bands_exclusive _)) as P3.
    pose proof (iverson_exclusive b4 s4 20 (flt_asym _ _)) as P4.
    pose proof (iverson_range b5 15) as P5. pose proof (iverson_range s5 15) as P6.
    lra. }
  split; [| split; [| split]].
  - rewrite buy_score_unfold, Hb. fold b1 b2 b3 b4 b5.
    destruct b1, b2, b3, b4, b5; reflexivity.
  - unfold _sell_score. rewrite Hs. fold s1 s2 s3 s4 s5.
    destruct s1, s2, s3, s4, s5; reflexivity.
  - exact Hsum.
  - intros Hb55 Hs55. lra.
Qed.

(** The row of the dual table scores 55 and 60. *)
Lemma scores_sum_at_most_115_witness :
  feq (_buy_score (dual_row 100)) (Fin 55)
  /\ feq (_sell_score (dual_row 100)) (Fin 60)
  /\ exists b s,
       _buy_score (dual_row 100) = Fin b /\ _sell_score (dual_row 100) = Fin s
       /\ (b + s <= 115)%Q
       /\ ((55 <= b)%Q -> (55 <= s)%Q -> (b <= 60)%Q /\ (s <= 60)%Q).
Proof.
  split; [vm_compute; reflexivity |]. split; [vm_compute; reflexivity |].
  apply (scores_sum_at_most_115 (dual_row 100)). reflexivity.
Defined.

Lemma nodup_keys_filter {V : Type} (f : string * V -> bool) (d : dict V) :
  NoDup (keys d) -> NoDup (keys (filter f d)).
Proof.
  unfold keys. induction d as [| [k v] d IH]; simpl; intro H.
  - constructor.
  - inversion H as [| ? ? Hnotin Hnd]; subst.
    destruct (f (k, v)); simpl; [| apply IH; exact Hnd].
    constructor; [| apply IH; exact Hnd].
    intro Hin. apply Hnotin. apply in_map_iff in Hin.
    destruct Hin as [x [Hx Hin]]. apply filter_In in Hin.
    apply in_map_iff. exists x. tauto.
Qed.

Lemma NoDup_firstn {A : Type} (n : nat) (l : list A) :
  NoDup l -> NoDup (firstn n l).
Proof.
  intro H. rewrite <- (firstn_skipn n l) in H.
  apply NoDup_app_remove_r in H. exact H.
Qed.

Lemma NoDup_slice_to {A : Type} (l : list A) (n : Z) :
  NoDup l -> NoDup (slice_to l n).
Proof. unfold slice_to. destruct (0 <=? n)%Z; apply NoDup_firstn. Qed.

Lemma slice_to_map {A B : Type} (f : A -> B) (l : list A) (n : Z) :
  map f (slice_to l n) = slice_to (map f l) n.
Proof.
  unfold slice_to. rewrite length_map.
  destruct (0 <=? n)%Z; symmetry; apply firstn_map.
Qed.

Lemma ranked_symbols_nodup (cands : list TradeSignal) (top_n : Z) :
  NoDup (map symbol cands) ->
  NoDup (map symbol (slice_to (sorted_desc signal_score cands) top_n)).
Proof.
  intro H. rewrite slice_to_map. apply NoDup_slice_to.
  apply (Permutation_NoDup (l := map symbol cands)); [| exact H].
  apply Permutation_map. apply Permutation_sym. apply stable_sort_perm.
Qed.

(** What the generator returns, on a mapping with distinct symbols: the
    BUY signals first, then the SELL signals; within a direction no symbol
    twice; and every signal is the one of a symbol of the mapping with a
    table that is not empty, priced at the close of that table's last row
    and scored by that row. *)
Theorem returned_signals_well_formed (data : dict (list Row)) (top_n : Z) :
  NoDup (keys data) ->
  (exists buys sells,
     generate_signals data top_n = (buys ++ sells)%list
     /\ Forall is_buy buys /\ Forall is_sell sells
     /\ NoDup (map symbol buys) /\ NoDup (map symbol sells))
  /\ forall s, In s (generate_signals data top_n) ->
       exists table latest,
         In (symbol s, table) data /\ latest_of table = Some latest
         /\ current_price s = Close latest
         /\ match signal s with
            | BUY => signal_score s = _buy_score latest
            | SELL => signal_score s = _sell_score latest
            end.
Proof.
  intro Hnd. split.
  - exists (slice_to (sorted_desc signal_score (fst (candidates data))) top_n),
           (slice_to (sorted_desc signal_score (snd (candidates data))) top_n).
    split; [apply generate_signals_eq |].
    rewrite candidates_emitted. cbn [fst snd].
    split; [| split; [| split]].
    + apply Forall_forall. intros s Hs. apply slice_to_In in Hs.
      apply (Permutation_in _ (stable_sort_perm _ _)) in Hs.
      apply in_flat_map in Hs. destruct Hs as [item [_ Hs]].
      apply emitted_buy_inv in Hs. destruct Hs as [latest [_ [_ ->]]]. reflexivity.
    + apply Forall_forall. intros s Hs. apply slice_to_In in Hs.
      apply (Permutation_in _ (stable_sort_perm _ _)) in Hs.
      apply in_flat_map in Hs. destruct Hs as [item [_ Hs]].
      apply emitted_sell_inv in Hs. destruct Hs as [latest [_ [_ ->]]]. reflexivity.
    + apply ranked_symbols_nodup. rewrite candidates_keys_buy.
      apply nodup_keys_filter. exact Hnd.
    + apply ranked_symbols_nodup. rewrite candidates_keys_sell.
      apply nodup_keys_filter. exact Hnd.
  - intros s Hs. apply generate_signals_origin in Hs.
    destruct Hs as [sym [table [latest [Hin [Hlat [[_ ->] | [_ ->]]]]]]];
      exists table, latest; repeat split; assumption.
Qed.

Lemma five_buys_keys : NoDup (keys five_buys).
Proof.
  unfold keys, five_buys. simpl.
  repeat constructor; simpl; intuition discriminate.
Qed.

(** On the five-candidate mapping with a cap of 2: two BUY signals, no
    SELL signal. *)
Lemma returned_signals_well_formed_witness :
  exists buys sells,
    generate_signals five_buys 2 = (buys ++ sells)%list
    /\ Forall is_buy buys /\ Forall is_sell sells
    /\ NoDup (map symbol buys) /\ NoDup (map symbol sells).
Proof.
  exact (proj1 (returned_signals_well_formed five_buys 2 five_buys_keys)).
Defined.

(* ------------------------------------------------------------------ *)
(** ** The risk mapping *)

Lemma dict_get_set_same {V : Type} (d : dict V) (k : string) (v : V) :
  dict_get (dict_set d k v) k = Some v.
Proof.
  induction d as [| [k' v'] d IH]; simpl.
  - rewrite String.eqb_refl. reflexivity.
  - destruct (String.eqb k' k) eqn:E; simpl; rewrite E; [reflexivity | exact IH].
Qed.

Lemma dict_get_set_other {V : Type} (d : dict V) (k k' : string) (v : V) :
  k <> k' -> dict_get (dict_set d k v) k' = dict_get d k'.
Proof.
  intro Hne. induction d as [| [k0 v0] d IH]; simpl.
  - destruct (String.eqb k k') eqn:E; [| reflexivity].
    apply String.eqb_eq in E. contradiction.
  - destruct (String.eqb k0 k) eqn:E; simpl.
    + apply String.eqb_eq in E. subst k0.
      destruct (String.eqb k k') eqn:E'; [| reflexivity].
      apply String.eqb_eq in E'. contradiction.
    + destruct (String.eqb k0 k'); [reflexivity | exact IH].
Qed.

Lemma In_dict_get {V : Type} (d : dict V) (k : string) (v : V) :
  In (k, v) d -> exists v', dict_get d k = Some v'.
Proof.
  induction d as [| [k0 v0] d IH]; simpl; intro H; [contradiction |].
  destruct (String.eqb k0 k) eqn:E; [eauto |].
  destruct H as [H | H]; [| auto].
  inversion H; subst. rewrite String.eqb_refl in E. discriminate.
Qed.

(** The comprehension from any starting dict: keys no signal names are
    untouched, and the entry of a symbol is the profile of the last signal
    that names it. *)
Lemma batch_evaluate_from_spec (lib : TaLib) (data : dict (list Row))
    (signals : list TradeSignal) :
  forall (acc risks : dict RiskProfile),
    batch_evaluate_from lib acc signals data = Ok risks ->
    (forall sym, ~ In sym (map symbol signals) ->
                 dict_get risks sym = dict_get acc sym)
    /\ (forall sym, dict_get acc sym <> None -> dict_get risks sym <> None)
    /\ (forall pre s post,
          signals = (pre ++ s :: post)%list ->
          ~ In (symbol s) (map symbol post) ->
          exists table risk,
            dict_get data (symbol s) = Some table
            /\ evaluate_risk lib s table = Ok risk
            /\ dict_get risks (symbol s) = Some risk).
Proof.
  induction signals as [| s0 rest IH]; intros acc risks H; cbn [batch_evaluate_from] in H.
  - inversion H; subst. split; [auto |]. split; [auto |].
    intros pre s post Hs. destruct pre; discriminate.
  - unfold dict_item in H.
    destruct (dict_get data (symbol s0)) as [table |] eqn:Ed; cbn [bind] in H;
      [| discriminate].
    destruct (evaluate_risk lib s0 table) as [r0 |] eqn:Er; cbn [bind] in H;
      [| discriminate].
    destruct (IH _ _ H) as [Ha [Hm Hb]].
    split; [| split].
    + intros sym Hnot. simpl in Hnot.
      rewrite Ha by tauto. apply dict_get_set_other. tauto.
    + intros sym Hacc. apply Hm.
      destruct (string_dec (symbol s0) sym) as [<- | Hne].
      * rewrite dict_get_set_same. discriminate.
      * rewrite dict_get_set_other by exact Hne. exact Hacc.
    + intros pre s post Hs Hnot. destruct pre as [| p pre]; simpl in Hs.
      * inversion Hs; subst. exists table, r0.
        split; [exact Ed |]. split; [exact Er |].
        rewrite Ha by exact Hnot. apply dict_get_set_same.
      * inversion Hs; subst. apply (Hb pre s post); [reflexivity | exact Hnot].
Qed.

(** When [batch_evaluate] returns, the mapping has an entry exactly for
    the symbols the signals name, and the entry of a symbol is the profile
    computed from the last signal that names it: an earlier signal on the
    same symbol leaves no trace. *)
Theorem batch_evaluate_keeps_last (lib : TaLib) (signals : list TradeSignal)
    (data : dict (list Row)) (risks : dict RiskProfile) :
  batch_evaluate lib signals data = Ok risks ->
  (forall sym, dict_get risks sym <> None <-> In sym (map symbol signals))
  /\ forall pre s post,
       signals = (pre ++ s :: post)%list ->
       ~ In (symbol s) (map symbol post) ->
       exists table risk,
         dict_get data (symbol s) = Some table
         /\ evaluate_risk lib s table = Ok risk
         /\ dict_get risks (symbol s) = Some risk
         /\ risk_stop_loss risk = stop_loss s.
Proof.
  intro H. unfold batch_evaluate in H.
  destruct (batch_evaluate_from_spec lib data signals [] risks H) as [Ha [_ Hb]].
  assert (Hlast : forall pre s post,
             signals = (pre ++ s :: post)%list ->
             ~ In (symbol s) (map symbol post) ->
             exists table risk,
               dict_get data (symbol s) = Some table
               /\ evaluate_risk lib s table = Ok risk
               /\ dict_get risks (symbol s) = Some risk
               /\ risk_stop_loss risk = stop_loss s).
  { intros pre s post Hs Hnot.
    destruct (Hb pre s post Hs Hnot) as [table [risk [H1 [H2 H3]]]].
    exists table, risk. repeat split; try assumption.
    destruct (evaluate_risk_ok lib s table) as [risk' [H2' [Hstop _]]].
    congruence. }
  split; [| exact Hlast].
  intro sym. split.
  - intro Hsome.
    destruct (in_dec string_dec sym (map symbol signals)) as [Hin | Hnot];
      [exact Hin |].
    rewrite (Ha sym Hnot) in Hsome. simpl in Hsome. congruence.
  - intro Hin.
    (* the last signal naming [sym] *)
    assert (Hsplit : exists pre s post,
               signals = (pre ++ s :: post)%list /\ symbol s = sym
               /\ ~ In sym (map symbol post)).
    { clear - Hin. induction signals as [| s0 rest IH]; [contradiction |].
      destruct (in_dec string_dec sym (map symbol rest)) as [Hr | Hr].
      - destruct (IH Hr) as [pre [s [post [-> [Hs Hp]]]]].
        exists (s0 :: pre), s, post. auto.
      - simpl in Hin. destruct Hin as [Hs | Hs]; [| contradiction].
        exists [], s0, rest. auto. }
    destruct Hsplit as [pre [s [post [Hs [<- Hp]]]]].
    destruct (Hlast pre s post Hs Hp) as [table [risk [_ [_ [Hget _]]]]].
    rewrite Hget. discriminate.
Qed.

(** The BUY and the SELL signal of the dual table: the one entry is the
    SELL signal's profile, with the SELL stop-loss. *)
Lemma batch_evaluate_keeps_last_witness :
  exists risks risk,
    batch_evaluate stand_in_lib [dual_buy; dual_sell] dual_data = Ok risks
    /\ dict_get risks "DUAL" = Some risk
    /\ evaluate_risk stand_in_lib dual_sell dual_table = Ok risk
    /\ risk_stop_loss risk = stop_loss dual_sell.
Proof.
  destruct (batch_evaluate stand_in_lib [dual_buy; dual_sell] dual_data)
    as [risks | e] eqn:E; [| vm_compute in E; discriminate].
  destruct (batch_evaluate_keeps_last stand_in_lib _ _ risks E) as [_ H].
  destruct (H [dual_buy] dual_sell [] eq_refl) as [table [risk [H1 [H2 [H3 H4]]]]].
  { simpl. tauto. }
  exists risks, risk. split; [reflexivity |].
  change (symbol dual_sell) with "DUAL"%string in *.
  assert (Ht : table = dual_table).
  { vm_compute in H1. injection H1 as <-. reflexivity. }
  subst table. auto.
Defined.

Lemma batch_evaluate_from_outcome (lib : TaLib) (signals : list TradeSignal)
    (data : dict (list Row)) :
  forall acc : dict RiskProfile,
    (Forall (fun s => dict_get data (symbol s) <> None) signals ->
     exists risks, batch_evaluate_from lib acc signals data = Ok risks)
    /\ forall pre s post,
         signals = (pre ++ s :: post)%list ->
         Forall (fun s' => dict_get data (symbol s') <> None) pre ->
         dict_get data (symbol s) = None ->
         batch_evaluate_from lib acc signals data = Raise (KeyError (symbol s)).
Proof.
  induction signals as [| s0 rest IH]; intro acc.
  - split; [intros _; eexists; reflexivity |].
    intros pre s post Hs. destruct pre; discriminate.
  - split.
    + intro Hall. inversion Hall as [| ? ? H0 Hrest]; subst.
      cbn [batch_evaluate_from]. unfold dict_item.
      destruct (dict_get data (symbol s0)) as [table |]; [| congruence].
      cbn [bind]. destruct (evaluate_risk_ok lib s0 table) as [r [-> _]].
      cbn [bind]. apply IH. exact Hrest.
    + intros pre s post Hs Hpre Hmiss. cbn [batch_evaluate_from]. unfold dict_item.
      destruct pre as [| p pre]; simpl in Hs; inversion Hs; subst.
      * rewrite Hmiss. reflexivity.
      * inversion Hpre as [| ? ? H0 Hrest]; subst.
        destruct (dict_get data (symbol p)) as [table |]; [| congruence].
        cbn [bind]. destruct (evaluate_risk_ok lib p table) as [r [-> _]].
        cbn [bind]. apply (proj2 (IH _) pre s post); auto.
Qed.

(** [batch_evaluate] raises only on a signal whose symbol the enriched
    mapping lacks, and then with a KeyError naming the first such symbol;
    when every signal's symbol is in the mapping it returns. *)
Theorem batch_evaluate_raises_on_missing_symbol (lib : TaLib)
    (signals : list TradeSignal) (data : dict (list Row)) :
  (Forall (fun s => dict_get data (symbol s) <> None) signals ->
   exists risks, batch_evaluate lib signals data = Ok risks)
  /\ forall pre s post,
       signals = (pre ++ s :: post)%list ->
       Forall (fun s' => dict_get data (symbol s') <> None) pre ->
       dict_get data (symbol s) = None ->
       batch_evaluate lib signals data = Raise (KeyError (symbol s)).
Proof.
  unfold batch_evaluate. apply batch_evaluate_from_outcome.
Qed.

(* ------------------------------------------------------------------ *)
(** ** The report *)

Lemma report_rows_outcome (signals : list TradeSignal) (risks : dict RiskProfile)
    (probabilities : dict ProbabilityEstimate) :
  (Forall (fun s => dict_get risks (symbol s) <> None
                    /\ dict_get probabilities (symbol s) <> None) signals ->
   exists rows,
     report_rows signals risks probabilities = Ok rows
     /\ Forall2 (fun s row =>
                   exists risk prob,
                     dict_get risks (symbol s) = Some risk
                     /\ dict_get probabilities (symbol s) = Some prob
                     /\ row = report_row s risk prob) signals rows)
  /\ forall pre s post,
       signals = (pre ++ s :: post)%list ->
       dict_get risks (symbol s) = None
       \/ dict_get probabilities (symbol s) = None ->
       Forall (fun s' => dict_get risks (symbol s') <> None
                         /\ dict_get probabilities (symbol s') <> None) pre ->
       report_rows signals risks probabilities = Raise (KeyError (symbol s)).
Proof.
  induction signals as [| s0 rest [IHok IHraise]].
  - split.
    + intros _. exists []. split; [reflexivity | constructor].
    + intros pre s post Hs. destruct pre; discriminate.
  - split.
    + intro Hall. inversion Hall as [| ? ? [Hr Hp] Hrest]; subst.
      destruct (IHok Hrest) as [rows [Hrows Hf]].
      cbn [report_rows]. unfold dict_item.
      destruct (dict_get risks (symbol s0)) as [risk |] eqn:Er; [| congruence].
      destruct (dict_get probabilities (symbol s0)) as [prob |] eqn:Ep; [| congruence].
      cbn [bind]. rewrite Hrows. cbn [bind].
      eexists. split; [reflexivity |].
      constructor; [| exact Hf]. exists risk, prob. auto.
    + intros pre s post Hs Hmiss Hpre. cbn [report_rows]. unfold dict_item.
      destruct pre as [| p pre]; simpl in Hs; inversion Hs; subst.
      * destruct (dict_get risks (symbol s)) as [risk |]; cbn [bind]; [| reflexivity].
        destruct Hmiss as [Hm | Hm]; [discriminate |]. rewrite Hm. reflexivity.
      * inversion Hpre as [| ? ? [Hr Hp] Hrest]; subst.
        destruct (dict_get risks (symbol p)) as [risk |]; [| congruence].
        destruct (dict_get probabilities (symbol p)) as [prob |]; [| congruence].
        cbn [bind]. rewrite (IHraise pre s post eq_refl Hmiss Hrest). reflexivity.
Qed.

(** Sorting by a strict order that is asymmetric and whose complement is
    transitive (on the elements at hand) leaves no element strictly after
    one it must precede. *)
Lemma stable_sort_sorted {A : Type} (before : A -> A -> bool) (P : A -> Prop)
    (l : list A) :
  (forall a b, P a -> P b -> before a b = true -> before b a = false) ->
  (forall a b c, P a -> P b -> P c ->
                 before b a = false -> before c b = false -> before c a = false) ->
  Forall P l ->
  StronglySorted (fun a b => before b a = false) (stable_sort before l).
Proof.
  intros Hasym Htrans. unfold stable_sort.
  induction l as [| x l IH]; intro Hl; simpl; [constructor |].
  inversion Hl as [| ? ? Hx Hl']; subst. specialize (IH Hl').
  assert (HP : Forall P (fold_right (insert_by before) [] l)).
  { apply Forall_forall. intros y Hy.
    apply (Permutation_in _ (stable_sort_perm before l)) in Hy.
    rewrite Forall_forall in Hl'. auto. }
  revert IH HP. generalize (fold_right (insert_by before) [] l) as sorted.
  intros sorted Hs. induction Hs as [| y rest Hs IH Hy]; intro HP; simpl.
  - constructor; constructor.
  - inversion HP as [| ? ? Py HP']; subst.
    destruct (before y x) eqn:E.
    + constructor; [apply IH; exact HP' |].
      apply Forall_forall. intros z Hz.
      apply (Permutation_in _ (insert_by_perm before x rest)) in Hz.
      destruct Hz as [<- | Hz].
      * apply Hasym; assumption.
      * rewrite Forall_forall in Hy. apply Hy. exact Hz.
    + constructor; [constructor; assumption |].
      constructor; [exact E |].
      apply Forall_forall. intros z Hz.
      rewrite Forall_forall in Hy, HP'.
      apply (Htrans x y z); auto.
Qed.

Lemma report_before_asym (a b : ReportRow) :
  report_before a b = true -> report_before b a = false.
Proof.
  unfold report_before, desc_before, fgt.
  destruct (row_signal a), (row_signal b); simpl; try discriminate; try reflexivity;
    destruct (row_probability a) as [| | | p], (row_probability b) as [| | | q];
    simpl; try discriminate; try reflexivity;
    rewrite !orb_false_r; intro H; q_bools; lra.
Qed.

Lemma report_before_trans (a b c : ReportRow) :
  is_nan (row_probability a) = false -> is_nan (row_probability b) = false ->
  is_nan (row_probability c) = false ->
  report_before b a = false -> report_before c b = false ->
  report_before c a = false.
Proof.
  unfold report_before, desc_before, fgt.
  destruct (row_signal a), (row_signal b), (row_signal c); simpl;
    try discriminate; try reflexivity;
    destruct (row_probability a) as [| | | p], (row_probability b) as [| | | q],
             (row_probability c) as [| | | r];
    simpl; try discriminate; try reflexivity;
    rewrite ?orb_false_r; intros _ _ _ H1 H2; q_bools; lra.
Qed.

Lemma report_before_ordered (a b : ReportRow) :
  is_nan (row_probability a) = false -> is_nan (row_probability b) = false ->
  report_before b a = false -> report_ordered a b.
Proof.
  unfold report_before, desc_before, report_ordered, fgt, fge.
  intros Ha Hb H. rewrite Ha, andb_false_r, orb_false_r in H.
  apply orb_false_iff in H. destruct H as [H1 H2].
  split.
  - intro Hs. rewrite Hs in H1. destruct (row_signal b); [discriminate | reflexivity].
  - intro Hs. rewrite Hs in H2.
    assert (E : signal_eqb (row_signal b) (row_signal b) = true)
      by (destruct (row_signal b); reflexivity).
    rewrite E in H2. simpl in H2. apply flt_false_fle; assumption.
Qed.

Lemma report_rows_inv (signals : list TradeSignal) (risks : dict RiskProfile)
    (probabilities : dict ProbabilityEstimate) :
  forall rows,
    report_rows signals risks probabilities = Ok rows ->
    Forall2 (fun s row =>
               exists risk prob,
                 dict_get risks (symbol s) = Some risk
                 /\ dict_get probabilities (symbol s) = Some prob
                 /\ row = report_row s risk prob) signals rows.
Proof.
  induction signals as [| s0 rest IH]; intros rows H; cbn [report_rows] in H.
  - inversion H. constructor.
  - unfold dict_item in H.
    destruct (dict_get risks (symbol s0)) as [risk |] eqn:Er; cbn [bind] in H;
      [| discriminate].
    destruct (dict_get probabilities (symbol s0)) as [prob |] eqn:Ep; cbn [bind] in H;
      [| discriminate].
    destruct (report_rows rest risks probabilities) as [rows' |]; cbn [bind] in H;
      [| discriminate].
    inversion H; subst. constructor; [| apply IH; reflexivity].
    exists risk, prob. auto.
Qed.

Lemma build_report_dataframe_eq (signals : list TradeSignal)
    (risks : dict RiskProfile) (probabilities : dict ProbabilityEstimate) :
  build_report_dataframe signals risks probabilities =
  rows <- report_rows signals risks probabilities ;;
  Ok (stable_sort report_before rows).
Proof.
  unfold build_report_dataframe.
  destruct (report_rows signals risks probabilities) as [[| r rows] |]; reflexivity.
Qed.

Lemma StronglySorted_weaken {A : Type} (R R' : A -> A -> Prop) (P : A -> Prop)
    (l : list A) :
  (forall a b, P a -> P b -> R a b -> R' a b) ->
  Forall P l -> StronglySorted R l -> StronglySorted R' l.
Proof.
  intros Himp HP Hs. induction Hs as [| x l Hs IH Hx]; [constructor |].
  inversion HP as [| ? ? Px HP']; subst.
  constructor; [apply IH; exact HP' |].
  rewrite Forall_forall in *. intros y Hy. apply Himp; auto.
Qed.

(** When every probability is a number, the report is the rows of the
    signals, one per signal, rearranged so that BUY rows come before SELL
    rows and, within a direction, probabilities never increase down the
    table. *)
Theorem report_is_sorted (signals : list TradeSignal) (risks : dict RiskProfile)
    (probabilities : dict ProbabilityEstimate) (report : list ReportRow) :
  Forall (fun entry => is_nan (probability (snd entry)) = false) probabilities ->
  build_report_dataframe signals risks probabilities = Ok report ->
  StronglySorted report_ordered report
  /\ exists rows,
       Permutation report rows
       /\ Forall2 (fun s row =>
                     exists risk prob,
                       dict_get risks (symbol s) = Some risk
                       /\ dict_get probabilities (symbol s) = Some prob
                       /\ row = report_row s risk prob) signals rows.
Proof.
  intros Hnum H. rewrite build_report_dataframe_eq in H.
  destruct (report_rows signals risks probabilities) as [rows |] eqn:Er;
    cbn [bind] in H; [| discriminate].
  inversion H; subst. pose proof (report_rows_inv _ _ _ rows Er) as Hrows.
  assert (HP : Forall (fun r => is_nan (row_probability r) = false) rows).
  { clear - Hrows Hnum. induction Hrows as [| s row ss rows [risk [prob [_ [Hp ->]]]] _ IH];
      constructor; [| exact IH].
    apply dict_get_In in Hp. rewrite Forall_forall in Hnum.
    apply (Hnum _ Hp). }
  split.
  - apply (StronglySorted_weaken (fun a b => report_before b a = false) _
             (fun r => is_nan (row_probability r) = false)).
    + intros a b. apply report_before_ordered.
    + apply Forall_forall. intros r Hr.
      apply (Permutation_in _ (stable_sort_perm _ _)) in Hr.
      rewrite Forall_forall in HP. auto.
    + apply (stable_sort_sorted report_before
               (fun r => is_nan (row_probability r) = false)).
      * intros a b _ _. apply report_before_asym.
      * intros a b c. apply report_before_trans.
      * exact HP.
  - exists rows. split; [apply stable_sort_perm | exact Hrows].
Qed.

(** [build_report_dataframe] returns as soon as every signal's symbol has
    a risk profile and a probability; otherwise it raises a KeyError naming
    the first signal's symbol that lacks one. *)
Theorem report_raises_on_missing_entry (signals : list TradeSignal)
    (risks : dict RiskProfile) (probabilities : dict ProbabilityEstimate) :
  (Forall (fun s => dict_get risks (symbol s) <> None
                    /\ dict_get probabilities (symbol s) <> None) signals ->
   exists report,
     build_report_dataframe signals risks probabilities = Ok report
     /\ List.length report = List.length signals)
  /\ forall pre s post,
       signals = (pre ++ s :: post)%list ->
       dict_get risks (symbol s) = None
       \/ dict_get probabilities (symbol s) = None ->
       Forall (fun s' => dict_get risks (symbol s') <> None
                         /\ dict_get probabilities (symbol s') <> None) pre ->
       build_report_dataframe signals risks probabilities
       = Raise (KeyError (symbol s)).
Proof.
  rewrite build_report_dataframe_eq.
  destruct (report_rows_outcome signals risks probabilities) as [Hok Hraise].
  split.
  - intro Hall. destruct (Hok Hall) as [rows [-> Hf]]. cbn [bind].
    eexists. split; [reflexivity |].
    rewrite (Permutation_length (stable_sort_perm _ _)).
    symmetry. apply (Forall2_length Hf).
  - intros pre s post Hs Hmiss Hpre.
    rewrite (Hraise pre s post Hs Hmiss Hpre). reflexivity.
Qed.

(** Three signals given SELL first: the report puts the two BUY rows first,
    the higher probability on top, and the SELL row last. *)
Lemma report_is_sorted_witness :
  exists report,
    build_report_dataframe unsorted_signals sample_risks sample_probabilities
    = Ok report
    /\ map stock_name report = ["STRONG"%string; "MARGINAL"%string; "DUAL"%string]
    /\ StronglySorted report_ordered report.
Proof.
  eexists. split; [vm_compute; reflexivity |].
  split; [reflexivity |].
  refine (proj1 (report_is_sorted unsorted_signals sample_risks
                   sample_probabilities _ _ _)).
  - repeat constructor.
  - vm_compute. reflexivity.
Defined.

(* ------------------------------------------------------------------ *)
(** ** The run after data collection *)

Lemma probability_is_number (sig : TradeSignal) (risk : RiskProfile) :
  (signal_score sig >=? Fin 55) = true ->
  is_finite (trend_stability risk) = true ->
  is_nan (probability (estimate_probability sig risk)) = false.
Proof.
  unfold estimate_probability, fge, py_min. cbn [probability]. intros Hs Ht.
  destruct (trend_stability risk) as [| | | t]; try discriminate.
  destruct (risk_level risk); destruct (signal_score sig) as [| | | q];
    simpl in *; try discriminate; try reflexivity;
    destruct (Qltb 1 (q / 100)); reflexivity.
Qed.

Lemma batch_evaluate_from_values (lib : TaLib) (data : dict (list Row))
    (signals : list TradeSignal) :
  forall acc risks,
    batch_evaluate_from lib acc signals data = Ok risks ->
    Forall (fun entry => is_finite (trend_stability (snd entry)) = true) acc ->
    Forall (fun entry => is_finite (trend_stability (snd entry)) = true) risks.
Proof.
  induction signals as [| s0 rest IH]; intros acc risks H Hacc;
    cbn [batch_evaluate_from] in H.
  - inversion H; subst. exact Hacc.
  - unfold dict_item in H.
    destruct (dict_get data (symbol s0)) as [table |]; cbn [bind] in H; [| discriminate].
    destruct (evaluate_risk lib s0 table) as [r0 |] eqn:Er; cbn [bind] in H;
      [| discriminate].
    apply (IH _ _ H). apply Forall_forall. intros [k v] Hin.
    apply dict_set_In in Hin. destruct Hin as [Hin | Hin].
    + inversion Hin; subst. cbn [snd].
      apply (evaluate_risk_stability_unit lib s0 table r0 Er).
    + rewrite Forall_forall in Hacc. apply (Hacc _ Hin).
Qed.

Lemma batch_evaluate_from_covers (lib : TaLib) (data : dict (list Row))
    (signals : list TradeSignal) (acc risks : dict RiskProfile) :
  batch_evaluate_from lib acc signals data = Ok risks ->
  Forall (fun s => dict_get risks (symbol s) <> None) signals.
Proof.
  revert acc. induction signals as [| s0 rest IH]; intros acc H; [constructor |].
  pose proof H as H'. cbn [batch_evaluate_from] in H. unfold dict_item in H.
  destruct (dict_get data (symbol s0)) as [table |]; cbn [bind] in H; [| discriminate].
  destruct (evaluate_risk lib s0 table) as [r0 |]; cbn [bind] in H; [| discriminate].
  constructor; [| apply (IH _ H)].
  destruct (batch_evaluate_from_spec lib data rest _ risks H) as [_ [Hm _]].
  apply Hm. rewrite dict_get_set_same. discriminate.
Qed.

Lemma probabilities_from_outcome (signals : list TradeSignal)
    (risks : dict RiskProfile) :
  Forall (fun s => dict_get risks (symbol s) <> None) signals ->
  Forall (fun s => (signal_score s >=? Fin 55) = true) signals ->
  Forall (fun entry => is_finite (trend_stability (snd entry)) = true) risks ->
  forall acc,
    Forall (fun entry => is_nan (probability (snd entry)) = false) acc ->
    exists probabilities,
      probabilities_from acc signals risks = Ok probabilities
      /\ (forall k, dict_get acc k <> None -> dict_get probabilities k <> None)
      /\ Forall (fun s => dict_get probabilities (symbol s) <> None) signals
      /\ Forall (fun entry => is_nan (probability (snd entry)) = false) probabilities.
Proof.
  intros Hcov Hscore Hrisk.
  induction signals as [| s0 rest IH]; intros acc Hacc; cbn [probabilities_from].
  - exists acc. repeat split; auto.
  - inversion Hcov as [| ? ? Hc Hcov']; subst.
    inversion Hscore as [| ? ? Hs Hscore']; subst.
    unfold dict_item.
    destruct (dict_get risks (symbol s0)) as [risk |] eqn:Er; [| congruence].
    cbn [bind].
    destruct (IH Hcov' Hscore'
                (dict_set acc (symbol s0) (estimate_probability s0 risk)))
      as [probs [Hok [Hm [Hall Hnum]]]].
    { apply Forall_forall. intros [k v] Hin.
      apply dict_set_In in Hin. destruct Hin as [Hin | Hin].
      - inversion Hin; subst. cbn [snd]. apply probability_is_number; [exact Hs |].
        apply dict_get_In in Er. rewrite Forall_forall in Hrisk.
        apply (Hrisk _ Er).
      - rewrite Forall_forall in Hacc. apply (Hacc _ Hin). }
    exists probs. split; [exact Hok |]. split; [| split].
    + intros k Hk. apply Hm.
      destruct (string_dec (symbol s0) k) as [<- | Hne].
      * rewrite dict_get_set_same. discriminate.
      * rewrite dict_get_set_other by exact Hne. exact Hk.
    + constructor; [| exact Hall].
      apply Hm. rewrite dict_get_set_same. discriminate.
    + exact Hnum.
Qed.

Lemma generate_signals_length (data : dict (list Row)) (top_n : Z) :
  (0 <= top_n)%Z ->
  (List.length (generate_signals data top_n) <= 2 * Z.to_nat top_n)%nat.
Proof.
  intro H. rewrite generate_signals_eq, !slice_to_nonneg by exact H.
  rewrite length_app.
  pose proof (firstn_le_length (Z.to_nat top_n)
                (sorted_desc signal_score (fst (candidates data)))).
  pose proof (firstn_le_length (Z.to_nat top_n)
                (sorted_desc signal_score (snd (candidates data)))).
  lia.
Qed.

(** From the enriched tables on, nothing raises: the analysis returns a
    report with one row per returned signal, at most twenty, in report
    order. *)
Lemma analyse_returns (lib : TaLib) (data : dict (list Row)) :
  exists outcome,
    analyse lib data = Ok outcome
    /\ List.length (report_df outcome) = List.length (generate_signals data 10)
    /\ (List.length (report_df outcome) <= 20)%nat
    /\ StronglySorted report_ordered (report_df outcome)
    /\ console outcome = print_console_report (report_df outcome).
Proof.
  unfold analyse. set (signals := generate_signals data 10).
  assert (Hpresent : Forall (fun s => dict_get data (symbol s) <> None) signals).
  { apply Forall_forall. intros s Hs. apply generate_signals_origin in Hs.
    destruct Hs as [sym [table [latest [Hin [_ Hs]]]]].
    assert (symbol s = sym) by (destruct Hs as [[_ ->] | [_ ->]]; reflexivity).
    subst sym. destruct (In_dict_get _ _ _ Hin) as [v ->]. discriminate. }
  assert (Hscore : Forall (fun s => (signal_score s >=? Fin 55) = true) signals).
  { apply Forall_forall. intros s Hs. apply (candidates_threshold data).
    apply (generate_signals_In data 10). exact Hs. }
  destruct (proj1 (batch_evaluate_from_outcome lib signals data []) Hpresent)
    as [risks Hrisks].
  unfold batch_evaluate. rewrite Hrisks. cbn [bind].
  pose proof (batch_evaluate_from_covers lib data signals [] risks Hrisks) as Hcov.
  pose proof (batch_evaluate_from_values lib data signals [] risks Hrisks
                (Forall_nil _)) as Hval.
  destruct (probabilities_from_outcome signals risks Hcov Hscore Hval []
              (Forall_nil _)) as [probs [Hprobs [_ [Hpcov Hnum]]]].
  rewrite Hprobs. cbn [bind].
  assert (Hboth : Forall (fun s => dict_get risks (symbol s) <> None
                                   /\ dict_get probs (symbol s) <> None) signals).
  { rewrite Forall_forall in *. intros s Hs. split; auto. }
  rewrite build_report_dataframe_eq.
  destruct (proj1 (report_rows_outcome signals risks probs) Hboth)
    as [rows [Hrows Hf]].
  rewrite Hrows. cbn [bind]. eexists. split; [reflexivity |].
  cbn [report_df console].
  assert (Hlen : List.length (stable_sort report_before rows) = List.length signals).
  { rewrite (Permutation_length (stable_sort_perm _ _)).
    symmetry. apply (Forall2_length Hf). }
  split; [exact Hlen |]. split; [| split; [| reflexivity]].
  - rewrite Hlen. apply (generate_signals_length data 10). lia.
  - assert (HP : Forall (fun r => is_nan (row_probability r) = false) rows).
    { clear - Hf Hnum.
      induction Hf as [| s row ss rows [risk [prob [_ [Hp ->]]]] _ IH];
        constructor; [| exact IH].
      apply dict_get_In in Hp. rewrite Forall_forall in Hnum. apply (Hnum _ Hp). }
    apply (StronglySorted_weaken (fun a b => report_before b a = false) _
             (fun r => is_nan (row_probability r) = false)).
    + intros a b. apply report_before_ordered.
    + apply Forall_forall. intros r Hr.
      apply (Permutation_in _ (stable_sort_perm _ _)) in Hr.
      rewrite Forall_forall in HP. auto.
    + apply (stable_sort_sorted report_before
               (fun r => is_nan (row_probability r) = false)).
      * intros a b _ _. apply report_before_asym.
      * intros a b c. apply report_before_trans.
      * exact HP.
Qed.

(** Between data collection and the Excel write nothing raises, whatever
    the price histories and the indicator library are: enrichment, signal
    generation, [batch_evaluate], the probabilities, the report and the
    console print (lines 33 to 41 of [run_daily_analysis]) all return.  The
    report has one row per signal of the generator, at most twenty, BUY rows
    before SELL rows and probabilities never increasing within a direction;
    the console shows the no-signal line exactly when the report is empty.
    Nothing is said of [save_excel_report], which comes after. *)
Theorem analysis_of_enriched_tables_returns (lib : TaLib) (ph : dict (list Bar)) :
  exists outcome,
    analyse lib (enrich_with_indicators lib ph) = Ok outcome
    /\ List.length (report_df outcome)
       = List.length (generate_signals (enrich_with_indicators lib ph) 10)
    /\ (List.length (report_df outcome) <= 20)%nat
    /\ StronglySorted report_ordered (report_df outcome)
    /\ (console outcome = NoActionableSignals <-> report_df outcome = []).
Proof.
  destruct (analyse_returns lib (enrich_with_indicators lib ph))
    as [outcome [Ho [H1 [H2 [H3 H4]]]]].
  exists outcome. repeat split; try assumption.
  - intro Hc. rewrite H4 in Hc.
    destruct (report_df outcome); [reflexivity | discriminate].
  - intro Hr. rewrite H4, Hr. reflexivity.
Qed.

(* ------------------------------------------------------------------ *)
(** ** More on the probability estimate *)

Lemma signal_component_unit (score : float) :
  (Fin 0 <=? score) = true ->
  exists c, py_min (score / Fin 100) (Fin 1) = Fin c /\ (0 <= c <= 1)%Q.
Proof.
  intro H. unfold py_min.
  destruct score as [| | | s]; simpl in *; try discriminate.
  - exists 1%Q. split; [reflexivity | lra].
  - q_bools. destruct (Qltb 1 (s / 100)) eqn:E.
    + exists 1%Q. split; [reflexivity | lra].
    + exists (s / 100)%Q. split; [reflexivity |]. q_bools.
      split; [| exact E]. apply Qle_shift_div_l; lra.
Qed.

(** For a score that is not negative and a trend stability between 0 and
    1 the probability lies between 13.5 and 95.5: the estimate never
    reaches 100. *)
Theorem probability_between_13_5_and_95_5 (sig : TradeSignal) (risk : RiskProfile) :
  (Fin 0 <=? signal_score sig) = true ->
  (Fin 0 <=? trend_stability risk) = true ->
  (trend_stability risk <=? Fin 1) = true ->
  (Fin 13.5 <=? probability (estimate_probability sig risk)) = true
  /\ (probability (estimate_probability sig risk) <=? Fin 95.5) = true.
Proof.
  intros Hs H0 H1. unfold estimate_probability. cbn [probability].
  destruct (signal_component_unit _ Hs) as [c [-> [Hc0 Hc1]]].
  destruct (trend_stability risk) as [| | | t]; simpl in H0, H1; try discriminate.
  q_bools. split.
  - apply (fle_trans _ (py_round (Fin 13.5) 2)); [vm_compute; reflexivity |].
    apply py_round_mono. destruct (risk_level risk); simpl; q_bools; lra.
  - apply (fle_trans _ (py_round (Fin 95.5) 2)); [| vm_compute; reflexivity].
    apply py_round_mono. destruct (risk_level risk); simpl; q_bools; lra.
Qed.

(** The two samples: 94 and 69.25. *)
Lemma probability_between_13_5_and_95_5_witness :
  (Fin 13.5 <=? probability (estimate_probability marginal_signal (calm_risk (Fin 98))))
  = true
  /\ (probability (estimate_probability strong_signal (calm_risk (Fin 97)))
      <=? Fin 95.5) = true.
Proof.
  split.
  - apply (probability_between_13_5_and_95_5 marginal_signal (calm_risk (Fin 98)));
      vm_compute; reflexivity.
  - apply (probability_between_13_5_and_95_5 strong_signal (calm_risk (Fin 97)));
      vm_compute; reflexivity.
Defined.

(** For one signal, a safer risk level and a higher trend stability never
    lower the probability. *)
Theorem probability_monotone_in_risk (sig : TradeSignal) (r1 r2 : RiskProfile) :
  is_nan (signal_score sig) = false ->
  at_least_as_safe (risk_level r1) (risk_level r2) = true ->
  is_finite (trend_stability r1) = true ->
  is_finite (trend_stability r2) = true ->
  (trend_stability r1 >=? trend_stability r2) = true ->
  (probability (estimate_probability sig r1)
   >=? probability (estimate_probability sig r2)) = true.
Proof.
  intros Hs Hlevel Hf1 Hf2 Hst.
  unfold estimate_probability. cbn [probability]. unfold fge in *.
  apply py_round_mono. apply fmul_pos_mono; [lra |].
  destruct (trend_stability r1) as [| | | t1]; try discriminate.
  destruct (trend_stability r2) as [| | | t2]; try discriminate.
  simpl in Hst. q_bools.
  assert (Hr : exists a b,
             risk_component_of (risk_level r1) * Fin 0.30 = Fin a
             /\ risk_component_of (risk_level r2) * Fin 0.30 = Fin b
             /\ (b <= a)%Q).
  { destruct (risk_level r1), (risk_level r2); simpl in Hlevel; try discriminate;
      eexists; eexists; (split; [reflexivity | split; [reflexivity | lra]]). }
  destruct Hr as [a [b [-> [-> Hab]]]].
  change (Fin t1 * Fin 0.15) with (Fin (t1 * 0.15)).
  change (Fin t2 * Fin 0.15) with (Fin (t2 * 0.15)).
  apply fadd_fin_mono; [lra |].
  apply fadd_fin_mono; [exact Hab |].
  apply fmul_pos_mono; [lra |].
  apply py_min_cap_mono.
  apply fdiv_pos_mono; [lra |].
  apply fle_refl. exact Hs.
Qed.

(** The marginal signal under LOW risk with stability 0.9 against HIGH risk
    with stability 0.2: 69.25 against 46.75. *)
Lemma probability_monotone_in_risk_witness :
  feq (probability (estimate_probability marginal_signal (sample_risk LOW 0.9)))
      (Fin 69.25)
  /\ feq (probability (estimate_probability marginal_signal (sample_risk HIGH 0.2)))
         (Fin 46.75)
  /\ (probability (estimate_probability marginal_signal (sample_risk LOW 0.9))
      >=? probability (estimate_probability marginal_signal (sample_risk HIGH 0.2)))
     = true.
Proof.
  split; [vm_compute; reflexivity |]. split; [vm_compute; reflexivity |].
  apply (probability_monotone_in_risk marginal_signal
           (sample_risk LOW 0.9) (sample_risk HIGH 0.2));
    vm_compute; reflexivity.
Defined.

(* ------------------------------------------------------------------ *)
(** ** More on the risk engine *)

Lemma evaluate_risk_eq (lib : TaLib) (sig : TradeSignal) (data : list Row) :
  exists strength,
    trend_strength_of (map Close data) = Ok strength
    /\ evaluate_risk lib sig data =
       Ok {| volatility_score := py_round (volatility_of lib data) 4;
             drawdown_risk := py_round (drawdown_of data) 4;
             trend_stability :=
               py_round (trend_stability_of (volatility_of lib data) strength) 4;
             risk_stop_loss := stop_loss sig;
             risk_level :=
               _risk_level
                 (blended_risk_of (volatility_of lib data) (drawdown_of data)
                    (trend_stability_of (volatility_of lib data) strength)) |}.
Proof.
  eexists. split; [apply trend_strength_of_eq |].
  unfold evaluate_risk. rewrite trend_strength_of_eq. reflexivity.
Qed.

Lemma pct_change_first_dropped (close : Series) :
  (List.length (series_dropna (pct_change 1 close)) <= List.length close - 1)%nat.
Proof.
  destruct close as [| x rest]; [simpl; lia |].
  unfold pct_change, shift. cbn [repeat app List.length firstn map2].
  assert (Hx : is_nan (x / NaN - Fin 1) = true) by (destruct x; reflexivity).
  unfold series_dropna. cbn [filter]. rewrite Hx. cbn [negb].
  match goal with
  | |- (List.length (filter ?f ?l) <= _)%nat =>
      pose proof (filter_length_le f l) as Hf;
      assert (Hl : (List.length l <= List.length rest)%nat)
  end.
  { clear. generalize (firstn (List.length rest) (x :: rest)) as m.
    induction rest as [| y rest IH]; intro m; destruct m; simpl; try lia.
    specialize (IH m). lia. }
  simpl. lia.
Qed.

Lemma series_std_short (sqrtQ : Q -> Q) (s : Series) :
  (List.length (series_dropna s) < 2)%nat -> series_std sqrtQ s = NaN.
Proof.
  intro H. unfold series_std. cbv zeta.
  destruct (List.length (series_dropna s) <? 2)%nat eqn:E; [reflexivity |].
  apply Nat.ltb_ge in E. lia.
Qed.

Lemma short_table_volatility (lib : TaLib) (data : list Row) :
  (List.length data < 3)%nat -> volatility_of lib data = NaN.
Proof.
  intro H. unfold volatility_of. cbv zeta.
  rewrite series_std_short; [reflexivity |].
  pose proof (pct_change_first_dropped (map Close data)) as Hlen.
  rewrite length_map in Hlen.
  pose proof (filter_length_le (fun x => negb (is_nan x))
                (series_dropna (pct_change 1 (map Close data)))) as Hf.
  unfold series_dropna at 1. lia.
Qed.

(** A table of fewer than three rows has fewer than two daily returns, so
    no standard deviation: the volatility is NaN, the trend stability comes
    out as 1, and the risk level is HIGH, whatever the prices. *)
Theorem short_table_is_high_risk (lib : TaLib) (sig : TradeSignal)
    (data : list Row) :
  (List.length data < 3)%nat ->
  exists risk,
    evaluate_risk lib sig data = Ok risk
    /\ volatility_score risk = NaN
    /\ feq (trend_stability risk) (Fin 1)
    /\ risk_level risk = HIGH.
Proof.
  intro H. destruct (evaluate_risk_eq lib sig data) as [strength [_ ->]].
  rewrite (short_table_volatility lib data H).
  eexists. split; [reflexivity |]. cbn [volatility_score trend_stability risk_level].
  split; [reflexivity |]. split.
  - unfold trend_stability_of.
    assert (E : Fin 1 - py_abs (NaN - strength) = NaN) by reflexivity.
    rewrite E. vm_compute. reflexivity.
  - unfold blended_risk_of. reflexivity.
Qed.

(** The table of the dual example cut to its last two rows. *)
Lemma short_table_is_high_risk_witness :
  exists risk,
    evaluate_risk stand_in_lib dual_sell [dual_row 101; dual_row 100] = Ok risk
    /\ volatility_score risk = NaN
    /\ feq (trend_stability risk) (Fin 1)
    /\ risk_level risk = HIGH.
Proof.
  apply (short_table_is_high_risk stand_in_lib dual_sell
           [dual_row 101; dual_row 100]).
  simpl. lia.
Defined.

(* ------------------------------------------------------------------ *)
(** ** More on the indicator engine *)

(** The frame holds one row per bar, in order; row [i] carries bar [i] and
    the values the derived series have at [i]. *)
Lemma indicator_frame_shape (lib : TaLib) (df : list Bar) (frame : list Row) :
  indicator_frame lib df = Ok frame ->
  exists F : nat * Bar -> Row,
    frame = map F (combine (seq 0 (List.length df)) df)
    /\ forall i b,
         Close (F (i, b)) = bClose b /\ Volume (F (i, b)) = bVolume b
         /\ VWAP (F (i, b)) = at_index (_calc_vwap df) i
         /\ VolumeAvg20 (F (i, b))
            = at_index (rolling_mean 20 (map bVolume df)) i.
Proof.
  unfold indicator_frame.
  destruct (RSIIndicator lib (map bClose df) 14); cbn [bind]; [| discriminate].
  destruct (SMAIndicator lib (map bClose df) 20); cbn [bind]; [| discriminate].
  destruct (SMAIndicator lib (map bClose df) 50); cbn [bind]; [| discriminate].
  destruct (SMAIndicator lib (map bClose df) 200); cbn [bind]; [| discriminate].
  destruct (EMAIndicator lib (map bClose df) 20); cbn [bind]; [| discriminate].
  destruct (MACD_lines lib (map bClose df) 26 12 9); cbn [bind]; [| discriminate].
  intro H. inversion H; subst. eexists. split; [reflexivity |].
  intros i b. repeat split.
Qed.

Lemma In_combine_seq {A : Type} (l : list A) (start i : nat) (a : A) :
  In (i, a) (combine (seq start (List.length l)) l) ->
  (start <= i)%nat /\ nth_error l (i - start) = Some a.
Proof.
  revert start. induction l as [| x l IH]; intros start H; simpl in H; [contradiction |].
  destruct H as [H | H].
  - inversion H; subst. rewrite Nat.sub_diag. split; [lia | reflexivity].
  - apply IH in H. destruct H as [Hle Hn]. split; [lia |].
    replace (i - start)%nat with (S (i - S start)) by lia. exact Hn.
Qed.

Lemma fdiv_nan_r (x : float) : x / NaN = NaN.
Proof. destruct x; reflexivity. Qed.

Lemma map2_fdiv_gap (l m : Series) (i : nat) :
  nth i m NaN = NaN -> nth i (map2 fdiv l m) NaN = NaN.
Proof.
  revert m i. induction l as [| x l IH]; intros m i H; [destruct i; reflexivity |].
  destruct m as [| y m]; [destruct i; reflexivity |].
  destruct i as [| i]; simpl in *.
  - rewrite H. apply fdiv_nan_r.
  - apply IH. exact H.
Qed.

Lemma cum_from_gap (op : float -> float -> float) (acc : float) (s : Series)
    (i : nat) :
  nth i s NaN = NaN -> nth i (cum_from op acc s) NaN = NaN.
Proof.
  revert acc i. induction s as [| x s IH]; intros acc i H; [destruct i; reflexivity |].
  destruct i as [| i]; simpl in *.
  - rewrite H. reflexivity.
  - destruct (is_nan x); simpl; apply IH; exact H.
Qed.

Lemma nth_map_some {A B : Type} (g : A -> B) (l : list A) (i : nat) (a : A) (d : B) :
  nth_error l i = Some a -> nth i (map g l) d = g a.
Proof.
  revert i. induction l as [| x l IH]; intros i H; destruct i; simpl in *;
    try discriminate.
  - inversion H. reflexivity.
  - apply IH. exact H.
Qed.

(** Line 19: a day on which nothing was traded has no VWAP. *)
Lemma vwap_gap (df : list Bar) (i : nat) (b : Bar) :
  nth_error df i = Some b -> feqb (bVolume b) (Fin 0) = true ->
  at_index (_calc_vwap df) i = NaN.
Proof.
  intros Hn Hz. unfold at_index, _calc_vwap. apply map2_fdiv_gap.
  unfold cumsum. apply cum_from_gap. unfold series_replace.
  rewrite (nth_map_some _ _ i (bVolume b)).
  - rewrite Hz. reflexivity.
  - rewrite nth_error_map, Hn. reflexivity.
Qed.

Lemma enriched_table_origin (lib : TaLib) (ph : dict (list Bar)) (sym : string)
    (table : list Row) :
  In (sym, table) (enrich_with_indicators lib ph) ->
  exists df frame,
    In (sym, df) ph /\ indicator_frame lib df = Ok frame /\ table = dropna frame.
Proof.
  unfold enrich_with_indicators, enrich_loop. intro H.
  apply enrich_loop_In in H. destruct H as [[] | [df [Hin He]]].
  unfold enrich_symbol in He.
  destruct (indicator_frame lib df) as [frame |] eqn:Ef; cbn [bind] in He;
    [| discriminate].
  inversion He. exists df, frame. auto.
Qed.

(** No row of an enriched table is a day without volume: the VWAP of such
    a day is undefined, so the row is dropped, whatever the indicators
    are. *)
Theorem enriched_rows_have_volume (lib : TaLib) (ph : dict (list Bar))
    (sym : string) (table : list Row) (row : Row) :
  In (sym, table) (enrich_with_indicators lib ph) -> In row table ->
  feqb (Volume row) (Fin 0) = false.
Proof.
  intros Ht Hrow. apply enriched_table_origin in Ht.
  destruct Ht as [df [frame [_ [Hf ->]]]].
  apply dropna_no_null in Hrow. destruct Hrow as [Hrow Hnull].
  destruct (indicator_frame_shape lib df frame Hf) as [F [-> HF]].
  apply in_map_iff in Hrow. destruct Hrow as [[i b] [<- Hin]].
  apply In_combine_seq in Hin. destruct Hin as [_ Hn]. rewrite Nat.sub_0_r in Hn.
  destruct (HF i b) as [_ [Hvol [Hvwap _]]]. rewrite Hvol.
  destruct (feqb (bVolume b) (Fin 0)) eqn:E; [| reflexivity].
  exfalso. pose proof (vwap_gap df i b Hn E) as Hgap.
  assert (X : row_has_null (F (i, b)) = true).
  { unfold row_has_null. apply existsb_exists. exists (VWAP (F (i, b))). split.
    - apply in_or_app. right. unfold derived_columns. simpl. tauto.
    - rewrite Hvwap, Hgap. reflexivity. }
  congruence.
Qed.

(** The surviving row of the flat history has a volume of 1000. *)
Lemma enriched_rows_have_volume_witness :
  exists table row,
    In ("GOOD"%string, table) (enrich_with_indicators stand_in_lib three_histories)
    /\ In row table
    /\ feq (Volume row) (Fin 1000)
    /\ feqb (Volume row) (Fin 0) = false.
Proof.
  eexists. eexists.
  split; [vm_compute; left; reflexivity |].
  split; [left; reflexivity |].
  split; [vm_compute; reflexivity |].
  eapply (enriched_rows_have_volume stand_in_lib three_histories "GOOD").
  - vm_compute. left. reflexivity.
  - left. reflexivity.
Defined.

Lemma rolling_mean_warm_up (w : nat) (s : Series) (i : nat) :
  (i + 1 < w)%nat -> at_index (rolling_mean w s) i = NaN.
Proof.
  intro H. unfold at_index, rolling_mean.
  destruct (Nat.lt_ge_cases i (List.length s)) as [Hlt | Hge].
  - rewrite (nth_map_some _ _ i i).
    + destruct (w <=? i + 1)%nat eqn:E; [| reflexivity].
      apply Nat.leb_le in E. lia.
    + rewrite (nth_error_nth' _ 0%nat) by (rewrite length_seq; exact Hlt).
      rewrite seq_nth by exact Hlt. reflexivity.
  - apply nth_overflow. rewrite length_map, length_seq. exact Hge.
Qed.

Lemma warm_up_rows_dropped (F : nat * Bar -> Row) (df : list Bar) (start : nat) :
  (forall i b, (i < 19)%nat -> row_has_null (F (i, b)) = true) ->
  (List.length (dropna (map F (combine (seq start (List.length df)) df)))
   <= List.length df - (19 - start))%nat.
Proof.
  intro H. unfold dropna. revert start.
  induction df as [| b df IH]; intro start;
    cbn [List.length seq combine map filter]; [lia |].
  specialize (IH (S start)).
  destruct (Nat.lt_ge_cases start 19) as [Hlt | Hge].
  - rewrite (H start b Hlt). cbn [negb]. lia.
  - destruct (row_has_null (F (start, b))); cbn [negb List.length]; lia.
Qed.

(** Whatever the indicators are, the first nineteen rows of a history never
    survive (the 20-day volume average is not defined there): the enriched
    table has at most [n - 19] rows for a history of [n] bars, and none for
    a history of fewer than twenty bars. *)
Theorem enriched_table_loses_warm_up (lib : TaLib) (df : list Bar)
    (table : list Row) :
  enrich_symbol lib df = Ok table ->
  (List.length table <= List.length df - 19)%nat
  /\ ((List.length df < 20)%nat -> table = []).
Proof.
  unfold enrich_symbol. intro H.
  destruct (indicator_frame lib df) as [frame |] eqn:Ef; cbn [bind] in H;
    [| discriminate].
  inversion H; subst. clear H.
  destruct (indicator_frame_shape lib df frame Ef) as [F [-> HF]].
  assert (Hlen : (List.length (dropna (map F (combine (seq 0 (List.length df)) df)))
                  <= List.length df - 19)%nat).
  { apply (warm_up_rows_dropped F df 0). intros i b Hi.
    unfold row_has_null. apply existsb_exists. exists (VolumeAvg20 (F (i, b))).
    split.
    - apply in_or_app. right. unfold derived_columns. simpl. tauto.
    - destruct (HF i b) as [_ [_ [_ ->]]].
      rewrite rolling_mean_warm_up by lia. reflexivity. }
  split; [exact Hlen |].
  intro Hshort.
  destruct (dropna (map F (combine (seq 0 (List.length df)) df))); [reflexivity |].
  simpl in Hlen. lia.
Qed.

(** With the stand-in library a flat history of 200 bars keeps one row,
    while one of 19 bars keeps none. *)
Lemma enriched_table_loses_warm_up_witness :
  (exists table,
     enrich_symbol stand_in_lib (flat_history 200 100 1000) = Ok table
     /\ List.length table = 1%nat
     /\ (List.length table <= 200 - 19)%nat)
  /\ enrich_symbol stand_in_lib (flat_history 19 100 1000) = Ok [].
Proof.
  split.
  - destruct (enrich_symbol stand_in_lib (flat_history 200 100 1000))
      as [table |] eqn:E; [| vm_compute in E; discriminate].
    exists table. split; [reflexivity |].
    pose proof (enriched_table_loses_warm_up stand_in_lib _ table E) as [H _].
    split; [| exact H].
    vm_compute in E. injection E as <-. reflexivity.
  - destruct (enrich_symbol stand_in_lib (flat_history 19 100 1000))
      as [table |] eqn:E; [| vm_compute in E; discriminate].
    pose proof (enriched_table_loses_warm_up stand_in_lib _ table E) as [_ H].
    rewrite H; [reflexivity |]. vm_compute. lia.
Defined.

(** On a mapping with distinct symbols every symbol ends up in exactly one
    place: with its table in the result when its computation returns, in
    the log with its exception when it raises.  Both keep the input order,
    and their sizes add up to the number of symbols. *)
Theorem every_symbol_enriched_or_logged (lib : TaLib) (ph : dict (list Bar)) :
  NoDup (keys ph) ->
  keys (enrich_with_indicators lib ph)
  = keys (filter (fun item => match enrich_symbol lib (snd item) with
                              | Ok _ => true
                              | Raise _ => false
                              end) ph)
  /\ map fst (enrich_warnings lib ph)
     = keys (filter (fun item => match enrich_symbol lib (snd item) with
                                 | Ok _ => false
                                 | Raise _ => true
                                 end) ph)
  /\ (List.length (enrich_with_indicators lib ph)
      + List.length (enrich_warnings lib ph) = List.length ph)%nat
  /\ forall sym df,
       In (sym, df) ph ->
       match enrich_symbol lib df with
       | Ok table => dict_get (enrich_with_indicators lib ph) sym = Some table
                     /\ ~ In sym (map fst (enrich_warnings lib ph))
       | Raise exc => dict_get (enrich_with_indicators lib ph) sym = None
                      /\ In (sym, exc) (enrich_warnings lib ph)
       end.
Proof.
  intro Hnd. destruct (enrich_with_indicators_eq lib ph Hnd) as [-> ->].
  assert (Hk1 : keys (flat_map (enriched_entry lib) ph)
                = keys (filter (fun item => match enrich_symbol lib (snd item) with
                                            | Ok _ => true
                                            | Raise _ => false
                                            end) ph)).
  { unfold keys. clear Hnd. induction ph as [| [k v] ph IH]; simpl; [reflexivity |].
    rewrite map_app, IH. unfold enriched_entry. cbn [fst snd].
    destruct (enrich_symbol lib v); reflexivity. }
  assert (Hk2 : map fst (flat_map (enrich_warning lib) ph)
                = keys (filter (fun item => match enrich_symbol lib (snd item) with
                                            | Ok _ => false
                                            | Raise _ => true
                                            end) ph)).
  { unfold keys. clear Hnd Hk1. induction ph as [| [k v] ph IH]; simpl; [reflexivity |].
    rewrite map_app, IH. unfold enrich_warning. cbn [fst snd].
    destruct (enrich_symbol lib v); reflexivity. }
  split; [exact Hk1 |]. split; [exact Hk2 |]. split.
  - clear. induction ph as [| [k v] ph IH]; cbn [flat_map List.length];
      [reflexivity |].
    rewrite !length_app. unfold enriched_entry at 1, enrich_warning at 1.
    cbn [fst snd]. destruct (enrich_symbol lib v); cbn [List.length]; lia.
  - intros sym df Hin.
    assert (Hunique : forall df', In (sym, df') ph -> df' = df)
      by (intros; eapply nodup_keys_unique; eauto).
    destruct (enrich_symbol lib df) as [table | exc] eqn:E.
    + split.
      * apply dict_get_Some.
        -- rewrite Hk1. apply nodup_keys_filter. exact Hnd.
        -- apply in_flat_map. exists (sym, df). split; [exact Hin |].
           unfold enriched_entry. cbn [fst snd]. rewrite E. left. reflexivity.
      * rewrite Hk2. unfold keys. intro H. apply in_map_iff in H.
        destruct H as [[k v] [Hk H]]. simpl in Hk. subst k.
        apply filter_In in H. destruct H as [H1 H2]. cbn [snd] in H2.
        rewrite (Hunique v H1), E in H2. discriminate.
    + split.
      * apply dict_get_None. rewrite Hk1. unfold keys. intro H.
        apply in_map_iff in H. destruct H as [[k v] [Hk H]]. simpl in Hk. subst k.
        apply filter_In in H. destruct H as [H1 H2]. cbn [snd] in H2.
        rewrite (Hunique v H1), E in H2. discriminate.
      * apply in_flat_map. exists (sym, df). split; [exact Hin |].
        unfold enrich_warning. cbn [fst snd]. rewrite E. left. reflexivity.
Qed.

(** Three symbols: two tables and one warning. *)
Lemma every_symbol_enriched_or_logged_witness :
  keys (enrich_with_indicators stand_in_lib three_histories)
    = ["GOOD"%string; "ALSO"%string]
  /\ map fst (enrich_warnings stand_in_lib three_histories) = ["BAD"%string]
  /\ (List.length (enrich_with_indicators stand_in_lib three_histories)
      + List.length (enrich_warnings stand_in_lib three_histories) = 3)%nat.
Proof.
  destruct (every_symbol_enriched_or_logged stand_in_lib three_histories
              three_histories_keys) as [_ [_ [H _]]].
  split; [vm_compute; reflexivity |].
  split; [vm_compute; reflexivity | exact H].
Defined.

(* ------------------------------------------------------------------ *)
(** ** Data collection *)

Lemma ascii_compare_lt_trans (x y z : Ascii.ascii) :
  Ascii.compare x y = Lt -> Ascii.compare y z = Lt -> Ascii.compare x z = Lt.
Proof.
  unfold Ascii.compare. rewrite !N.compare_lt_iff. apply N.lt_trans.
Qed.

Lemma string_compare_lt_trans (a b c : string) :
  String.compare a b = Lt -> String.compare b c = Lt -> String.compare a c = Lt.
Proof.
  revert b c. induction a as [| x a IH]; intros b c Hab Hbc.
  - destruct b as [| y b]; [discriminate |]. destruct c as [| z c]; [| reflexivity].
    simpl in Hbc. discriminate.
  - destruct b as [| y b]; [discriminate |].
    destruct c as [| z c]; [simpl in Hbc; discriminate |].
    simpl in *.
    destruct (Ascii.compare x y) eqn:Exy; try discriminate;
      destruct (Ascii.compare y z) eqn:Eyz; try discriminate.
    + apply Ascii.compare_eq_iff in Exy, Eyz. subst.
      assert (E : Ascii.compare z z = Eq).
      { unfold Ascii.compare. apply N.compare_refl. }
      rewrite E. apply (IH b c); assumption.
    + apply Ascii.compare_eq_iff in Exy. subst. rewrite Eyz. reflexivity.
    + apply Ascii.compare_eq_iff in Eyz. subst. rewrite Exy. reflexivity.
    + rewrite (ascii_compare_lt_trans x y z Exy Eyz). reflexivity.
Qed.

Lemma string_ltb_asym (a b : string) :
  String.ltb a b = true -> String.ltb b a = false.
Proof.
  unfold String.ltb. rewrite (String.compare_antisym b a).
  destruct (String.compare a b); simpl; congruence.
Qed.

Lemma string_ltb_total (a b : string) :
  String.ltb b a = false -> a <> b -> String.ltb a b = true.
Proof.
  unfold String.ltb. rewrite (String.compare_antisym b a). intros H Hne.
  destruct (String.compare a b) eqn:E; simpl in *; try congruence.
  apply String.compare_eq_iff in E. contradiction.
Qed.

Lemma string_not_ltb_trans (a b c : string) :
  String.ltb b a = false -> String.ltb c b = false -> String.ltb c a = false.
Proof.
  intros Hba Hcb. destruct (String.ltb c a) eqn:Hca; [| reflexivity].
  destruct (string_dec a b) as [-> | Hne]; [congruence |].
  pose proof (string_ltb_total a b Hba Hne) as Hab.
  unfold String.ltb in *.
  destruct (String.compare c a) eqn:E1; try discriminate.
  destruct (String.compare a b) eqn:E2; try discriminate.
  rewrite (string_compare_lt_trans c a b E1 E2) in Hcb. discriminate.
Qed.

Lemma universe_sorted_nodup_helper (env : Env) :
  NoDup (universe_of env) /\ universe_of env <> [].
Proof.
  split; [| apply universe_not_empty].
  unfold universe_of, sorted_set.
  apply (Permutation_NoDup (Permutation_sym (stable_sort_perm String.ltb _))).
  apply NoDup_nodup.
Qed.

Lemma universe_strictly_sorted (env : Env) :
  StronglySorted (fun a b => String.ltb a b = true) (universe_of env).
Proof.
  pose proof (universe_sorted_nodup_helper env) as [Hnd _].
  revert Hnd. unfold universe_of, sorted_set.
  set (l := (_load_sensex_constituents env ++ DEFAULT_NSE_SYMBOLS)%list).
  intro Hnd.
  assert (Hs : StronglySorted (fun a b => String.ltb b a = false)
                 (stable_sort String.ltb (nodup string_dec l))).
  { apply (stable_sort_sorted String.ltb (fun _ => True)).
    - intros a b _ _. apply string_ltb_asym.
    - intros a b c _ _ _. apply string_not_ltb_trans.
    - apply Forall_forall. auto. }
  revert Hnd Hs. generalize (stable_sort String.ltb (nodup string_dec l)) as u.
  intros u Hnd Hs. induction Hs as [| x u Hs IH Hx]; [constructor |].
  inversion Hnd as [| ? ? Hnotin Hnd']; subst.
  constructor; [apply IH; exact Hnd' |].
  rewrite Forall_forall in *. intros y Hy.
  apply string_ltb_total; [apply Hx; exact Hy |].
  intro E. subst y. contradiction.
Qed.

(** The universe holds exactly the scraped constituents and the default
    symbols, each once, in strictly ascending order; it is never empty. *)
Theorem universe_sorted_without_repeats (env : Env) :
  (forall sym, In sym (universe_of env)
               <-> In sym (_load_sensex_constituents env)
                   \/ In sym DEFAULT_NSE_SYMBOLS)
  /\ NoDup (universe_of env)
  /\ StronglySorted (fun a b => String.ltb a b = true) (universe_of env)
  /\ (20 <= List.length (universe_of env))%nat.
Proof.
  unfold universe_of, sorted_set.
  set (l := (_load_sensex_constituents env ++ DEFAULT_NSE_SYMBOLS)%list).
  pose proof (stable_sort_perm String.ltb (nodup string_dec l)) as Hperm.
  assert (Hnd : NoDup (stable_sort String.ltb (nodup string_dec l))).
  { apply (Permutation_NoDup (Permutation_sym Hperm)). apply NoDup_nodup. }
  split; [| split; [exact Hnd | split]].
  - intro sym. rewrite <- in_app_iff. fold l. split; intro H.
    + apply (nodup_In string_dec). apply (Permutation_in _ Hperm). exact H.
    + apply (Permutation_in _ (Permutation_sym Hperm)).
      apply (nodup_In string_dec). exact H.
  - exact (universe_strictly_sorted env).
  - rewrite (Permutation_length Hperm).
    assert (Hincl : incl DEFAULT_NSE_SYMBOLS (nodup string_dec l)).
    { intros s Hs. apply nodup_In. unfold l. apply in_or_app. right. exact Hs. }
    assert (Hd : NoDup DEFAULT_NSE_SYMBOLS).
    { unfold DEFAULT_NSE_SYMBOLS.
      repeat (constructor; [simpl; intuition discriminate |]). constructor. }
    apply (NoDup_incl_length Hd Hincl).
Qed.

(** One turn of the collection loop either leaves the state as it is or
    appends the usable rows of a download of at least 60 of them, with a
    market row for the symbol. *)
Lemma collect_step_cases (env : Env) (period sym : string)
    (history : dict (list Bar)) (rows : list MarketRow) :
  collect_step env period (history, rows) sym = (history, rows)
  \/ exists raw row,
       yf_download env sym period = Ok raw
       /\ (60 <= List.length (usable_rows raw))%nat
       /\ mSymbol row = sym
       /\ collect_step env period (history, rows) sym
          = (dict_set history sym (usable_rows raw), (rows ++ [row])%list).
Proof.
  unfold collect_step, collect_symbol, _fetch_symbol_history.
  destruct (yf_download env sym period) as [raw |]; cbn [bind]; [| auto].
  destruct raw as [| b0 raw]; cbn [bind]; [auto |].
  fold (usable_rows (b0 :: raw)).
  destruct (List.length (usable_rows (b0 :: raw)) <? 60)%nat eqn:E; [auto |].
  apply Nat.ltb_ge in E.
  rewrite (iloc_back_ok _ 1 b0) by lia. cbn [bind].
  rewrite (iloc_back_ok _ 2 b0) by lia. cbn [bind].
  right. eexists. eexists. split; [reflexivity |]. split; [exact E |].
  split; [| reflexivity]. reflexivity.
Qed.

Lemma collect_fold_invariant (env : Env) (period : string) (syms : list string) :
  forall history rows,
    NoDup syms ->
    NoDup (keys history) ->
    (forall k, In k (keys history) -> ~ In k syms) ->
    map mSymbol rows = keys history ->
    let st := fold_left (collect_step env period) syms (history, rows) in
    NoDup (keys (fst st))
    /\ map mSymbol (snd st) = keys (fst st)
    /\ forall sym hist,
         In (sym, hist) (fst st) ->
         In (sym, hist) history
         \/ In sym syms
            /\ exists raw, yf_download env sym period = Ok raw
                           /\ hist = usable_rows raw
                           /\ (60 <= List.length hist)%nat.
Proof.
  induction syms as [| s syms IH]; intros history rows Hsyms Hnd Hfresh Hrows;
    cbn [fold_left].
  - cbn [fst snd]. auto.
  - inversion Hsyms as [| ? ? Hs Hsyms']; subst.
    destruct (collect_step_cases env period s history rows)
      as [-> | [raw [row [Hraw [Hlen [Hrow ->]]]]]].
    + destruct (IH history rows Hsyms' Hnd) as [H1 [H2 H3]]; auto.
      { intros k Hk Hin. apply (Hfresh k Hk). right. exact Hin. }
      split; [exact H1 |]. split; [exact H2 |].
      intros sym hist Hin. destruct (H3 sym hist Hin) as [H | [H H']]; [auto |].
      right. split; [right; exact H | exact H'].
    + assert (Hnew : ~ In s (keys history)).
      { intro Hk. apply (Hfresh s Hk). left. reflexivity. }
      rewrite (dict_set_new history s _ Hnew).
      destruct (IH (history ++ [(s, usable_rows raw)])%list (rows ++ [row])%list
                  Hsyms') as [H1 [H2 H3]].
      * unfold keys. rewrite map_app. simpl.
        apply NoDup_app; [exact Hnd | repeat constructor; simpl; tauto |].
        intros k Hk [<- | []]. apply Hnew. exact Hk.
      * intros k Hk Hin. unfold keys in Hk. rewrite map_app in Hk.
        apply in_app_or in Hk. destruct Hk as [Hk | [<- | []]].
        -- apply (Hfresh k Hk). right. exact Hin.
        -- contradiction.
      * unfold keys. rewrite !map_app, Hrows. simpl. rewrite Hrow. reflexivity.
      * split; [exact H1 |]. split; [exact H2 |].
        intros sym hist Hin. destruct (H3 sym hist Hin) as [H | [H H']].
        -- apply in_app_or in H. destruct H as [H | [H | []]]; [auto |].
           inversion H; subst. right. split; [left; reflexivity |].
           exists raw. auto.
        -- right. split; [right; exact H | exact H'].
Qed.

(** When [collect_market_data] returns, every history it kept belongs to a
    symbol of the universe, is a download with the rows lacking a close or
    a volume removed, and has at least 60 rows; no symbol is kept twice;
    and the market table has exactly one row per kept symbol, so it is not
    empty. *)
Theorem collected_histories_are_usable (env : Env) (period : string)
    (snapshot : MarketSnapshot) :
  collect_market_data env period = Ok snapshot ->
  NoDup (keys (price_history snapshot))
  /\ Permutation (map mSymbol (market_table snapshot)) (keys (price_history snapshot))
  /\ market_table snapshot <> []
  /\ forall sym hist,
       In (sym, hist) (price_history snapshot) ->
       In sym (universe_of env)
       /\ (60 <= List.length hist)%nat
       /\ Forall (fun b => is_nan (bClose b) = false /\ is_nan (bVolume b) = false) hist
       /\ exists raw, yf_download env sym period = Ok raw /\ hist = usable_rows raw.
Proof.
  unfold collect_market_data. fold (universe_of env).
  destruct (universe_sorted_nodup_helper env) as [Hu _].
  pose proof (collect_fold_invariant env period (universe_of env) [] [] Hu
                (NoDup_nil _) (fun k H => False_ind _ H) eq_refl) as Hinv.
  cbv zeta in Hinv.
  match type of Hinv with
  | context [fold_left ?f ?l ?a] =>
      match goal with
      | |- context [fold_left ?f' ?l' ?a'] =>
          change (fold_left f' l' a') with (fold_left f l a)
      end;
      remember (fold_left f l a) as st eqn:Est
  end.
  clear Est. destruct st as [history rows].
  cbn [fst snd] in Hinv. destruct Hinv as [H1 [H2 H3]].
  destruct (universe_of env) as [| u0 us] eqn:Eu; [discriminate |].
  destruct rows as [| r rows]; cbn [bind]; [discriminate |].
  set (market := stable_sort _ (r :: rows)).
  assert (Hperm : Permutation market (r :: rows)) by apply stable_sort_perm.
  destruct market as [| m ms] eqn:Em; [discriminate |].
  intro H. inversion H; subst. cbn [price_history market_table].
  split; [exact H1 |]. split; [| split; [discriminate |]].
  - rewrite <- H2. apply Permutation_map. exact Hperm.
  - intros sym hist Hin. destruct (H3 sym hist Hin) as [[] | [Hsym [raw [Hraw [-> Hlen]]]]].
    split; [exact Hsym |]. split; [exact Hlen |]. split; [| eauto].
    apply Forall_forall. intros b Hb. unfold usable_rows in Hb.
    apply filter_In in Hb. destruct Hb as [_ Hb].
    apply negb_true_iff, orb_false_iff in Hb. exact Hb.
Qed.

(** Offline nothing is collected; with 100 bars per symbol all twenty
    symbols are kept, each once. *)
Lemma collected_histories_are_usable_witness :
  exists snapshot,
    collect_market_data short_history_env "1y" = Ok snapshot
    /\ List.length (price_history snapshot) = 20%nat
    /\ NoDup (keys (price_history snapshot))
    /\ market_table snapshot <> [].
Proof.
  destruct (collect_market_data short_history_env "1y") as [snapshot |] eqn:E;
    [| vm_compute in E; discriminate].
  exists snapshot. split; [reflexivity |].
  destruct (collected_histories_are_usable short_history_env "1y" snapshot E)
    as [H1 [_ [H3 _]]].
  split; [| split; [exact H1 | exact H3]].
  vm_compute in E. injection E as <-. reflexivity.
Defined.

(* ------------------------------------------------------------------ *)
(** ** The pipeline end to end *)

Lemma score_ranges (row : Row) :
  row_has_null row = false ->
  exists b s,
    _buy_score row = Fin b /\ _sell_score row = Fin s
    /\ (0 <= b <= 100)%Q /\ (0 <= s <= 100)%Q.
Proof.
  intro Hrow.
  pose proof (row_has_null_ret5d row Hrow) as Hret.
  destruct (momentum_exclusive (Ret5D row * Fin 100)) as [cb [cs [Hb [Hs [H0 [H1 H2]]]]]].
  { apply fmul_not_nan; [| exact Hret]. intro H. discriminate H. }
  rewrite buy_score_unfold, Hb. unfold _sell_score. rewrite Hs.
  destruct (SMA20 row >? SMA50 row), (SMA50 row >? SMA200 row),
    ((Fin 40 <=? RSI14 row) && (RSI14 row <=? Fin 70)),
    (MACD row >? MACDSignal row), (VolumeRatio row >? Fin 1.2);
    cbn [fadd];
    destruct (RSI14 row >? Fin 75), (SMA20 row <? SMA50 row),
      (SMA50 row <? SMA200 row), (MACD row <? MACDSignal row),
      ((true && (Ret1D row <? Fin 0))%bool), ((false && (Ret1D row <? Fin 0))%bool);
    cbn [fadd]; eexists; eexists;
    (split; [reflexivity | split; [reflexivity | split; lra]]).
Qed.

Lemma latest_of_In (table : list Row) (latest : Row) :
  latest_of table = Some latest -> In latest table.
Proof.
  destruct table as [| r rs]; simpl; intro H; [discriminate |].
  inversion H; subst. clear H.
  destruct rs as [| x rs]; [left; reflexivity |].
  right. rewrite (app_removelast_last r (l := x :: rs)) at 2 by discriminate.
  apply in_or_app. right. left. reflexivity.
Qed.

Lemma enriched_latest_no_null (lib : TaLib) (ph : dict (list Bar)) (sym : string)
    (table : list Row) (latest : Row) :
  In (sym, table) (enrich_with_indicators lib ph) ->
  latest_of table = Some latest -> row_has_null latest = false.
Proof.
  intros Ht Hl. apply enriched_table_origin in Ht.
  destruct Ht as [df [frame [_ [_ ->]]]].
  apply latest_of_In in Hl. apply dropna_no_null in Hl. tauto.
Qed.

Lemma pipeline_score_helper (lib : TaLib) (ph : dict (list Bar)) (top_n : Z)
    (s : TradeSignal) :
  In s (generate_signals (enrich_with_indicators lib ph) top_n) ->
  exists q, signal_score s = Fin q /\ (55 <= q <= 100)%Q.
Proof.
  intro Hs. apply generate_signals_origin in Hs.
  destruct Hs as [sym [table [latest [Hin [Hlat Hs]]]]].
  pose proof (enriched_latest_no_null lib ph sym table latest Hin Hlat) as Hnull.
  destruct (score_ranges latest Hnull) as [b [sl [Hb [Hsl [Rb Rs]]]]].
  destruct Hs as [[Hq ->] | [Hq ->]]; cbn [signal_score buy_signal sell_signal].
  - rewrite Hb in *. unfold fge in Hq. simpl in Hq.
    q_bools. exists b. split; [reflexivity | lra].
  - rewrite Hsl in *. unfold fge in Hq. simpl in Hq.
    q_bools. exists sl. split; [reflexivity | lra].
Qed.

(** Enrichment followed by signal generation: every signal returned has a
    score that is a number between 55 and 100 and a price that is not
    null. *)
Theorem pipeline_scores_between_55_and_100 (lib : TaLib) (ph : dict (list Bar))
    (top_n : Z) (s : TradeSignal) :
  In s (generate_signals (enrich_with_indicators lib ph) top_n) ->
  (exists q, signal_score s = Fin q /\ (55 <= q <= 100)%Q)
  /\ is_nan (current_price s) = false.
Proof.
  intro Hs. apply generate_signals_origin in Hs.
  destruct Hs as [sym [table [latest [Hin [Hlat Hs]]]]].
  pose proof (enriched_latest_no_null lib ph sym table latest Hin Hlat) as Hnull.
  destruct (score_ranges latest Hnull) as [b [sl [Hb [Hsl [Rb Rs]]]]].
  assert (Hclose : is_nan (Close latest) = false).
  { destruct (is_nan (Close latest)) eqn:E; [| reflexivity].
    assert (X : row_has_null latest = true).
    { unfold row_has_null. apply existsb_exists. exists (Close latest).
      split; [| exact E]. apply in_or_app. left. unfold base_columns. simpl. tauto. }
    congruence. }
  destruct Hs as [[Hq ->] | [Hq ->]];
    cbn [signal_score current_price buy_signal sell_signal].
  - split; [| exact Hclose]. rewrite Hb in *. unfold fge in Hq. simpl in Hq.
    q_bools. exists b. split; [reflexivity | lra].
  - split; [| exact Hclose]. rewrite Hsl in *. unfold fge in Hq. simpl in Hq.
    q_bools. exists sl. split; [reflexivity | lra].
Qed.

Lemma signal_component_from_55 (q : Q) :
  (55 <= q <= 100)%Q ->
  exists c, py_min (Fin q / Fin 100) (Fin 1) = Fin c /\ (0.55 <= c <= 1)%Q.
Proof.
  intros [H1 H2]. unfold py_min. simpl.
  destruct (Qltb 1 (q / 100)) eqn:E.
  - exists 1%Q. split; [reflexivity | lra].
  - exists (q / 100)%Q. split; [reflexivity |]. q_bools.
    split; [| exact E]. apply Qle_shift_div_l; lra.
Qed.

Lemma probability_of_qualified (sig : TradeSignal) (risk : RiskProfile) (q : Q) :
  signal_score sig = Fin q -> (55 <= q <= 100)%Q ->
  (Fin 0 <=? trend_stability risk) = true ->
  (trend_stability risk <=? Fin 1) = true ->
  (Fin 43.75 <=? probability (estimate_probability sig risk)) = true
  /\ (probability (estimate_probability sig risk) <=? Fin 95.5) = true.
Proof.
  intros Hq Hr H0 H1. unfold estimate_probability. cbn [probability]. rewrite Hq.
  destruct (signal_component_from_55 q Hr) as [c [-> [Hc0 Hc1]]].
  destruct (trend_stability risk) as [| | | t]; simpl in H0, H1; try discriminate.
  q_bools. split.
  - apply (fle_trans _ (py_round (Fin 43.75) 2)); [vm_compute; reflexivity |].
    apply py_round_mono. destruct (risk_level risk); simpl; q_bools; lra.
  - apply (fle_trans _ (py_round (Fin 95.5) 2)); [| vm_compute; reflexivity].
    apply py_round_mono. destruct (risk_level risk); simpl; q_bools; lra.
Qed.

Lemma batch_evaluate_from_forall (lib : TaLib) (data : dict (list Row))
    (P : RiskProfile -> Prop) (signals : list TradeSignal) :
  (forall s table r, evaluate_risk lib s table = Ok r -> P r) ->
  forall acc risks,
    batch_evaluate_from lib acc signals data = Ok risks ->
    Forall (fun entry => P (snd entry)) acc ->
    Forall (fun entry => P (snd entry)) risks.
Proof.
  intro HP. induction signals as [| s0 rest IH]; intros acc risks H Hacc;
    cbn [batch_evaluate_from] in H.
  - inversion H; subst. exact Hacc.
  - unfold dict_item in H.
    destruct (dict_get data (symbol s0)) as [table |]; cbn [bind] in H; [| discriminate].
    destruct (evaluate_risk lib s0 table) as [r0 |] eqn:Er; cbn [bind] in H;
      [| discriminate].
    apply (IH _ _ H). apply Forall_forall. intros [k v] Hin.
    apply dict_set_In in Hin. destruct Hin as [Hin | Hin].
    + inversion Hin; subst. cbn [snd]. apply (HP s0 table r0 Er).
    + rewrite Forall_forall in Hacc. apply (Hacc _ Hin).
Qed.

Lemma probabilities_from_forall (P : ProbabilityEstimate -> Prop)
    (risks : dict RiskProfile) (signals : list TradeSignal) :
  (forall s risk, In s signals -> In (symbol s, risk) risks ->
                  P (estimate_probability s risk)) ->
  forall acc probabilities,
    probabilities_from acc signals risks = Ok probabilities ->
    Forall (fun entry => P (snd entry)) acc ->
    Forall (fun entry => P (snd entry)) probabilities.
Proof.
  induction signals as [| s0 rest IH]; intros HP acc probs H Hacc;
    cbn [probabilities_from] in H.
  - inversion H; subst. exact Hacc.
  - unfold dict_item in H.
    destruct (dict_get risks (symbol s0)) as [risk |] eqn:Er; cbn [bind] in H;
      [| discriminate].
    apply (IH (fun s r Hs => HP s r (or_intror Hs)) _ _ H).
    apply Forall_forall. intros [k v] Hin.
    apply dict_set_In in Hin. destruct Hin as [Hin | Hin].
    + inversion Hin; subst. cbn [snd]. apply HP; [left; reflexivity |].
      apply dict_get_In. exact Er.
    + rewrite Forall_forall in Hacc. apply (Hacc _ Hin).
Qed.

(** Every probability a run reports lies between 43.75 and 95.5: a
    reported signal scores between 55 and 100 and the trend stability lies
    between 0 and 1, whatever the prices and the indicator library. *)
Theorem reported_probabilities_in_range (lib : TaLib) (env : Env)
    (outcome : RunOutcome) (row : ReportRow) :
  run_daily_analysis lib env = Ok outcome ->
  In row (report_df outcome) ->
  (Fin 43.75 <=? row_probability row) = true
  /\ (row_probability row <=? Fin 95.5) = true.
Proof.
  unfold run_daily_analysis.
  destruct (collect_market_data env "1y") as [snapshot |]; cbn [bind]; [| discriminate].
  set (data := enrich_with_indicators lib (price_history snapshot)).
  unfold analyse. set (signals := generate_signals data 10).
  unfold batch_evaluate.
  destruct (batch_evaluate_from lib [] signals data) as [risks |] eqn:Er;
    cbn [bind]; [| discriminate].
  destruct (probabilities_from [] signals risks) as [probs |] eqn:Ep;
    cbn [bind]; [| discriminate].
  rewrite build_report_dataframe_eq.
  destruct (report_rows signals risks probs) as [rows |] eqn:Erows;
    cbn [bind]; [| discriminate].
  intros H Hrow. inversion H; subst. cbn [report_df] in Hrow.
  apply (Permutation_in _ (stable_sort_perm _ _)) in Hrow.
  pose proof (batch_evaluate_from_forall lib data
                (fun r => (Fin 0 <=? trend_stability r) = true
                          /\ (trend_stability r <=? Fin 1) = true) signals
                (fun s table r Hr =>
                   proj2 (evaluate_risk_stability_unit lib s table r Hr))
                [] risks Er (Forall_nil _)) as Hrisks.
  assert (Hprobs : Forall (fun entry =>
                             (Fin 43.75 <=? probability (snd entry)) = true
                             /\ (probability (snd entry) <=? Fin 95.5) = true) probs).
  { refine (probabilities_from_forall
              (fun p => (Fin 43.75 <=? probability p) = true
                        /\ (probability p <=? Fin 95.5) = true)
              risks signals _ [] probs Ep (Forall_nil _)).
    intros s risk Hs Hrisk.
    destruct (pipeline_score_helper lib (price_history snapshot) 10 s Hs)
      as [q [Hq Hr]].
    rewrite Forall_forall in Hrisks. destruct (Hrisks _ Hrisk) as [H0 H1].
    apply (probability_of_qualified s risk q Hq Hr H0 H1). }
  pose proof (report_rows_inv _ _ _ rows Erows) as Hinv.
  clear - Hinv Hrow Hprobs. induction Hinv as [| s r ss rows [risk [prob [_ [Hp ->]]]] _ IH];
    [contradiction |].
  destruct Hrow as [<- | Hrow]; [| apply IH; exact Hrow].
  cbn [row_probability report_row]. apply dict_get_In in Hp.
  rewrite Forall_forall in Hprobs. apply (Hprobs _ Hp).
Qed.

(** With the stand-in library, 200 rising bars give one BUY signal, with a
    score of 8335/147 (about 56.7). *)
Lemma pipeline_scores_between_55_and_100_witness :
  exists s,
    generate_signals (enrich_with_indicators stand_in_lib rising_mapping) 10 = [s]
    /\ signal s = BUY
    /\ feq (signal_score s) (Fin (8335 # 147))
    /\ (exists q, signal_score s = Fin q /\ (55 <= q <= 100)%Q)
    /\ is_nan (current_price s) = false.
Proof.
  destruct (generate_signals (enrich_with_indicators stand_in_lib rising_mapping) 10)
    as [| s rest] eqn:E; [vm_compute in E; discriminate |].
  assert (Hin : In s (generate_signals
                        (enrich_with_indicators stand_in_lib rising_mapping) 10))
    by (rewrite E; left; reflexivity).
  destruct (pipeline_scores_between_55_and_100 stand_in_lib rising_mapping 10 s Hin)
    as [H1 H2].
  exists s. vm_compute in E. injection E as <- <-.
  split; [reflexivity |]. split; [reflexivity |].
  split; [vm_compute; reflexivity |]. split; [exact H1 | exact H2].
Defined.

(** With the stand-in library and 200 rising bars for every symbol, the
    run reports ten BUY rows, each with a probability of 59.69. *)
Lemma reported_probabilities_in_range_witness :
  exists outcome,
    run_daily_analysis stand_in_lib rising_env = Ok outcome
    /\ List.length (report_df outcome) = 10%nat
    /\ Forall (fun row => feq (row_probability row) (Fin 59.69)
                          /\ (Fin 43.75 <=? row_probability row) = true
                          /\ (row_probability row <=? Fin 95.5) = true)
              (report_df outcome).
Proof.
  destruct (run_daily_analysis stand_in_lib rising_env) as [outcome |] eqn:E;
    [| vm_compute in E; discriminate].
  exists outcome. split; [reflexivity |].
  pose proof (fun row =>
                reported_probabilities_in_range stand_in_lib rising_env outcome row E)
    as H.
  vm_compute in E. injection E as <-.
  split; [reflexivity |].
  apply Forall_forall. intros row Hrow. specialize (H row Hrow).
  split; [| exact H].
  cbn [report_df] in Hrow.
  repeat (destruct Hrow as [<- | Hrow]; [vm_compute; reflexivity |]).
  contradiction.
Defined.

Lemma StronglySorted_filter {A : Type} (R : A -> A -> Prop) (f : A -> bool)
    (l : list A) :
  StronglySorted R l -> StronglySorted R (filter f l).
Proof.
  intro Hs. induction Hs as [| x l Hs IH Hx]; simpl; [constructor |].
  destruct (f x); [| exact IH].
  constructor; [exact IH |].
  rewrite Forall_forall in *. intros y Hy. apply filter_In in Hy. apply Hx, Hy.
Qed.

Lemma collect_step_usable (env : Env) (period sym : string)
    (history : dict (list Bar)) (rows : list MarketRow) :
  usable_history env period sym = true ->
  exists hist row,
    mSymbol row = sym
    /\ collect_step env period (history, rows) sym
       = (dict_set history sym hist, (rows ++ [row])%list).
Proof.
  intro Hu.
  destruct (collect_step_cases env period sym history rows)
    as [E | [raw [row [_ [_ [Hrow E]]]]]].
  - exfalso. revert Hu E.
    unfold usable_history, collect_step, collect_symbol.
    destruct (_fetch_symbol_history env sym period) as [hist |]; cbn [bind];
      [| discriminate].
    intro Hu. apply negb_true_iff in Hu. rewrite Hu.
    destruct hist as [| b0 hist]; [simpl in Hu; discriminate |].
    apply Nat.ltb_ge in Hu.
    rewrite (iloc_back_ok _ 1 b0) by lia. cbn [bind].
    rewrite (iloc_back_ok _ 2 b0) by lia. cbn [bind].
    intro E. inversion E as [[E1 E2]].
    apply (f_equal (@List.length _)) in E2. rewrite length_app in E2. simpl in E2. lia.
  - exists (usable_rows raw), row. auto.
Qed.

Lemma collect_fold_keys (env : Env) (period : string) (syms : list string) :
  forall history rows,
    NoDup syms ->
    (forall k, In k (keys history) -> ~ In k syms) ->
    map mSymbol rows = keys history ->
    let st := fold_left (collect_step env period) syms (history, rows) in
    keys (fst st) = (keys history ++ filter (usable_history env period) syms)%list
    /\ map mSymbol (snd st) = keys (fst st).
Proof.
  induction syms as [| s syms IH]; intros history rows Hsyms Hfresh Hrows;
    cbn [fold_left filter].
  - cbn [fst snd]. rewrite app_nil_r. auto.
  - inversion Hsyms as [| ? ? Hs Hsyms']; subst.
    destruct (usable_history env period s) eqn:Hu.
    + destruct (collect_step_usable env period s history rows Hu)
        as [hist [row [Hrow ->]]].
      assert (Hnew : ~ In s (keys history)).
      { intro Hk. apply (Hfresh s Hk). left. reflexivity. }
      rewrite (dict_set_new history s _ Hnew).
      destruct (IH (history ++ [(s, hist)])%list (rows ++ [row])%list Hsyms')
        as [H1 H2].
      * intros k Hk Hin. unfold keys in Hk. rewrite map_app in Hk.
        apply in_app_or in Hk. destruct Hk as [Hk | [<- | []]].
        -- apply (Hfresh k Hk). right. exact Hin.
        -- contradiction.
      * unfold keys. rewrite !map_app, Hrows. simpl. rewrite Hrow. reflexivity.
      * split; [| exact H2]. rewrite H1. unfold keys. rewrite map_app. simpl.
        rewrite <- app_assoc. reflexivity.
    + rewrite (collect_step_unusable env period s (history, rows) Hu).
      apply IH; auto.
      intros k Hk Hin. apply (Hfresh k Hk). right. exact Hin.
Qed.

Lemma collect_market_data_outcome (env : Env) (period : string) :
  match usable_symbols env period with
  | [] => collect_market_data env period = Raise (KeyError "PctChange")
  | _ :: _ =>
      exists snapshot,
        collect_market_data env period = Ok snapshot
        /\ keys (price_history snapshot) = usable_symbols env period
        /\ List.length (market_table snapshot)
           = List.length (usable_symbols env period)
  end.
Proof.
  pose proof (universe_sorted_nodup_helper env) as [Hnd Hne].
  destruct (collect_fold_keys env period (universe_of env) [] [] Hnd) as [H1 H2];
    [intros k [] | reflexivity |].
  cbn [keys map app] in H1.
  unfold collect_market_data. fold (universe_of env).
  destruct (universe_of env) as [| u0 us] eqn:Eu; [congruence |].
  rewrite <- Eu in *.
  destruct (fold_left (collect_step env period) (universe_of env) ([], []))
    as [history rows] eqn:Ef.
  match type of H1 with
  | context [fold_left ?f ?l ?a] =>
      replace (fold_left f l a) with (history, rows) in H1, H2
        by (symmetry; exact Ef)
  end.
  cbn [fst snd] in H1, H2. fold (usable_symbols env period) in H1.
  destruct (usable_symbols env period) as [| k kept] eqn:Ek.
  - rewrite H1 in H2. destruct rows; [| discriminate H2]. reflexivity.
  - rewrite H1 in H2. destruct rows as [| r rows]; [discriminate H2 |].
    cbn [bind].
    pose proof (stable_sort_perm
                  (fun a b => desc_before (mPctChange a) (mPctChange b)) (r :: rows))
      as Hperm.
    destruct (stable_sort _ (r :: rows)) as [| m market] eqn:Em.
    + apply Permutation_nil in Hperm. discriminate.
    + eexists. split; [reflexivity |]. cbn [price_history market_table].
      split; [exact H1 |].
      rewrite (Permutation_length Hperm). rewrite <- (length_map mSymbol), H2.
      reflexivity.
Qed.

(** Data collection fails exactly when no symbol of the universe has a
    usable download, and then always with the KeyError of sorting a table
    without a PctChange column: neither RuntimeError of the function is
    ever raised.  Otherwise the price history holds exactly the usable
    symbols, in the ascending order of the universe, with one market row
    each. *)
Theorem collection_fails_only_with_key_error (env : Env) (period : string) :
  (usable_symbols env period = [] <->
   collect_market_data env period = Raise (KeyError "PctChange"))
  /\ (forall e, collect_market_data env period = Raise e ->
                e = KeyError "PctChange")
  /\ forall snapshot,
       collect_market_data env period = Ok snapshot ->
       keys (price_history snapshot) = usable_symbols env period
       /\ StronglySorted (fun a b => String.ltb a b = true)
                         (keys (price_history snapshot))
       /\ List.length (market_table snapshot)
          = List.length (usable_symbols env period)
       /\ usable_symbols env period <> [].
Proof.
  pose proof (collect_market_data_outcome env period) as H.
  pose proof (StronglySorted_filter _ (usable_history env period) _
                (universe_strictly_sorted env)) as Hsorted.
  fold (usable_symbols env period) in Hsorted.
  destruct (usable_symbols env period) as [| k kept].
  - split; [split; auto |]. split.
    + intros e He. congruence.
    + intros snapshot Hs. congruence.
  - destruct H as [snapshot [Hs [Hk Hl]]]. split; [| split].
    + split; [discriminate | congruence].
    + intros e He. congruence.
    + intros snapshot' Hs'. rewrite Hs in Hs'. inversion Hs'; subst.
      split; [exact Hk |]. split; [rewrite Hk; exact Hsorted |].
      split; [exact Hl | discriminate].
Qed.

(* ------------------------------------------------------------------ *)
(** ** Binary floats: rounding and the order of probabilities *)

Close Scope float_scope.

Section Binary64Facts.

Import Binary64.

(** What [nearest] makes of some decimals: 0.1 and 68.605 are not binary
    numbers; [2^53 + 1] lies half-way between two and goes to the even one;
    below half the smallest spacing the result is 0; and from
    [2^1024 - 2^970] on it is an infinity. *)
Lemma nearest_examples :
  nearest 0.1 = Fin (3602879701896397 # 36028797018963968)
  /\ nearest 68.605 = Fin (4827647694308639 # 70368744177664)
  /\ nearest 9007199254740993 = Fin 9007199254740992
  /\ nearest 2.4e-324 = Fin 0
  /\ nearest (pow2 1024 - pow2 970) = PInf
  /\ nearest (- pow2 1024) = NInf.
Proof. vm_compute. repeat split. Qed.




Lemma pow2_lt (a b : Z) : (a < b)%Z -> pow2 a < pow2 b.
Proof. intro H. apply Qpower_lt_compat_l; [exact H | reflexivity]. Qed.














Lemma ordered_within_weaken (B B' : Q) (x y : float) :
  ordered_within B x y -> B <= B' -> ordered_within B' x y.
Proof.
  intros [a [b [-> [-> [H0 [H1 H2]]]]]] H. exists a, b. repeat split; auto; lra.
Qed.























End Binary64Facts.




Open Scope float_scope.
